(** * SnowJamKun: archive, change detection, retention and staleness

    A shallow embedding of the backend of SnowJamKun
    (backend/app/{config,storage,incoming,detection,main}.py) and the
    properties of its ingestion -> archive -> change-detection -> alarm
    pipeline.

    Conventions of the embedding:
    - Python [int] is [Z]; [float] values that the code only compares or
      divides (rates, thresholds) are rationals [Q];
    - Python [str] is [string]; a [pathlib.Path] is the list of its
      components, the last one being its [name];
    - a [datetime] is its number of microseconds since the epoch (UTC);
      its range (years 1 to 9999) is not enforced, timestamps are taken
      within it;
    - a call that may raise returns a [result]: [Ret v] or [Raise e];
    - the file system is a finite map from paths to nodes, threaded
      through the calls that read or change it. *)

From Stdlib Require Import ZArith QArith Ascii String List Lia Bool Sorted Permutation.
From stdpp Require Import base option list gmap strings fin_maps.

Local Open Scope Z_scope.

(* ===================================================================== *)
(** * Part I: the program                                                 *)
(* ===================================================================== *)

(** ** Python values and exceptions *)

Module Py.

(** The exceptions the modelled code can raise. [OSError] stands for the
    whole OSError family (FileNotFoundError, PermissionError, ...) and
    [ShutilError] for [shutil.Error]. *)
Inductive exn : Type :=
| ValueError
| ZeroDivisionError
| OSError
| ShutilError.

Inductive result (A : Type) : Type :=
| Ret (a : A)
| Raise (e : exn).
Arguments Ret {A} a.
Arguments Raise {A} e.

Definition bind {A B : Type} (m : result A) (k : A -> result B) : result B :=
  match m with
  | Ret a => k a
  | Raise e => Raise e
  end.

(** [a / b] on integers (true division): a rational, or
    ZeroDivisionError. *)
Definition truediv (a b : Z) : result Q :=
  if b =? 0 then Raise ZeroDivisionError else Ret (inject_Z a / inject_Z b)%Q.

(** *** [str] *)

Definition chars (s : string) : list ascii := list_ascii_of_string s.
Definition str (l : list ascii) : string := string_of_list_ascii l.

(** [len(s)] *)
Definition len (s : string) : Z := Z.of_nat (List.length (chars s)).

(** Index of the first occurrence of [c] in [l]. *)
Fixpoint index_of (c : ascii) (l : list ascii) : option nat :=
  match l with
  | [] => None
  | x :: l' => if Ascii.eqb x c then Some O else option_map S (index_of c l')
  end.

(** [s.rfind(c)] for a one-character needle: the index of its last
    occurrence, or -1. *)
Definition rfind (s : string) (c : ascii) : Z :=
  match index_of c (rev (chars s)) with
  | Some j => len s - 1 - Z.of_nat j
  | None => -1
  end.

(** [s[:i]] for [0 <= i]. *)
Definition slice_to (s : string) (i : Z) : string :=
  str (firstn (Z.to_nat i) (chars s)).

(** [l] starts with [p]. *)
Fixpoint starts_with (p l : list ascii) : bool :=
  match p, l with
  | [], _ => true
  | a :: p', b :: l' => Ascii.eqb a b && starts_with p' l'
  | _ :: _, [] => false
  end.

(** [s.endswith(suf)] *)
Definition endswith (s suf : string) : bool :=
  starts_with (rev (chars suf)) (rev (chars s)).

(** [sub in s] *)
Fixpoint contains_chars (sub l : list ascii) : bool :=
  starts_with sub l ||
  match l with
  | [] => false
  | _ :: l' => contains_chars sub l'
  end.

Definition contains (sub s : string) : bool := contains_chars (chars sub) (chars s).

End Py.
Import Py.

(** ** pathlib *)

Module Pathlib.

(** A path is the list of its components; [/] appends one component. *)
Definition Path : Type := list string.

Definition joinpath (p : Path) (c : string) : Path := p ++ [c].

(** [p.name]: the final component, or the empty string. *)
Definition name (p : Path) : string := List.last p EmptyString.

(** [p.parent] *)
Definition parent (p : Path) : Path := removelast p.

(** [p.stem]: the name without its last suffix.  As in pathlib, a dot in
    first or in last position does not start a suffix. *)
Definition stem_of_name (n : string) : string :=
  let i := rfind n "."%char in
  if (0 <? i) && (i <? len n - 1) then slice_to n i else n.

Definition stem (p : Path) : string := stem_of_name (name p).

(** A string that [with_name] accepts as a new name: not empty, without a
    separator, and not the current-directory component. *)
Definition valid_name (n : string) : bool :=
  negb (String.eqb n EmptyString)
  && negb (contains "/" n)
  && negb (String.eqb n ".").

(** [p.with_name(n)]: ValueError when [p] has an empty name or [n] is not
    a valid name; otherwise the last component is replaced. *)
Definition with_name (p : Path) (n : string) : result Path :=
  if String.eqb (name p) EmptyString then Raise ValueError
  else if valid_name n then Ret (parent p ++ [n])
  else Raise ValueError.

End Pathlib.
Import Pathlib.

(** ** config.py *)

Module Config.

Record Settings : Type := {
  threshold : Q;
  consecutive_hits : Z;
  binary_threshold : Z;
  blur_kernel : Z;
  overlay_color : string;
  overlay_alpha : Q;
  delay_monitor_enabled : bool;
  delay_threshold_seconds : Z;
  alarm_enabled : bool;
  slack_webhook_url : string;
  slack_bot_token : string;
  slack_channel : string;
  mask_inclusive : bool;
  gpio_pin : option Z
}.

(** The field constraints of the pydantic model ([ge], [le]). *)
Definition validated (s : Settings) : Prop :=
  (0 <= threshold s)%Q /\
  1 <= consecutive_hits s /\
  0 <= binary_threshold s <= 255 /\
  1 <= blur_kernel s /\
  (0 <= overlay_alpha s <= 1)%Q /\
  1 <= delay_threshold_seconds s.

(** The defaults of the model. *)
Definition default_settings : Settings := {|
  threshold := 15 # 100;
  consecutive_hits := 3;
  binary_threshold := 30;
  blur_kernel := 3;
  overlay_color := "#ff69b4";
  overlay_alpha := 35 # 100;
  delay_monitor_enabled := true;
  delay_threshold_seconds := 300;
  alarm_enabled := true;
  slack_webhook_url := EmptyString;
  slack_bot_token := EmptyString;
  slack_channel := EmptyString;
  mask_inclusive := true;
  gpio_pin := Some 17
|}.

End Config.
Import Config.

(** ** detection.py: names and kernel size *)

Module DetectionNames.

(** [_ensure_odd(value)]: Python's [%] with a positive divisor is
    [Z.modulo]. *)
Definition _ensure_odd (value : Z) : Z :=
  if value mod 2 =? 1 then value else value + 1.

Definition mask_suffix : string := "_mask".
Definition rev_mask : list ascii := rev (chars mask_suffix).

(** Removes every leading copy of the reversed suffix from a reversed
    string: the maximal run of trailing [_mask]. *)
Fixpoint strip_mask_rev (r : list ascii) : list ascii :=
  match r with
  | c1 :: c2 :: c3 :: c4 :: c5 :: r' =>
      if starts_with rev_mask [c1; c2; c3; c4; c5] then strip_mask_rev r' else r
  | _ => r
  end.

(** The number of copies of [_mask] that a reversed string starts with. *)
Fixpoint count_mask_rev (r : list ascii) : nat :=
  match r with
  | c1 :: c2 :: c3 :: c4 :: c5 :: r' =>
      if starts_with rev_mask [c1; c2; c3; c4; c5] then S (count_mask_rev r') else O
  | _ => O
  end.

(** How many [_mask] suffixes a stem ends with. *)
Definition mask_suffix_count (s : string) : nat := count_mask_rev (rev (chars s)).

Definition newline : ascii := ascii_of_nat 10.

(** [re.sub] of the pattern [(_mask)+$] by the empty string in [s].  The
    leftmost match is the maximal run of [_mask] that ends the string;
    without MULTILINE, [$] also matches just before a newline that is the
    last character, so a run that is followed by one final newline is
    removed as well. *)
Definition re_sub_mask_suffix (s : string) : string :=
  match rev (chars s) with
  | [] => s
  | c :: r =>
      if Ascii.eqb c newline then str (rev (c :: strip_mask_rev r))
      else str (rev (strip_mask_rev (c :: r)))
  end.

(** [_overlay_path(latest_path)] *)
Definition _overlay_path (latest_path : Path) : result Path :=
  let stem := stem latest_path in
  let stem := re_sub_mask_suffix stem in
  with_name latest_path (stem ++ "_mask.png").

End DetectionNames.
Import DetectionNames.

(** ** datetime *)

Module Datetime.

(** A [datetime] (always UTC here): microseconds since 1970-01-01. *)
Definition datetime : Type := Z.

Definition us_per_second : Z := 1000000.
Definition us_per_day : Z := 86400 * us_per_second.

(** [timedelta(days=d)] *)
Definition timedelta_days (d : Z) : Z := d * us_per_day.

(** [datetime.fromtimestamp(t, tz=timezone.utc)], for a timestamp [t]
    given in microseconds, the resolution a datetime keeps. *)
Definition fromtimestamp (t : Z) : datetime := t.

(** [(a - b).total_seconds()] *)
Definition total_seconds (a b : datetime) : Q := (a - b) # 1000000.

(** The proleptic Gregorian date of a day number (days since the epoch):
    eras of 400 years (146097 days) that start on March 1st. *)
Definition month_day_of_doe (doe : Z) : Z * Z * Z :=
  let yoe := (doe - doe / 1460 + doe / 36524 - doe / 146096) / 365 in
  let doy := doe - (365 * yoe + yoe / 4 - yoe / 100) in
  let mp := (5 * doy + 2) / 153 in
  let d := doy - (153 * mp + 2) / 5 + 1 in
  let m := if mp <? 10 then mp + 3 else mp - 9 in
  (yoe, m, d).

Definition civil_from_days (z : Z) : Z * Z * Z :=
  let z := z + 719468 in
  let era := z / 146097 in
  let doe := z mod 146097 in
  let '(yoe, m, d) := month_day_of_doe doe in
  let y := yoe + era * 400 in
  (if m <=? 2 then y + 1 else y, m, d).

Definition date_of (t : datetime) : Z * Z * Z := civil_from_days (t / us_per_day).

Definition year (t : datetime) : Z := fst (fst (date_of t)).
Definition month (t : datetime) : Z := snd (fst (date_of t)).
Definition day (t : datetime) : Z := snd (date_of t).

(** Decimal digits. *)
Definition digit (d : Z) : ascii := ascii_of_nat (48 + Z.to_nat (d mod 10)).

Definition pad2 (n : Z) : string := str [digit (n / 10); digit n].
Definition pad4 (n : Z) : string :=
  str [digit (n / 1000); digit (n / 100); digit (n / 10); digit n].

(** The value of a string of decimal digits. *)
Definition digit_value (c : ascii) : Z := Z.of_nat (nat_of_ascii c) - 48.
Definition decimal_value (s : string) : Z :=
  fold_left (fun acc c => 10 * acc + digit_value c) (chars s) 0.

(** [f"{t:%Y}"], [f"{t:%m}"], [f"{t:%d}"]: the year with century on four
    digits (a datetime has a year from 1 to 9999), the month and the day
    of the month zero-padded on two. *)
Definition format_Y (t : datetime) : string := pad4 (year t).
Definition format_m (t : datetime) : string := pad2 (month t).
Definition format_d (t : datetime) : string := pad2 (day t).

(** A datetime has a year from MINYEAR = 1 to MAXYEAR = 9999. *)
Definition valid_year (t : datetime) : Prop := 1 <= year t <= 9999.

End Datetime.
Import Datetime.

(** ** The file system and the process state *)

Module OS.

Inductive node : Type :=
| File (st_mtime : Z) (data : string)
| Dir (st_mtime : Z).

Global Instance node_eq_dec : EqDecision node.
Proof. solve_decision. Defined.

(** The state the program runs in: the file-system tree, the clock, the
    operations that the operating system refuses (permissions, I/O
    errors, entries that vanish under a racing process), one set per
    system call the code makes, and the application state
    [app.state.last_image_at] of main.py. *)
Record State : Type := {
  fs : gmap Path node;
  clock : datetime;
  stat_err : gset Path;
  unlink_err : gset Path;
  rename_err : gset Path;
  mkdir_err : gset Path;
  last_image_at : option datetime
}.

Definition set_fs (w : State) (m : gmap Path node) : State :=
  {| fs := m; clock := clock w; stat_err := stat_err w; unlink_err := unlink_err w;
     rename_err := rename_err w; mkdir_err := mkdir_err w;
     last_image_at := last_image_at w |}.

Definition set_last_image_at (w : State) (t : option datetime) : State :=
  {| fs := fs w; clock := clock w; stat_err := stat_err w; unlink_err := unlink_err w;
     rename_err := rename_err w; mkdir_err := mkdir_err w;
     last_image_at := t |}.

(** Computations that read and change the state and may raise; the state
    reached when an exception is raised is kept. *)
Definition M (A : Type) : Type := State -> result A * State.

Definition ret {A} (a : A) : M A := fun w => (Ret a, w).
Definition mbind {A B} (m : M A) (k : A -> M B) : M B :=
  fun w => match m w with
           | (Ret a, w') => k a w'
           | (Raise e, w') => (Raise e, w')
           end.

(** [try: m  except (OSError, shutil.Error): handler] *)
Definition is_os_error (e : exn) : bool :=
  match e with OSError | ShutilError => true | _ => false end.

Definition try_except_os {A} (m : M A) (handler : M A) : M A :=
  fun w => match m w with
           | (Raise e, w') => if is_os_error e then handler w' else (Raise e, w')
           | r => r
           end.

(** [try: m  except OSError: handler] *)
Definition try_except_oserror {A} (m : M A) (handler : M A) : M A :=
  fun w => match m w with
           | (Raise OSError, w') => handler w'
           | r => r
           end.

(** [try: m  except Exception: pass] *)
Definition try_except_pass (m : M unit) : M unit :=
  fun w => match m w with
           | (Raise _, w') => (Ret tt, w')
           | r => r
           end.

(** [Path.exists()], [Path.is_file()], [Path.is_dir()] *)
Definition exists_ (w : State) (p : Path) : bool :=
  match fs w !! p with Some _ => true | None => false end.

Definition is_file (w : State) (p : Path) : bool :=
  match fs w !! p with Some (File _ _) => true | _ => false end.

Definition is_dir (w : State) (p : Path) : bool :=
  match fs w !! p with Some (Dir _) => true | _ => false end.

(** [Path.stat().st_mtime] *)
Definition stat_mtime (p : Path) : M Z :=
  fun w =>
    if bool_decide (p ∈ stat_err w) then (Raise OSError, w)
    else match fs w !! p with
         | Some (File t _) => (Ret t, w)
         | Some (Dir t) => (Ret t, w)
         | None => (Raise OSError, w)
         end.

(** [Path.unlink(missing_ok=True)] *)
Definition unlink_missing_ok (p : Path) : M unit :=
  fun w =>
    match fs w !! p with
    | None => (Ret tt, w)
    | Some (Dir _) => (Raise OSError, w)
    | Some (File _ _) =>
        if bool_decide (p ∈ unlink_err w) then (Raise OSError, w)
        else (Ret tt, set_fs w (delete p (fs w)))
    end.

(** The non-empty prefixes of a path, shortest first: the directories
    that [mkdir(parents=True)] walks. *)
Definition ancestors_and_self (p : Path) : list Path :=
  List.map (fun n => firstn n p) (seq 1 (List.length p)).

(** One level of [mkdir(exist_ok=True)]: an existing directory is kept,
    a file in the way is an error. *)
Definition mkdir_one (d : Path) : M unit :=
  fun w =>
    match fs w !! d with
    | Some (Dir _) => (Ret tt, w)
    | Some (File _ _) => (Raise OSError, w)
    | None =>
        if bool_decide (d ∈ mkdir_err w) then (Raise OSError, w)
        else (Ret tt, set_fs w (<[d := Dir (clock w)]> (fs w)))
    end.

Fixpoint mkdir_all (ds : list Path) : M unit :=
  match ds with
  | [] => ret tt
  | d :: rest => mbind (mkdir_one d) (fun _ => mkdir_all rest)
  end.

(** [Path.mkdir(parents=True, exist_ok=True)] *)
Definition mkdir_parents (d : Path) : M unit := mkdir_all (ancestors_and_self d).

(** [shutil.move(src, dst)] for a source that is not a directory: when
    [dst] is an existing directory the source is moved inside it, and
    shutil.Error is raised if that name is taken; otherwise [dst] itself
    is the destination and an existing file there is replaced.  Returns
    the real destination. *)
Definition shutil_move (src dst : Path) : M Path :=
  fun w =>
    let real_dst := if is_dir w dst then joinpath dst (name src) else dst in
    if is_dir w dst && exists_ w real_dst then (Raise ShutilError, w)
    else if bool_decide (src ∈ rename_err w) then (Raise OSError, w)
    else match fs w !! src with
         | None => (Raise OSError, w)
         | Some n =>
             if is_dir w (parent real_dst)
             then (Ret real_dst, set_fs w (<[real_dst := n]> (delete src (fs w))))
             else (Raise OSError, w)
         end.

(** [Path.rglob("*")]: every entry below [root], in the order the
    directory walk yields them. *)
Definition is_below (root p : Path) : bool :=
  bool_decide (root `prefix_of` p) && negb (bool_decide (p = root)).

Definition rglob (w : State) (root : Path) : list Path :=
  List.filter (is_below root) (map_to_list (fs w)).*1.

(** [Path.iterdir()]: the direct children. *)
Definition iterdir (w : State) (root : Path) : list Path :=
  List.filter (fun p => bool_decide (parent p = root) && negb (bool_decide (p = [])))
    (map_to_list (fs w)).*1.

End OS.
Import OS.

Declare Scope os_scope.
Delimit Scope os_scope with os.
Notation "x <- m ;; k" := (mbind m (fun x => k))
  (at level 100, m at next level, right associativity) : os_scope.


Local Open Scope os_scope.

(** ** storage.py *)

Module Storage.

(** [ensure_directories], called with any number of paths *)
Fixpoint ensure_directories (paths : list Path) : M unit :=
  match paths with
  | [] => ret tt
  | path :: rest => _ <- mkdir_parents path ;; ensure_directories rest
  end.

(** [archive_path(storage_root, timestamp, filename)] *)
Definition archive_path (storage_root : Path) (timestamp : datetime) (filename : string) : Path :=
  let date_dir :=
    joinpath (joinpath (joinpath storage_root (format_Y timestamp)) (format_m timestamp))
             (format_d timestamp) in
  joinpath date_dir filename.

(** The body of the loop of [cleanup_older_than] for one path. *)
Definition cleanup_one (cutoff : datetime) (path : Path) (deleted : list Path) : M (list Path) :=
  fun w =>
    if negb (is_file w path) then (Ret deleted, w)
    else
      try_except_oserror
        (st_mtime <- stat_mtime path ;;
         let mtime := fromtimestamp st_mtime in
         if mtime <? cutoff
         then _ <- unlink_missing_ok path ;; ret (deleted ++ [path])
         else ret deleted)
        (ret deleted) w.

Fixpoint cleanup_loop (cutoff : datetime) (paths : list Path) (deleted : list Path)
  : M (list Path) :=
  match paths with
  | [] => ret deleted
  | path :: rest =>
      deleted' <- cleanup_one cutoff path deleted ;; cleanup_loop cutoff rest deleted'
  end.

(** [cleanup_older_than(storage_root, retention_days)] *)
Definition cleanup_older_than (storage_root : Path) (retention_days : Z) : M (list Path) :=
  fun w =>
    let now := clock w in
    let cutoff := now - timedelta_days retention_days in
    let deleted := [] in
    if negb (exists_ w storage_root) then (Ret deleted, w)
    else cleanup_loop cutoff (rglob w storage_root) deleted w.

(** [_is_overlay(p)], local to [list_recent_images] *)
Definition _is_overlay (p : Path) : bool := contains "_mask" (name p).

(** The keys [p.stat().st_mtime] that [sorted] computes, one per element
    and in order, before it sorts. *)
Fixpoint sort_keys (files : list Path) : M (list (Z * Path)) :=
  match files with
  | [] => ret []
  | p :: rest =>
      k <- stat_mtime p ;;
      ks <- sort_keys rest ;;
      ret ((k, p) :: ks)
  end.

(** [sorted(..., reverse=True)] is stable: larger keys first, equal keys
    in their original order. *)
Fixpoint insert_desc (x : Z * Path) (l : list (Z * Path)) : list (Z * Path) :=
  match l with
  | [] => [x]
  | y :: l' => if fst x <? fst y then y :: insert_desc x l' else x :: y :: l'
  end.

Fixpoint sort_desc (l : list (Z * Path)) : list (Z * Path) :=
  match l with
  | [] => []
  | x :: l' => insert_desc x (sort_desc l')
  end.

(** [l[:limit]]: a negative limit counts from the end. *)
Definition slice_upto {A} (l : list A) (limit : Z) : list A :=
  if 0 <=? limit then firstn (Z.to_nat limit) l
  else firstn (List.length l - Z.to_nat (- limit)) l.

(** [list_recent_images(storage_root, limit, include_overlays)] *)
Definition list_recent_images (storage_root : Path) (limit : Z) (include_overlays : bool)
  : M (list Path) :=
  fun w =>
    if negb (exists_ w storage_root) then (Ret [], w)
    else
      let files := List.filter (is_file w) (rglob w storage_root) in
      let files :=
        if negb include_overlays then List.filter (fun p => negb (_is_overlay p)) files
        else files in
      (keyed <- sort_keys files ;;
       let sorted_files := List.map snd (sort_desc keyed) in
       ret (slice_upto sorted_files limit)) w.

End Storage.
Import Storage.

(** ** incoming.py *)

Module Incoming.

Record IncomingProcessor : Type := {
  incoming_root : Path;
  storage_root : Path;
  on_processed : option (datetime -> M unit)
}.

(** [IncomingProcessor.process_file(path)] *)
Definition process_file (self : IncomingProcessor) (path : Path) : M (option Path) :=
  fun w =>
    if negb (is_file w path) then (Ret None, w)
    else
      (st_mtime <- stat_mtime path ;;
       let timestamp := fromtimestamp st_mtime in
       let target := archive_path (storage_root self) timestamp (name path) in
       _ <- ensure_directories [parent target] ;;
       moved <- try_except_os
                  (target <- shutil_move path target ;; ret (Some target))
                  (ret None) ;;
       match moved with
       | None => ret None
       | Some target =>
           _ <- match on_processed self with
                | Some callback => try_except_pass (callback timestamp)
                | None => ret tt
                end ;;
           ret (Some target)
       end) w.

(** [IncomingProcessor._list_files(root)] *)
Definition _list_files (w : State) (root : Path) : list Path :=
  List.filter (is_file w) (iterdir w root).

Fixpoint process_each (self : IncomingProcessor) (candidates : list Path) (moved : list Path)
  : M (list Path) :=
  match candidates with
  | [] => ret moved
  | candidate :: rest =>
      moved_path <- process_file self candidate ;;
      process_each self rest
        (match moved_path with Some p => moved ++ [p] | None => moved end)
  end.

(** [IncomingProcessor.process_pending()] *)
Definition process_pending (self : IncomingProcessor) : M (list Path) :=
  fun w =>
    if negb (exists_ w (incoming_root self)) then (Ret [], w)
    else process_each self (_list_files w (incoming_root self)) [] w.

End Incoming.
Import Incoming.

(** ** lifecycle.py and main.py: ingestion recency *)

Module Main.

(** [_mark_processed(ts)] of [lifespan]: [app.state.last_image_at = ts] *)
Definition _mark_processed (ts : datetime) : M unit :=
  fun w => (Ret tt, set_last_image_at w (Some ts)).

(** The processor that [lifespan] builds. *)
Definition make_processor (incoming_root storage_root : Path) : IncomingProcessor :=
  {| incoming_root := incoming_root;
     storage_root := storage_root;
     on_processed := Some _mark_processed |}.

(** [lifespan] sets [app.state.last_image_at = None] at start-up. *)
Definition startup (w : State) : State := set_last_image_at w None.

(** Lines 111-114 of [dashboard]: the [delay_warning] of the response.
    A datetime is always truthy, so [and last_image_at] only tests for
    [None]. *)
Definition delay_warning (settings : Settings) (last_image_at : option datetime)
    (now : datetime) : bool :=
  match delay_monitor_enabled settings, last_image_at with
  | true, Some last =>
      let delta := total_seconds now last in
      negb (Qle_bool delta (inject_Z (delay_threshold_seconds settings)))
  | _, _ => false
  end.

Definition dashboard_delay_warning (settings : Settings) (w : State) : bool :=
  delay_warning settings (OS.last_image_at w) (clock w).

End Main.
Import Main.


(** ** Vocabulary of the statements *)

Module Spec.

(** A list of characters holds a path separator. *)
Definition has_sep (l : list ascii) : bool := existsb (Ascii.eqb "/") l.

(** [p] is a regular file whose modification time is strictly before
    [cutoff]. *)
Definition expired (w : State) (cutoff : datetime) (p : Path) : bool :=
  match fs w !! p with
  | Some (File t _) => fromtimestamp t <? cutoff
  | _ => false
  end.

(** The operating system fails one of the calls the sweep makes on [p]. *)
Definition os_refuses (w : State) (p : Path) : bool :=
  bool_decide (p ∈ stat_err w) || bool_decide (p ∈ unlink_err w).

(** What the retention sweep removes. *)
Definition swept (w : State) (cutoff : datetime) (p : Path) : bool :=
  expired w cutoff p && negb (os_refuses w p).

End Spec.
Import Spec.


Module IncomingSpec.

(** The callback of a processor, if any, leaves the file system alone
    (as [_mark_processed] does: it only records the timestamp). *)
Definition callback_keeps_fs (self : IncomingProcessor) : Prop :=
  forall callback, on_processed self = Some callback ->
  forall ts w, fs (snd (callback ts w)) = fs w.

(** The slot that [process_file] computes for a file of modification
    time [t]. *)
Definition slot (self : IncomingProcessor) (path : Path) (t : Z) : Path :=
  archive_path (storage_root self) (fromtimestamp t) (name path).

End IncomingSpec.
Import IncomingSpec.


(** ** Sample states *)

Module Samples.

Local Open Scope string_scope.

Definition drop_root : Path := ["ftp"; "incoming"].
Definition archive_root : Path := ["storage"; "archive"].
Definition processor : IncomingProcessor := make_processor drop_root archive_root.

Definition shot : Path := ["ftp"; "incoming"; "shot.jpg"].
(** 2023-11-14T22:13:20Z *)
Definition shot_time : Z := 1700000000000000.

Definition no_faults (m : gmap Path node) (now : datetime) : State :=
  {| fs := m; clock := now; stat_err := ∅; unlink_err := ∅; rename_err := ∅;
     mkdir_err := ∅; last_image_at := None |}.

Definition base_dirs : list (Path * node) :=
  [(["ftp"], Dir 0); (drop_root, Dir 0); (["storage"], Dir 0); (archive_root, Dir 0)].

(** A frame has just been dropped; the archive is empty. *)
Definition dropped : State :=
  no_faults (list_to_map ((shot, File shot_time "jpeg") :: base_dirs)) (shot_time + 100000000).

(** The same, but the operating system refuses to move the frame. *)
Definition dropped_locked : State :=
  {| fs := fs dropped; clock := clock dropped; stat_err := ∅; unlink_err := ∅;
     rename_err := {[ shot ]}; mkdir_err := ∅; last_image_at := None |}.

(** The same as [dropped], but a directory already sits where the frame
    is to be archived. *)
Definition slot_is_directory : State :=
  no_faults
    (list_to_map
       ((shot, File shot_time "jpeg")
        :: ((archive_root ++ ["2023"])%list, Dir 0)
        :: ((archive_root ++ ["2023"; "11"])%list, Dir 0)
        :: ((archive_root ++ ["2023"; "11"; "14"])%list, Dir 0)
        :: ((archive_root ++ ["2023"; "11"; "14"; "shot.jpg"])%list, Dir 0)
        :: base_dirs))
    (shot_time + 100000000).

(** An archive swept with a retention of 90 days: the cutoff is
    [shot_time - 90 days]. *)
Definition sweep_cutoff : Z := shot_time - timedelta_days 90.
Definition old_frame : Path := (archive_root ++ ["2020"; "09"; "13"; "old.jpg"])%list.
Definition edge_frame : Path := (archive_root ++ ["2023"; "08"; "16"; "edge.jpg"])%list.
Definition stuck_frame : Path := (archive_root ++ ["2020"; "09"; "13"; "stuck.jpg"])%list.

Definition aged : State :=
  {| fs := list_to_map
             ((old_frame, File 1600000000000000 "jpeg")
              :: (stuck_frame, File 1600000000000000 "jpeg")
              :: (edge_frame, File (sweep_cutoff + us_per_second) "jpeg")
              :: ((archive_root ++ ["2020"])%list, Dir 0)
              :: ((archive_root ++ ["2020"; "09"])%list, Dir 0)
              :: ((archive_root ++ ["2020"; "09"; "13"])%list, Dir 0)
              :: ((archive_root ++ ["2023"])%list, Dir 0)
              :: ((archive_root ++ ["2023"; "08"])%list, Dir 0)
              :: ((archive_root ++ ["2023"; "08"; "16"])%list, Dir 0)
              :: base_dirs);
     clock := shot_time; stat_err := ∅; unlink_err := {[ stuck_frame ]};
     rename_err := ∅; mkdir_err := ∅; last_image_at := None |}.

(** An archive with two raw frames, the newer of which has [_mask] inside
    its name, and one overlay. *)
Definition plain_frame : Path := (archive_root ++ ["2023"; "11"; "14"; "cam01.jpg"])%list.
Definition masked_view_frame : Path := (archive_root ++ ["2023"; "11"; "14"; "cam_mask_view.jpg"])%list.
Definition overlay_frame : Path := (archive_root ++ ["2023"; "11"; "14"; "cam01_mask.png"])%list.

Definition two_frames : State :=
  no_faults
    (list_to_map
       ((plain_frame, File shot_time "jpeg")
        :: (masked_view_frame, File (shot_time + 60000000) "jpeg")
        :: (overlay_frame, File (shot_time + 70000000) "png")
        :: ((archive_root ++ ["2023"])%list, Dir 0)
        :: ((archive_root ++ ["2023"; "11"])%list, Dir 0)
        :: ((archive_root ++ ["2023"; "11"; "14"])%list, Dir 0)
        :: base_dirs))
    (shot_time + 100000000).

(** A state with no storage root at all. *)
Definition bare : State := no_faults (list_to_map [(["ftp"], Dir 0); (drop_root, Dir 0)]) shot_time.

End Samples.


(** ** The life of the process *)

Module Trace.

(** The relocations that the two triggers request, one after the other,
    from the moment [lifespan] has set the state up; each outcome is
    recorded, and an exception ends only the call that raised it. *)
Fixpoint run_ingestions (self : IncomingProcessor) (paths : list Path) (w : State)
  : list (result (option Path)) * State :=
  match paths with
  | [] => ([], w)
  | path :: rest =>
      let '(r, w1) := process_file self path w in
      let '(rs, w2) := run_ingestions self rest w1 in
      (r :: rs, w2)
  end.

(** An outcome that archived a frame. *)
Definition archived (r : result (option Path)) : bool :=
  match r with Ret (Some _) => true | _ => false end.

End Trace.
Import Trace.


(** ** OpenCV: images and the operations the detector calls *)

Module Cv.

(** A single-channel 8-bit image ([numpy] array of shape [(rows, cols)])
    and a three-channel one. *)
Record Mat : Type := { rows : nat; cols : nat; px : nat -> nat -> Z }.
Record Mat3 : Type := { rows3 : nat; cols3 : nat; bgr : nat -> nat -> Z * Z * Z }.

Definition shape (m : Mat) : nat * nat := (rows m, cols m).
Definition shape3 (m : Mat3) : nat * nat := (rows3 m, cols3 m).

Inductive interpolation : Type := INTER_NEAREST | INTER_LINEAR.

(** [np.ones(shape, dtype=np.uint8) * 255] *)
Definition ones_255 (s : nat * nat) : Mat :=
  {| rows := fst s; cols := snd s; px := fun _ _ => 255 |}.

(** [cv2.threshold(src, thresh, maxval, cv2.THRESH_BINARY)[1]]:
    [maxval] where [src > thresh], 0 elsewhere. *)
Definition threshold_binary (src : Mat) (thresh maxval : Z) : Mat :=
  {| rows := rows src; cols := cols src;
     px := fun r c => if thresh <? px src r c then maxval else 0 |}.

(** [cv2.absdiff(a, b)] *)
Definition absdiff (a b : Mat) : Mat :=
  {| rows := rows a; cols := cols a; px := fun r c => Z.abs (px a r c - px b r c) |}.

(** [cv2.bitwise_and(a, b, mask=mask)] into a fresh array: the
    conjunction where the mask is not zero, 0 elsewhere. *)
Definition bitwise_and (a b mask : Mat) : Mat :=
  {| rows := rows a; cols := cols a;
     px := fun r c => if px mask r c =? 0 then 0 else Z.land (px a r c) (px b r c) |}.

(** The indices of [i - 1], [i], [i + 1] that lie in [0 .. n - 1]. *)
Definition near (n i : nat) : list nat :=
  List.filter (fun j => Nat.ltb j n)
    (match i with O => [O; 1%nat] | S k => [k; i; S i] end).

Definition window (m : Mat) (r c : nat) : list Z :=
  flat_map (fun r' => List.map (fun c' => px m r' c') (near (cols m) c)) (near (rows m) r).

(** Erosion and dilation by the 3x3 rectangle, anchored at its centre,
    with the default border: pixels outside the image do not take part. *)
Definition erode3 (m : Mat) : Mat :=
  {| rows := rows m; cols := cols m;
     px := fun r c => fold_right Z.min 255 (window m r c) |}.

Definition dilate3 (m : Mat) : Mat :=
  {| rows := rows m; cols := cols m;
     px := fun r c => fold_right Z.max 0 (window m r c) |}.

(** [cv2.morphologyEx(m, cv2.MORPH_OPEN, kernel)] and [MORPH_CLOSE], for
    the kernel [getStructuringElement(MORPH_RECT, (3, 3))]. *)
Definition morph_open (m : Mat) : Mat := dilate3 (erode3 m).
Definition morph_close (m : Mat) : Mat := erode3 (dilate3 m).

(** [cv2.countNonZero(m)] *)
Definition count_row (m : Mat) (r : nat) : nat :=
  List.length (List.filter (fun c => negb (px m r c =? 0)) (seq 0 (cols m))).

Definition countNonZero (m : Mat) : Z :=
  Z.of_nat (list_sum (List.map (count_row m) (seq 0 (rows m)))).

(** What the detector takes from the image library and the codecs:
    decoding a file's bytes (None when they are not an image), colour
    conversion, Gaussian smoothing with a square kernel of the given
    size, resizing to a [(width, height)], and the PNG bytes of the
    overlay that lines 133-137 of detection.py render from the latest
    frame, the change mask and the overlay settings. *)
Record Backend : Type := {
  decode_color : string -> option Mat3;
  decode_grayscale : string -> option Mat;
  cvtColor_BGR2GRAY : Mat3 -> Mat;
  GaussianBlur : Mat -> Z -> Mat;
  resize : Mat -> nat * nat -> interpolation -> Mat;
  resize3 : Mat3 -> nat * nat -> interpolation -> Mat3;
  overlay_png : Mat3 -> Mat -> Settings -> string
}.

Definition file_data (w : State) (p : Path) : option string :=
  match fs w !! p with
  | Some (File _ data) => Some data
  | _ => None
  end.

(** [cv2.imread(path)] and [cv2.imread(path, cv2.IMREAD_GRAYSCALE)]:
    None when the file is missing or cannot be decoded. *)
Definition imread (cv : Backend) (w : State) (p : Path) : option Mat3 :=
  match file_data w p with Some data => decode_color cv data | None => None end.

Definition imread_grayscale (cv : Backend) (w : State) (p : Path) : option Mat :=
  match file_data w p with Some data => decode_grayscale cv data | None => None end.

(** [cv2.imwrite(path, img)]: writes the file when its directory exists;
    its boolean result is not used by the detector. *)
Definition imwrite (p : Path) (data : string) : M unit :=
  fun w =>
    if is_dir w (parent p) && negb (is_dir w p)
    then (Ret tt, set_fs w (<[p := File (clock w) data]> (fs w)))
    else (Ret tt, w).

End Cv.
Import Cv.

(** ** detection.py: the analysis *)

Module Detection.

Record DetectionResult : Type := {
  detection_rate : Q;
  changed_pixels : Z;
  mask_pixels : Z;
  overlay_path : option Path;
  alarm : bool
}.

Section WithBackend.

Context (cv : Backend).

(** [_read_image(path)] *)
Definition _read_image (w : State) (path : Path) : option Mat3 :=
  match imread cv w path with
  | None => None
  | Some img => Some img
  end.

(** [_load_mask_image(mask_path, target_shape, inclusive)] *)
Definition _load_mask_image (w : State) (mask_path : Path) (target_shape : nat * nat)
    (inclusive : bool) : Mat :=
  if negb inclusive then ones_255 target_shape
  else if negb (exists_ w mask_path) then ones_255 target_shape
  else
    match imread_grayscale cv w mask_path with
    | None => ones_255 target_shape
    | Some mask =>
        let mask :=
          if negb (bool_decide (shape mask = target_shape))
          then resize cv mask (snd target_shape, fst target_shape) INTER_NEAREST
          else mask in
        let mask_bin := threshold_binary mask 1 255 in
        mask_bin
    end.

(** [_resize_if_needed(img, target_shape)] *)
Definition _resize_if_needed (img : Mat3) (target_shape : nat * nat) : Mat3 :=
  if bool_decide (shape3 img = target_shape) then img
  else resize3 cv img (snd target_shape, fst target_shape) INTER_LINEAR.

(** [analyze_detection(latest_path, previous_path, settings, mask_path)] *)
Definition analyze_detection (latest_path previous_path : Path) (settings : Settings)
    (mask_path : Path) : M (option DetectionResult) :=
  fun w =>
    match _read_image w latest_path, _read_image w previous_path with
    | Some img_latest, Some img_prev =>
        let img_prev := _resize_if_needed img_prev (shape3 img_latest) in
        let gray_latest := cvtColor_BGR2GRAY cv img_latest in
        let gray_prev := cvtColor_BGR2GRAY cv img_prev in
        let ksize := _ensure_odd (blur_kernel settings) in
        let gray_latest := GaussianBlur cv gray_latest ksize in
        let gray_prev := GaussianBlur cv gray_prev ksize in
        let diff := absdiff gray_latest gray_prev in
        let mask := _load_mask_image w mask_path (shape diff) (mask_inclusive settings) in
        let diff := bitwise_and diff diff mask in
        let binary := threshold_binary diff (binary_threshold settings) 255 in
        let binary := morph_open binary in
        let binary := morph_close binary in
        let changed := countNonZero binary in
        let mask_pixels := countNonZero mask in
        match (if 0 <? mask_pixels then truediv changed mask_pixels else Ret 0%Q) with
        | Raise e => (Raise e, w)
        | Ret detection_rate =>
            match _overlay_path latest_path with
            | Raise e => (Raise e, w)
            | Ret overlay_path =>
                (_ <- imwrite overlay_path (overlay_png cv img_latest binary settings) ;;
                 let alarm := Qle_bool (threshold settings) detection_rate in
                 ret (Some {| detection_rate := detection_rate;
                              changed_pixels := changed;
                              mask_pixels := mask_pixels;
                              overlay_path := Some overlay_path;
                              alarm := alarm |})) w
            end
        end
    | _, _ => (Ret None, w)
    end.

End WithBackend.

End Detection.
Import Detection.


(** ** Sample frames *)

Module DetectionSamples.

Local Open Scope string_scope.

Definition uniform3 (n : nat) (v : Z) : Mat3 :=
  {| rows3 := n; cols3 := n; bgr := fun _ _ => (v, v, v) |}.

(** A 5x5 mask, white except for its centre pixel. *)
Definition ring : Mat :=
  {| rows := 5; cols := 5;
     px := fun r c => if (Nat.eqb r 2 && Nat.eqb c 2)%bool then 0 else 255 |}.

(** A 5x5 mask, white except for its top-left pixel, of value 1. *)
Definition dim_corner : Mat :=
  {| rows := 5; cols := 5;
     px := fun r c => if (Nat.eqb r 0 && Nat.eqb c 0)%bool then 1 else 255 |}.

(** A backend for frames of one uniform colour.  The luminance is the
    8-bit fixed-point formula 0.299 R + 0.587 G + 0.114 B; smoothing is
    the identity, as any normalised kernel leaves a uniform image
    unchanged; resizing picks the source pixel at the scaled index. *)
Definition scale (i n_dst n_src : nat) : nat := (i * n_src / n_dst)%nat.

Definition backend : Backend := {|
  decode_color := fun data =>
    if String.eqb data "white5x5" then Some (uniform3 5 255)
    else if String.eqb data "black5x5" then Some (uniform3 5 0)
    else None;
  decode_grayscale := fun data =>
    if String.eqb data "ring5x5" then Some ring
    else if String.eqb data "dim5x5" then Some dim_corner
    else None;
  cvtColor_BGR2GRAY := fun img =>
    {| rows := rows3 img; cols := cols3 img;
       px := fun r c =>
         let '(b, g, r) := bgr img r c in
         Z.shiftr (b * 1868 + g * 9617 + r * 4899 + 8192) 14 |};
  GaussianBlur := fun m _ => m;
  resize := fun m dsize _ =>
    {| rows := snd dsize; cols := fst dsize;
       px := fun r c => px m (scale r (snd dsize) (rows m)) (scale c (fst dsize) (cols m)) |};
  resize3 := fun m dsize _ =>
    {| rows3 := snd dsize; cols3 := fst dsize;
       bgr := fun r c => bgr m (scale r (snd dsize) (rows3 m)) (scale c (fst dsize) (cols3 m)) |};
  overlay_png := fun _ _ _ => "png"
|}.

Definition day_dir : Path := ["storage"; "archive"; "2023"; "11"; "14"].
Definition latest : Path := (day_dir ++ ["cam_0002.jpg"])%list.
Definition previous : Path := (day_dir ++ ["cam_0001.jpg"])%list.
Definition mask_file : Path := ["config"; "mask.png"].
Definition absent_mask_file : Path := ["config"; "absent.png"].

Definition scene (mask_data : string) : State :=
  Samples.no_faults
    (list_to_map
       [(["storage"], Dir 0); (["storage"; "archive"], Dir 0);
        (["storage"; "archive"; "2023"], Dir 0);
        (["storage"; "archive"; "2023"; "11"], Dir 0);
        (day_dir, Dir 0);
        (["config"], Dir 0);
        (mask_file, File 0 mask_data);
        (previous, File 1700000000000000 "black5x5");
        (latest, File 1700000060000000 "white5x5")])
    1700000100000000.

(** Every pixel changed; the mask leaves the centre pixel out. *)
Definition with_ring_mask : State := scene "ring5x5".

(** The mask artifact has a pixel of value 1. *)
Definition with_dim_mask : State := scene "dim5x5".

End DetectionSamples.


Module StorageSpec.

(** The modification time that [stat] reports for an entry. *)
Definition mtime_of (w : State) (p : Path) : Z :=
  match fs w !! p with
  | Some (File t _) => t
  | Some (Dir t) => t
  | None => 0
  end.

(** The files that [list_recent_images] keeps when overlays are left
    out: regular files below the root whose name does not contain
    [_mask]. *)
Definition kept (w : State) (root p : Path) : bool :=
  is_below root p && is_file w p && negb (contains "_mask" (name p)).

(** A list of paths ordered by modification time, newest first. *)
Definition newest_first (w : State) (l : list Path) : Prop :=
  StronglySorted (fun p q => mtime_of w q <= mtime_of w p) l.

(** Keyed entries in the order of [sorted(..., reverse=True)]. *)
Definition key_ge (x y : Z * Path) : Prop := fst y <= fst x.

(** The name that [_overlay_path] gives to overlays. *)
Definition overlay_named (p : Path) : bool := endswith (name p) "_mask.png".

End StorageSpec.
Import StorageSpec.


(** ** More vocabulary: candidates of a listing *)

Module Listing.

(** The files that [list_recent_images] sorts: regular files below the
    root and, unless overlays are included, without [_mask] in the name. *)
Definition listed (w : State) (root : Path) (include_overlays : bool) (p : Path) : bool :=
  is_below root p && is_file w p && (include_overlays || negb (_is_overlay p)).

(** The length of [l[:limit]] for a list of length [n]. *)
Definition slice_length (n : nat) (limit : Z) : nat :=
  if 0 <=? limit then Nat.min (Z.to_nat limit) n else (n - Z.to_nat (- limit))%nat.

End Listing.
Import Listing.

(** ** More sample states *)

Module MoreSamples.

(** The archive of [Samples.two_frames], where the modification time of
    the plain frame cannot be read. *)
Definition two_frames_unreadable : State :=
  {| fs := fs Samples.two_frames; clock := clock Samples.two_frames;
     stat_err := {[ Samples.plain_frame ]}; unlink_err := ∅; rename_err := ∅;
     mkdir_err := ∅; last_image_at := None |}.

(** A frame has been dropped while a frame of the same name, archived
    earlier the same day, is in the archive. *)
Definition slot_taken : State :=
  Samples.no_faults
    (list_to_map
       ((Samples.shot, File Samples.shot_time "jpeg"%string)
        :: (Samples.archive_root ++ ["2023"%string], Dir 0)
        :: (Samples.archive_root ++ ["2023"; "11"]%string, Dir 0)
        :: (Samples.archive_root ++ ["2023"; "11"; "14"]%string, Dir 0)
        :: (Samples.archive_root ++ ["2023"; "11"; "14"; "shot.jpg"]%string,
            File (Samples.shot_time - 3600 * us_per_second) "earlier"%string)
        :: Samples.base_dirs))
    (Samples.shot_time + 100000000).

(** A frame reaches the drop directory 1000 seconds after it was taken. *)
Definition late_drop : State :=
  Samples.no_faults (fs Samples.dropped) (Samples.shot_time + 1000 * us_per_second).

End MoreSamples.

(** ** detection.py: the stages of the analysis, by name *)

Module Pipeline.

Section WithBackend.

Context (cv : Backend).

(** Lines 111-116 of [analyze_detection] for one frame: luminance, then
    Gaussian smoothing with the odd kernel. *)
Definition smoothed (settings : Settings) (img : Mat3) : Mat :=
  GaussianBlur cv (cvtColor_BGR2GRAY cv img) (_ensure_odd (blur_kernel settings)).

(** Line 118: the difference of the two smoothed frames, the previous one
    resized to the latest if needed (line 109). *)
Definition frame_diff (settings : Settings) (img_latest img_prev : Mat3) : Mat :=
  absdiff (smoothed settings img_latest)
          (smoothed settings (_resize_if_needed cv img_prev (shape3 img_latest))).

End WithBackend.

(** Lines 121-126: masking, thresholding, opening and closing. *)
Definition change_mask (settings : Settings) (diff mask : Mat) : Mat :=
  morph_close
    (morph_open (threshold_binary (bitwise_and diff diff mask) (binary_threshold settings) 255)).

(** An image that is 0 at every pixel of its frame. *)
Definition blank (m : Mat) : Prop :=
  forall r c, (r < rows m)%nat -> (c < cols m)%nat -> px m r c = 0.

End Pipeline.
Import Pipeline.

(** ** detection.py: the overlay colour *)

Module Colors.

Definition code (c : ascii) : Z := Z.of_nat (nat_of_ascii c).

(** The value of a hexadecimal digit, in either case. *)
Definition hex_digit (c : ascii) : option Z :=
  let n := code c in
  if (48 <=? n) && (n <=? 57) then Some (n - 48)
  else if (97 <=? n) && (n <=? 102) then Some (n - 87)
  else if (65 <=? n) && (n <=? 70) then Some (n - 55)
  else None.

(** The characters that [int] strips from both ends of a two-character
    string: tab to carriage return, the space, and the two Latin-1
    spaces. *)
Definition is_space (c : ascii) : bool :=
  let n := code c in
  ((9 <=? n) && (n <=? 13)) || (n =? 32) || (n =? 133) || (n =? 160).

Definition sign (c : ascii) : option Z :=
  if Ascii.eqb c "+" then Some 1 else if Ascii.eqb c "-" then Some (-1) else None.

(** [int(s, 16)] for a string [s] of the two characters [a] and [b], None
    standing for ValueError: surrounding space is dropped, one sign is
    accepted, and what is left must be one or two digits (a [0x] prefix
    without digits and an underscore are rejected). *)
Definition int16_pair (a b : ascii) : option Z :=
  if is_space a then (if is_space b then None else hex_digit b)
  else if is_space b then hex_digit a
  else match sign a with
       | Some s => option_map (Z.mul s) (hex_digit b)
       | None =>
           match hex_digit a, hex_digit b with
           | Some x, Some y => Some (16 * x + y)
           | _, _ => None
           end
       end.

(** [s.startswith(prefix)] *)
Definition startswith (s prefix : string) : bool := starts_with (chars prefix) (chars s).

(** [_parse_overlay_color(color_str, fallback)] *)
Definition _parse_overlay_color (color_str : string) (fallback : Z * Z * Z) : Z * Z * Z :=
  if (len color_str =? 7) && startswith color_str "#" then
    match chars color_str with
    | [_; r1; r2; g1; g2; b1; b2] =>
        match int16_pair r1 r2 with
        | None => fallback
        | Some r =>
            match int16_pair g1 g2 with
            | None => fallback
            | Some g =>
                match int16_pair b1 b2 with
                | None => fallback
                | Some b => (r, g, b)
                end
            end
        end
    | _ => fallback
    end
  else fallback.

(** The default of the [fallback] parameter. *)
Definition default_color : Z * Z * Z := (255, 105, 180).

(** A channel value that fits a byte. *)
Definition is_byte (v : Z) : Prop := 0 <= v <= 255.

End Colors.
Import Colors.

(** ** config.py: the settings file *)

Module ConfigFile.

(** JSON and the pydantic model: [json.loads] (None for JSONDecodeError),
    [Settings.model_validate] (None for ValidationError) and
    [model_dump_json]. *)
Record Codec : Type := {
  raw : Type;
  json_loads : string -> option raw;
  model_validate : raw -> option Settings;
  model_dump_json : Settings -> string
}.

(** [Path.read_text()]: a missing file is FileNotFoundError and a
    directory IsADirectoryError, both of the OSError family. *)
Definition read_text (p : Path) : M string :=
  fun w =>
    match fs w !! p with
    | Some (File _ data) => (Ret data, w)
    | Some (Dir _) => (Raise OSError, w)
    | None => (Raise OSError, w)
    end.

(** [Path.write_text(data)] and [Path.write_bytes(data)]: the file is
    created or replaced when its directory exists and the path is not a
    directory. *)
Definition write_text (p : Path) (data : string) : M unit :=
  fun w =>
    if is_dir w p then (Raise OSError, w)
    else if is_dir w (parent p)
         then (Ret tt, set_fs w (<[p := File (clock w) data]> (fs w)))
         else (Raise OSError, w).

Section WithCodec.

Context (codec : Codec).

(** [load_settings(path)]: FileNotFoundError is raised again as
    FileNotFoundError, a decoding or validation error as ValueError. *)
Definition load_settings (path : Path) : M Settings :=
  text <- read_text path ;;
  match json_loads codec text with
  | None => fun w => (Raise ValueError, w)
  | Some raw =>
      match model_validate codec raw with
      | Some settings => ret settings
      | None => fun w => (Raise ValueError, w)
      end
  end.

(** [save_settings(path, settings)], of api.py *)
Definition save_settings (path : Path) (settings : Settings) : M unit :=
  write_text path (model_dump_json codec settings).

End WithCodec.

End ConfigFile.
Import ConfigFile.

(** ** alert.py *)

Module Alert.

Inductive level : Type := LOW | HIGH.

(** The calls that leave the program: [GPIO.output(pin, value)],
    [client.files_upload_v2(...)] with the token of the client,
    [requests.post(url, json={"text": text}, timeout=5)] and
    [logger.error]. *)
Inductive action : Type :=
| GpioOutput (pin : Z) (value : level)
| FilesUpload (token channel initial_comment : string) (file : Path)
| WebhookPost (url text : string)
| LogError (message : string).

Global Instance level_eq_dec : EqDecision level.
Proof. solve_decision. Defined.

Inductive upload_outcome : Type :=
| Uploaded
| SlackApiError
| UploadRaises (e : exn).

Inductive post_outcome : Type :=
| Posted
| PostRaises.

(** The world around the process: whether [RPi.GPIO] could be imported
    ([GPIO is not None]), how Slack answers an upload and a webhook
    request, and the [.3f] rendering of a number. *)
Record World : Type := {
  GPIO : bool;
  files_upload_v2 : string -> string -> string -> Path -> upload_outcome;
  requests_post : string -> string -> post_outcome;
  format_3f : Q -> string
}.

(** The truth value of a [str] and of an [Optional[int]]. *)
Definition truthy (s : string) : bool :=
  match s with EmptyString => false | String _ _ => true end.

Definition pin_truthy (pin : option Z) : bool :=
  match pin with Some n => negb (n =? 0) | None => false end.

Section WithWorld.

Context (world : World).

(** Lines 44-50 of [send_slack_alert]: the webhook, whose failure is only
    logged. *)
Definition post_webhook (webhook_url message : string) : list action :=
  if truthy webhook_url then
    match requests_post world webhook_url message with
    | Posted => [WebhookPost webhook_url message]
    | PostRaises => [WebhookPost webhook_url message; LogError "Slack webhook failed"]
    end
  else [].

(** [send_slack_alert(bot_token, webhook_url, channel, message,
    image_path)]: what it returns or raises, and the calls it makes.  A
    path is always true. *)
Definition send_slack_alert (bot_token webhook_url : string) (channel : option string)
    (message : string) (image_path : option Path) : result unit * list action :=
  match image_path, truthy bot_token, channel with
  | Some image, true, Some ch =>
      if truthy ch then
        match files_upload_v2 world bot_token ch message image with
        | Uploaded => (Ret tt, [FilesUpload bot_token ch message image])
        | SlackApiError =>
            (Ret tt,
             FilesUpload bot_token ch message image
               :: LogError "Slack file upload failed"
               :: post_webhook webhook_url message)
        | UploadRaises e => (Raise e, [FilesUpload bot_token ch message image])
        end
      else (Ret tt, post_webhook webhook_url message)
  | _, _, _ => (Ret tt, post_webhook webhook_url message)
  end.

(** [gpio_high(pin)] and [gpio_low(pin)] *)
Definition gpio_high (pin : Z) : list action :=
  if negb (GPIO world) then [] else [GpioOutput pin HIGH].

Definition gpio_low (pin : Z) : list action :=
  if negb (GPIO world) then [] else [GpioOutput pin LOW].

End WithWorld.

(** An action that delivers the alert to Slack. *)
Definition is_delivery (a : action) : bool :=
  match a with FilesUpload _ _ _ _ | WebhookPost _ _ => true | _ => false end.

Definition is_gpio (a : action) : bool :=
  match a with GpioOutput _ _ => true | _ => false end.

End Alert.
Import Alert.

(** ** main.py: the dashboard *)

Module MainApp.

Record DashboardResponse : Type := {
  latest_image : option Path;
  previous_image : option Path;
  mask_overlay : option Path;
  detection_rate : Q;
  threshold : Q;
  alarm_state : string;
  delay_warning : bool;
  logs : list string;
  latest_timestamp : option datetime;
  previous_timestamp : option datetime
}.

(** [datetime.fromtimestamp(p.stat().st_mtime, tz=timezone.utc)] under
    [except OSError], for an optional path: the time that the response
    renders with [isoformat], or None. *)
Definition timestamp_of (p : option Path) : M (option datetime) :=
  match p with
  | None => ret None
  | Some p =>
      try_except_oserror (st_mtime <- stat_mtime p ;; ret (Some (fromtimestamp st_mtime)))
        (ret None)
  end.

Section WithBackend.

Context (cv : Backend) (world : World) (codec : Codec).

(** The message of line 107. *)
Definition alarm_message (detection_rate threshold : Q) : string :=
  ("[ALARM] detection_rate=" ++ format_3f world detection_rate
     ++ " threshold=" ++ format_3f world threshold)%string.

(** Lines 100-109: the calls made for a result. *)
Definition notify (settings : Settings) (result : DetectionResult)
  : Py.result unit * list action :=
  let raised := alarm_enabled settings && alarm result in
  let driven :=
    if raised && pin_truthy (gpio_pin settings) then
      match gpio_pin settings with Some pin => gpio_high world pin | None => [] end
    else [] in
  if raised then
    let sent :=
      send_slack_alert world (slack_bot_token settings) (slack_webhook_url settings)
        (if truthy (slack_channel settings) then Some (slack_channel settings) else None)
        (alarm_message (Detection.detection_rate result) (Config.threshold settings))
        (overlay_path result) in
    (fst sent, (driven ++ snd sent)%list)
  else (Ret tt, driven).

(** [dashboard()], once the settings are loaded: the response or the
    exception, the calls made, and the state reached. *)
Definition dashboard_with (settings : Settings) (storage_root mask_path : Path)
  : State -> Py.result DashboardResponse * list action * State :=
  fun w =>
    let last_image_at := OS.last_image_at w in
    match list_recent_images storage_root 2 false w with
    | (Raise e, w) => (Raise e, [], w)
    | (Ret recent, w) =>
        let latest := nth_error recent 0 in
        let previous := nth_error recent 1 in
        match timestamp_of latest w with
        | (Raise e, w) => (Raise e, [], w)
        | (Ret latest_ts, w) =>
            match timestamp_of previous w with
            | (Raise e, w) => (Raise e, [], w)
            | (Ret prev_ts, w) =>
                let respond (detection_rate : Q) (overlay_path : option Path)
                    (alarm_state : string) (w : State) :=
                  {| latest_image := latest;
                     previous_image := previous;
                     mask_overlay := overlay_path;
                     detection_rate := detection_rate;
                     threshold := Config.threshold settings;
                     alarm_state := alarm_state;
                     delay_warning := Main.delay_warning settings last_image_at (clock w);
                     logs := [];
                     latest_timestamp := latest_ts;
                     previous_timestamp := prev_ts |} in
                match latest, previous with
                | Some latest_path, Some previous_path =>
                    match analyze_detection cv latest_path previous_path settings mask_path w with
                    | (Raise e, w) => (Raise e, [], w)
                    | (Ret None, w) => (Ret (respond 0%Q None "Normal" w), [], w)
                    | (Ret (Some result), w) =>
                        let alarm_state :=
                          if alarm_enabled settings && alarm result then "Alarm" else "Normal" in
                        match notify settings result with
                        | (Raise e, calls) => (Raise e, calls, w)
                        | (Ret _, calls) =>
                            (Ret (respond (Detection.detection_rate result)
                                    (overlay_path result) alarm_state w),
                             calls, w)
                        end
                    end
                | _, _ => (Ret (respond 0%Q None "Normal" w), [], w)
                end
            end
        end
    end.

(** [dashboard()] *)
Definition dashboard (settings_path storage_root mask_path : Path)
  : State -> Py.result DashboardResponse * list action * State :=
  fun w =>
    match load_settings codec settings_path w with
    | (Raise e, w) => (Raise e, [], w)
    | (Ret settings, w) => dashboard_with settings storage_root mask_path w
    end.

End WithBackend.

End MainApp.

(** ** api.py *)

Module Api.

Record ConfigRequest : Type := {
  threshold : option Q;
  consecutive_hits : option Z;
  binary_threshold : option Z;
  blur_kernel : option Z;
  overlay_color : option string;
  overlay_alpha : option Q;
  delay_monitor_enabled : option bool;
  delay_threshold_seconds : option Z;
  alarm_enabled : option bool;
  slack_webhook_url : option string;
  slack_bot_token : option string;
  slack_channel : option string;
  mask_inclusive : option bool;
  gpio_pin : option Z
}.

Record ControlRequest : Type := {
  control_alarm_enabled : option bool;
  reset_alarm : bool;
  control_delay_monitor_enabled : option bool
}.

(** The field constraints of [ConfigRequest], which the framework checks
    before [update_config] runs. *)
Definition in_range {A} (P : A -> Prop) (v : option A) : Prop :=
  match v with Some a => P a | None => True end.

Definition accepted (payload : ConfigRequest) : Prop :=
  in_range (fun v => (0 <= v)%Q) (threshold payload) /\
  in_range (fun v => 1 <= v) (consecutive_hits payload) /\
  in_range (fun v => 0 <= v <= 255) (binary_threshold payload) /\
  in_range (fun v => 1 <= v) (blur_kernel payload) /\
  in_range (fun v => (0 <= v <= 1)%Q) (overlay_alpha payload) /\
  in_range (fun v => 1 <= v) (delay_threshold_seconds payload).

(** [settings.model_copy(update=payload.model_dump(exclude_none=True))]:
    a field that the payload leaves at None keeps its value. *)
Definition given {A} (new : option A) (old : A) : A :=
  match new with Some a => a | None => old end.

Definition model_copy (settings : Settings) (payload : ConfigRequest) : Settings :=
  {| Config.threshold := given (threshold payload) (Config.threshold settings);
     Config.consecutive_hits := given (consecutive_hits payload) (Config.consecutive_hits settings);
     Config.binary_threshold := given (binary_threshold payload) (Config.binary_threshold settings);
     Config.blur_kernel := given (blur_kernel payload) (Config.blur_kernel settings);
     Config.overlay_color := given (overlay_color payload) (Config.overlay_color settings);
     Config.overlay_alpha := given (overlay_alpha payload) (Config.overlay_alpha settings);
     Config.delay_monitor_enabled :=
       given (delay_monitor_enabled payload) (Config.delay_monitor_enabled settings);
     Config.delay_threshold_seconds :=
       given (delay_threshold_seconds payload) (Config.delay_threshold_seconds settings);
     Config.alarm_enabled := given (alarm_enabled payload) (Config.alarm_enabled settings);
     Config.slack_webhook_url :=
       given (slack_webhook_url payload) (Config.slack_webhook_url settings);
     Config.slack_bot_token := given (slack_bot_token payload) (Config.slack_bot_token settings);
     Config.slack_channel := given (slack_channel payload) (Config.slack_channel settings);
     Config.mask_inclusive := given (mask_inclusive payload) (Config.mask_inclusive settings);
     Config.gpio_pin :=
       match gpio_pin payload with
       | Some pin => Some pin
       | None => Config.gpio_pin settings
       end |}.

(** The update that [control] builds: [reset_alarm] is popped, the two
    switches are left. *)
Definition control_update (payload : ControlRequest) : ConfigRequest :=
  {| threshold := None; consecutive_hits := None; binary_threshold := None;
     blur_kernel := None; overlay_color := None; overlay_alpha := None;
     delay_monitor_enabled := control_delay_monitor_enabled payload;
     delay_threshold_seconds := None;
     alarm_enabled := control_alarm_enabled payload;
     slack_webhook_url := None; slack_bot_token := None; slack_channel := None;
     mask_inclusive := None; gpio_pin := None |}.

(** What an endpoint gives back: its value, an HTTPException with its
    status code, or an exception it does not handle. *)
Inductive response (A : Type) : Type :=
| Ok (a : A)
| HTTPException (status_code : Z)
| Unhandled (e : exn).
Arguments Ok {A} a.
Arguments HTTPException {A} status_code.
Arguments Unhandled {A} e.

Record HistoryItem : Type := {
  path : Path;
  mtime : option datetime;
  is_overlay : bool
}.

Section WithWorld.

Context (world : World) (codec : Codec).

(** [update_config(payload, request)]; the new settings, which it returns,
    are also stored in [app.state.settings]. *)
Definition update_config (settings_path : Path) (payload : ConfigRequest) : M Settings :=
  settings <- load_settings codec settings_path ;;
  let new_settings := model_copy settings payload in
  _ <- save_settings codec settings_path new_settings ;;
  ret new_settings.

(** [get_config()] *)
Definition get_config (settings_path : Path) : M Settings :=
  load_settings codec settings_path.

(** [control(payload, request)], with the calls it makes. *)
Definition control (settings_path : Path) (payload : ControlRequest)
  : State -> result Settings * list action * State :=
  fun w =>
    match load_settings codec settings_path w with
    | (Raise e, w) => (Raise e, [], w)
    | (Ret settings, w) =>
        let new_settings := model_copy settings (control_update payload) in
        match save_settings codec settings_path new_settings w with
        | (Raise e, w) => (Raise e, [], w)
        | (Ret _, w) =>
            let calls :=
              if reset_alarm payload && pin_truthy (Config.gpio_pin settings) then
                match Config.gpio_pin settings with
                | Some pin => gpio_low world pin
                | None => []
                end
              else [] in
            (Ret new_settings, calls, w)
        end
    end.

End WithWorld.

(** The loop of [history] over the files that are left, [items] being
    the entries gathered so far. *)
Fixpoint history_loop (limit : Z) (exclude_overlay : bool) (files : list Path)
    (items : list HistoryItem) : M (list HistoryItem) :=
  match files with
  | [] => ret items
  | p :: rest =>
      let name := name p in
      let is_overlay := contains "mask" name && endswith name ".png" in
      if exclude_overlay && is_overlay then history_loop limit exclude_overlay rest items
      else
        mtime <- MainApp.timestamp_of (Some p) ;;
        let items := (items ++ [{| path := p; mtime := mtime; is_overlay := is_overlay |}])%list in
        if limit <=? Z.of_nat (List.length items) then ret items
        else history_loop limit exclude_overlay rest items
  end.

(** [history(limit, exclude_overlay, request)]: the [images] of the
    response. *)
Definition history (storage_root : Path) (limit : Z) (exclude_overlay : bool)
  : M (list HistoryItem) :=
  files <- list_recent_images storage_root (limit * 3) (negb exclude_overlay) ;;
  let items := [] in
  history_loop limit exclude_overlay files items.

(** [get_mask_image()]: the path that the file response serves. *)
Definition get_mask_image (mask_path : Path) : State -> response Path :=
  fun w => if negb (exists_ w mask_path) then HTTPException 404 else Ok mask_path.

(** [upload_mask_image(file)], for the content read from the upload. *)
Definition upload_mask_image (mask_path : Path) (content : string)
  : State -> response unit * State :=
  fun w =>
    match write_text mask_path content w with
    | (Ret _, w) => (Ok tt, w)
    | (Raise _, w) => (HTTPException 500, w)
    end.

(** [reset_mask_image()] *)
Definition reset_mask_image (mask_path : Path) : State -> response unit * State :=
  fun w =>
    match unlink_missing_ok mask_path w with
    | (Ret _, w) => (Ok tt, w)
    | (Raise _, w) => (HTTPException 500, w)
    end.

End Api.

(** ** lifecycle.py: the nightly job *)

Module Lifecycle.

(** The job that [start_scheduler] registers, run every day at 03:00
    UTC. *)
Definition retention_days : Z := 90.

Definition cleanup_job (storage_root : Path) : M (list Path) :=
  cleanup_older_than storage_root retention_days.

(** The state [w] when the clock has moved to [now]. *)
Definition at_time (w : State) (now : datetime) : State :=
  {| fs := fs w; clock := now; stat_err := stat_err w; unlink_err := unlink_err w;
     rename_err := rename_err w; mkdir_err := mkdir_err w;
     last_image_at := last_image_at w |}.

End Lifecycle.

(** ** What the analysis expects of the image library *)

Module PipelineSpec.

(** Colour conversion and smoothing keep the shape of an image, and
    [cv2.resize] returns an image of the size it is asked for, given as
    [(width, height)]. *)
Definition well_shaped (cv : Backend) : Prop :=
  (forall img, shape (cvtColor_BGR2GRAY cv img) = shape3 img) /\
  (forall m ksize, shape (GaussianBlur cv m ksize) = shape m) /\
  (forall m dsize i, shape (resize cv m dsize i) = (snd dsize, fst dsize)) /\
  (forall m dsize i, shape3 (resize3 cv m dsize i) = (snd dsize, fst dsize)).

End PipelineSpec.
Import PipelineSpec.

(** ** Vocabulary of the statements about the endpoints *)

Module ApiSpec.

(** The entry that [history] makes for a file whose modification time
    can be read. *)
Definition history_item (w : State) (p : Path) : Api.HistoryItem :=
  {| Api.path := p;
     Api.mtime := Some (fromtimestamp (mtime_of w p));
     Api.is_overlay := contains "mask" (name p) && endswith (name p) ".png" |}.

End ApiSpec.
Import ApiSpec.

(** ** Sample surroundings *)

Module AppSamples.

Local Open Scope string_scope.

(** A Raspberry Pi and a Slack that accepts every request.  Numbers are
    rendered for the rates of the samples, which are below 10. *)
Definition world : World := {|
  GPIO := true;
  files_upload_v2 := fun _ _ _ _ => Uploaded;
  requests_post := fun _ _ => Posted;
  format_3f := fun q =>
    let n := (2000 * Qnum q + Z.pos (Qden q)) / (2 * Z.pos (Qden q)) in
    str [digit (n / 1000); "."%char; digit (n / 100); digit (n / 10); digit n]
|}.

(** A codec for settings files that only set [alarm_enabled]: the text is
    the JSON boolean, and the other fields take their defaults. *)
Definition with_alarm_enabled (b : bool) : Settings :=
  {| Config.threshold := Config.threshold default_settings;
     Config.consecutive_hits := Config.consecutive_hits default_settings;
     Config.binary_threshold := Config.binary_threshold default_settings;
     Config.blur_kernel := Config.blur_kernel default_settings;
     Config.overlay_color := Config.overlay_color default_settings;
     Config.overlay_alpha := Config.overlay_alpha default_settings;
     Config.delay_monitor_enabled := Config.delay_monitor_enabled default_settings;
     Config.delay_threshold_seconds := Config.delay_threshold_seconds default_settings;
     Config.alarm_enabled := b;
     Config.slack_webhook_url := Config.slack_webhook_url default_settings;
     Config.slack_bot_token := Config.slack_bot_token default_settings;
     Config.slack_channel := Config.slack_channel default_settings;
     Config.mask_inclusive := Config.mask_inclusive default_settings;
     Config.gpio_pin := Config.gpio_pin default_settings |}.

Definition codec : Codec := {|
  raw := bool;
  json_loads := fun text =>
    if String.eqb text "true" then Some true
    else if String.eqb text "false" then Some false
    else None;
  model_validate := fun b => Some (with_alarm_enabled b);
  model_dump_json := fun settings => if Config.alarm_enabled settings then "true" else "false"
|}.

Definition settings_file : Path := ["config"; "settings.json"].

(** The scene of [DetectionSamples.with_ring_mask], with a settings file
    that enables the alarm. *)
Definition configured : State :=
  Samples.no_faults
    (<[settings_file := File 0 "true"]> (fs DetectionSamples.with_ring_mask))
    (clock DetectionSamples.with_ring_mask).

(** A request that switches the alarm off, and one that only resets it. *)
Definition alarm_off : Api.ConfigRequest :=
  {| Api.threshold := None; Api.consecutive_hits := None; Api.binary_threshold := None;
     Api.blur_kernel := None; Api.overlay_color := None; Api.overlay_alpha := None;
     Api.delay_monitor_enabled := None; Api.delay_threshold_seconds := None;
     Api.alarm_enabled := Some false;
     Api.slack_webhook_url := None; Api.slack_bot_token := None; Api.slack_channel := None;
     Api.mask_inclusive := None; Api.gpio_pin := None |}.

Definition reset_only : Api.ControlRequest :=
  {| Api.control_alarm_enabled := None; Api.reset_alarm := true;
     Api.control_delay_monitor_enabled := None |}.

End AppSamples.


(* ===================================================================== *)
(** * Part II: properties                                                 *)
(* ===================================================================== *)

(** ** Strings *)

Lemma chars_str (l : list ascii) : chars (str l) = l.
Proof. apply list_ascii_of_string_of_list_ascii. Qed.

Lemma str_chars (s : string) : str (chars s) = s.
Proof. apply string_of_list_ascii_of_string. Qed.

Lemma chars_app (a b : string) : chars (a ++ b) = (chars a ++ chars b)%list.
Proof.
  induction a as [|c a IH]; simpl; [reflexivity|].
  unfold chars in *. simpl. now rewrite IH.
Qed.

Lemma chars_inj (a b : string) : chars a = chars b -> a = b.
Proof. intros H. rewrite <- (str_chars a), <- (str_chars b). now rewrite H. Qed.

Lemma len_app (a b : string) : len (a ++ b) = len a + len b.
Proof. unfold len. rewrite chars_app, length_app. lia. Qed.

Lemma starts_with_app (p l : list ascii) : starts_with p (p ++ l) = true.
Proof.
  induction p as [|a p IH]; simpl; [reflexivity|].
  now rewrite Ascii.eqb_refl, IH.
Qed.

Lemma starts_with_inv (p l : list ascii) :
  starts_with p l = true -> exists t, l = (p ++ t)%list.
Proof.
  revert l. induction p as [|a p IH]; intros l H; simpl in *.
  - now exists l.
  - destruct l as [|b l]; [discriminate|].
    apply andb_prop in H as [Hab Hp].
    apply Ascii.eqb_eq in Hab. subst b.
    destruct (IH _ Hp) as [t ->]. now exists t.
Qed.

(** ** C9: the smoothing kernel size *)

Example ensure_odd_4 : _ensure_odd 4 = 5. Proof. reflexivity. Qed.
Example ensure_odd_3 : _ensure_odd 3 = 3. Proof. reflexivity. Qed.
Example ensure_odd_1 : _ensure_odd 1 = 1. Proof. reflexivity. Qed.

(** C9. For every configured blur kernel size [k] with [1 <= k] (the
    constraint of [Settings.blur_kernel]), the effective kernel size
    [_ensure_odd k] is odd and at least [k]; an even [k] becomes [k + 1],
    the next odd value, and an odd [k] is kept. *)
Theorem ensure_odd_odd_and_ge (k : Z) (Hk : 1 <= k) :
  Z.odd (_ensure_odd k) = true /\
  k <= _ensure_odd k /\
  (Z.even k = true -> _ensure_odd k = k + 1) /\
  (Z.odd k = true -> _ensure_odd k = k).
Proof.
  unfold _ensure_odd.
  rewrite (Zmod_odd k).
  destruct (Z.odd k) eqn:Hodd; simpl.
  - repeat split; try lia; try assumption.
    intros Hev. rewrite <- Z.negb_odd, Hodd in Hev. discriminate.
  - repeat split; try lia; try discriminate.
    rewrite Z.odd_add, Hodd. reflexivity.
Qed.

Lemma ensure_odd_odd_and_ge_witness :
  1 <= 4 /\
  Z.odd (_ensure_odd 4) = true /\ 4 <= _ensure_odd 4 /\
  (Z.even 4 = true -> _ensure_odd 4 = 4 + 1) /\
  (Z.odd 4 = true -> _ensure_odd 4 = 4).
Proof. split; [lia | apply (ensure_odd_odd_and_ge 4); lia]. Defined.

(** ** C4: the overlay name *)

Example overlay_path_twice :
  _overlay_path ["root"; "2024"; "a_mask_mask.png"]%string
  = Ret ["root"; "2024"; "a_mask.png"]%string.
Proof. vm_compute. reflexivity. Qed.

Example overlay_path_jpg :
  _overlay_path ["root"; "cam.0001.jpg"]%string = Ret ["root"; "cam.0001_mask.png"]%string.
Proof. vm_compute. reflexivity. Qed.

Example overlay_path_no_name : _overlay_path [] = Raise ValueError.
Proof. reflexivity. Qed.

Lemma rev_mask_eq : rev_mask = ["k"; "s"; "a"; "m"; "_"]%char.
Proof. reflexivity. Qed.

Lemma strip_mask_rev_step (r : list ascii) :
  strip_mask_rev (rev_mask ++ r) = strip_mask_rev r.
Proof. rewrite rev_mask_eq. reflexivity. Qed.

Lemma count_mask_rev_step (r : list ascii) :
  count_mask_rev (rev_mask ++ r) = S (count_mask_rev r).
Proof. rewrite rev_mask_eq. reflexivity. Qed.

Lemma strip_mask_rev_none (r : list ascii) :
  starts_with rev_mask r = false -> strip_mask_rev r = r.
Proof.
  intros H.
  destruct r as [|c1 [|c2 [|c3 [|c4 [|c5 r']]]]]; try reflexivity.
  simpl. rewrite rev_mask_eq in *. simpl in H.
  simpl. now rewrite H.
Qed.

Lemma count_mask_rev_none (r : list ascii) :
  starts_with rev_mask r = false -> count_mask_rev r = O.
Proof.
  intros H.
  destruct r as [|c1 [|c2 [|c3 [|c4 [|c5 r']]]]]; try reflexivity.
  simpl. rewrite rev_mask_eq in *. simpl in H.
  simpl. now rewrite H.
Qed.

Lemma starts_with_rev_mask_short (r : list ascii) :
  (List.length r < 5)%nat -> starts_with rev_mask r = false.
Proof.
  intros H. rewrite rev_mask_eq.
  destruct r as [|c1 [|c2 [|c3 [|c4 [|c5 r']]]]]; simpl in *; try lia;
    repeat (match goal with |- context [Ascii.eqb ?a ?b] => destruct (Ascii.eqb a b) end; simpl);
    reflexivity.
Qed.

(** What [strip_mask_rev] leaves does not start with the reversed suffix. *)
Lemma strip_mask_rev_clean (r : list ascii) :
  starts_with rev_mask (strip_mask_rev r) = false.
Proof.
  remember (List.length r) as n eqn:Hn.
  revert r Hn. induction n as [n IH] using lt_wf_ind. intros r Hn.
  destruct (starts_with rev_mask r) eqn:Hs.
  - apply starts_with_inv in Hs as [t ->].
    rewrite strip_mask_rev_step.
    apply (IH (List.length t)); [|reflexivity].
    subst n. rewrite length_app, rev_mask_eq. simpl. lia.
  - now rewrite strip_mask_rev_none.
Qed.

(** The stem and the name that [_overlay_path] builds. *)
Lemma re_sub_mask_suffix_clean (x : string) :
  starts_with rev_mask (rev (chars (re_sub_mask_suffix x))) = false.
Proof.
  unfold re_sub_mask_suffix.
  destruct (rev (chars x)) as [|c r] eqn:Hr.
  - rewrite Hr. reflexivity.
  - destruct (Ascii.eqb c newline) eqn:Hc.
    + rewrite chars_str, rev_involutive.
      apply Ascii.eqb_eq in Hc. subst c. reflexivity.
    + rewrite chars_str, rev_involutive. apply strip_mask_rev_clean.
Qed.

Lemma re_sub_mask_suffix_undo (s : string) :
  starts_with rev_mask (rev (chars s)) = false ->
  re_sub_mask_suffix (s ++ "_mask") = s.
Proof.
  intros H. unfold re_sub_mask_suffix.
  rewrite chars_app, rev_app_distr.
  change (rev (chars "_mask")) with ["k"; "s"; "a"; "m"; "_"]%char.
  cbn [app]. change (Ascii.eqb "k" newline) with false. cbv iota.
  change ("k" :: "s" :: "a" :: "m" :: "_" :: rev (chars s))%char
    with (rev_mask ++ rev (chars s))%list.
  rewrite strip_mask_rev_step, (strip_mask_rev_none _ H).
  now rewrite rev_involutive, str_chars.
Qed.

Lemma mask_suffix_count_one (s : string) :
  starts_with rev_mask (rev (chars s)) = false ->
  mask_suffix_count (s ++ "_mask") = 1%nat.
Proof.
  intros H. unfold mask_suffix_count.
  rewrite chars_app, rev_app_distr.
  change (rev (chars "_mask")) with rev_mask.
  now rewrite count_mask_rev_step, (count_mask_rev_none _ H).
Qed.

Lemma stem_of_overlay_name (s : string) :
  stem_of_name (s ++ "_mask.png") = (s ++ "_mask")%string.
Proof.
  unfold stem_of_name, rfind.
  rewrite chars_app, rev_app_distr.
  change (rev (chars "_mask.png")) with ["g"; "n"; "p"; "."; "k"; "s"; "a"; "m"; "_"]%char.
  cbn [app index_of Ascii.eqb Bool.eqb option_map].
  rewrite len_app. change (len "_mask.png") with 9.
  assert (Hlen : 0 <= len s) by (unfold len; lia).
  replace ((0 <? len s + 9 - 1 - Z.of_nat 3) && (len s + 9 - 1 - Z.of_nat 3 <? len s + 9 - 1))
    with true by (symmetry; apply andb_true_intro; split; apply Z.ltb_lt; lia).
  unfold slice_to.
  replace (Z.to_nat (len s + 9 - 1 - Z.of_nat 3)) with (List.length (chars s) + 5)%nat
    by (unfold len; lia).
  apply chars_inj. rewrite chars_str, !chars_app.
  rewrite firstn_app_2. reflexivity.
Qed.

Lemma name_with_last (d : Path) (n : string) : name (d ++ [n]) = n.
Proof. unfold name. apply last_last. Qed.

Lemma parent_with_last (d : Path) (n : string) : parent (d ++ [n]) = d.
Proof. unfold parent. apply removelast_last. Qed.

(** The name given to an overlay is accepted by [with_name] as soon as the
    stem carries no separator. *)
Lemma overlay_name_not_empty (s : string) :
  String.eqb (s ++ "_mask.png") EmptyString = false.
Proof. apply String.eqb_neq. destruct s; discriminate. Qed.

Lemma overlay_path_fixpoint (p q : Path) :
  _overlay_path p = Ret q -> _overlay_path q = Ret q.
Proof.
  unfold _overlay_path, with_name.
  destruct (String.eqb (name p) EmptyString); [discriminate|].
  set (s := re_sub_mask_suffix (stem p)).
  destruct (valid_name (s ++ "_mask.png")) eqn:Hv; [|discriminate].
  intros [= <-].
  rewrite name_with_last, parent_with_last, overlay_name_not_empty.
  assert (Hs : re_sub_mask_suffix (stem (parent p ++ [s ++ "_mask.png"]%string)) = s).
  { unfold stem at 1. rewrite name_with_last, stem_of_overlay_name.
    apply re_sub_mask_suffix_undo, re_sub_mask_suffix_clean. }
  now rewrite Hs, Hv.
Qed.

Lemma overlay_path_stem (p q : Path) :
  _overlay_path p = Ret q ->
  stem q = (re_sub_mask_suffix (stem p) ++ "_mask")%string.
Proof.
  unfold _overlay_path, with_name.
  destruct (String.eqb (name p) EmptyString); [discriminate|].
  destruct (valid_name _); [|discriminate].
  intros [= <-]. unfold stem at 1. now rewrite name_with_last, stem_of_overlay_name.
Qed.

(** Separators: none is introduced by taking a stem or removing suffixes. *)

Lemma contains_sep (s : string) : contains "/" s = has_sep (chars s).
Proof.
  unfold contains, has_sep. change (chars "/") with ["/"%char].
  induction (chars s) as [|c l IH]; [reflexivity|].
  cbn [contains_chars starts_with existsb]. rewrite IH.
  now rewrite andb_true_r.
Qed.

Lemma has_sep_false (l : list ascii) :
  has_sep l = false <-> Forall (fun c => Ascii.eqb "/" c = false) l.
Proof.
  unfold has_sep. induction l as [|c l IH]; simpl.
  - split; [constructor | reflexivity].
  - rewrite orb_false_iff, IH. split.
    + intros [? ?]. now constructor.
    + intros H. inversion H. now split.
Qed.

Lemma strip_mask_rev_Forall (P : ascii -> Prop) (r : list ascii) :
  Forall P r -> Forall P (strip_mask_rev r).
Proof.
  remember (List.length r) as n eqn:Hn.
  revert r Hn. induction n as [n IH] using lt_wf_ind. intros r Hn Hr.
  destruct (starts_with rev_mask r) eqn:Hs.
  - apply starts_with_inv in Hs as [t ->].
    rewrite strip_mask_rev_step.
    apply Forall_app in Hr as [_ Ht].
    apply (IH (List.length t)); [|reflexivity|exact Ht].
    subst n. rewrite length_app, rev_mask_eq. simpl. lia.
  - now rewrite strip_mask_rev_none.
Qed.

Lemma Forall_rev_iff {A} (P : A -> Prop) (l : list A) : Forall P (rev l) <-> Forall P l.
Proof.
  rewrite !List.Forall_forall. split; intros H x Hx; apply H.
  - now apply in_rev in Hx.
  - now apply in_rev.
Qed.

Lemma stem_of_name_no_sep (n : string) :
  has_sep (chars n) = false -> has_sep (chars (stem_of_name n)) = false.
Proof.
  unfold stem_of_name, slice_to.
  destruct (_ && _); [|trivial].
  rewrite chars_str, !has_sep_false. intros H.
  rewrite <- (firstn_skipn (Z.to_nat (rfind n ".")) (chars n)) in H.
  now apply Forall_app in H as [H _].
Qed.

Lemma re_sub_mask_suffix_no_sep (x : string) :
  has_sep (chars x) = false -> has_sep (chars (re_sub_mask_suffix x)) = false.
Proof.
  unfold re_sub_mask_suffix. rewrite !has_sep_false. intros H.
  pose proof (proj2 (Forall_rev_iff _ _) H) as Hr.
  destruct (rev (chars x)) as [|c r]; [exact H|].
  clear H. rename Hr into H.
  destruct (Ascii.eqb c newline); rewrite chars_str; apply Forall_rev_iff.
  - inversion H; subst. constructor; [assumption|].
    now apply strip_mask_rev_Forall.
  - now apply strip_mask_rev_Forall.
Qed.

Lemma overlay_name_valid (s : string) :
  has_sep (chars s) = false -> valid_name (s ++ "_mask.png") = true.
Proof.
  intros H. unfold valid_name.
  rewrite overlay_name_not_empty, contains_sep, chars_app.
  unfold has_sep in *. rewrite existsb_app, H. cbn.
  apply negb_true_iff, String.eqb_neq.
  destruct s as [|c [|c' s]]; discriminate.
Qed.

Lemma overlay_path_returns (p : Path) :
  valid_name (name p) = true -> exists q, _overlay_path p = Ret q.
Proof.
  unfold valid_name. intros H.
  apply andb_prop in H as [H _]. apply andb_prop in H as [Hne Hsep].
  apply negb_true_iff in Hne, Hsep. rewrite contains_sep in Hsep.
  unfold _overlay_path, with_name. rewrite Hne.
  rewrite overlay_name_valid; [eauto|].
  now apply re_sub_mask_suffix_no_sep, stem_of_name_no_sep.
Qed.

(** C4. [_overlay_path] is idempotent: applying it to its own result gives
    that result again, for every path (a path without a name makes both
    sides raise the same ValueError).  The stem of the result ends with
    exactly one [_mask]: it is some [s] followed by [_mask] where [s] does
    not end with [_mask], however many the input carried.  For the path of
    a file, whose name is a valid component, a result is returned. *)
Theorem overlay_path_idempotent (p : Path) :
  bind (_overlay_path p) _overlay_path = _overlay_path p /\
  (forall q, _overlay_path p = Ret q ->
     _overlay_path q = Ret q /\
     mask_suffix_count (stem q) = 1%nat /\
     exists s, stem q = (s ++ "_mask")%string /\ endswith s "_mask" = false) /\
  (valid_name (name p) = true -> exists q, _overlay_path p = Ret q).
Proof.
  split; [|split].
  - destruct (_overlay_path p) as [q|e] eqn:Hp; [|reflexivity].
    simpl. now apply overlay_path_fixpoint in Hp.
  - intros q Hq. split; [now apply (overlay_path_fixpoint p)|].
    pose proof (overlay_path_stem p q Hq) as Hst.
    pose proof (re_sub_mask_suffix_clean (stem p)) as Hclean.
    split.
    + rewrite Hst. now apply mask_suffix_count_one.
    + exists (re_sub_mask_suffix (stem p)). split; [exact Hst|exact Hclean].
  - apply overlay_path_returns.
Qed.

Lemma overlay_path_idempotent_witness :
  exists q,
    _overlay_path ["archive"; "2024"; "01"; "05"; "cam_mask_mask.png"]%string = Ret q /\
    _overlay_path q = Ret q /\ mask_suffix_count (stem q) = 1%nat.
Proof.
  destruct (overlay_path_idempotent ["archive"; "2024"; "01"; "05"; "cam_mask_mask.png"]%string)
    as (_ & Hq & Hret).
  destruct (Hret eq_refl) as [q Hp].
  exists q. split; [exact Hp|].
  destruct (Hq q Hp) as (Hfix & Hone & _). split; assumption.
Defined.

(** ** The file system *)

Lemma set_fs_fs (w : State) (m : gmap Path node) : fs (set_fs w m) = m.
Proof. reflexivity. Qed.

Lemma set_fs_same (w : State) : set_fs w (fs w) = w.
Proof. now destruct w. Qed.

Lemma set_fs_twice (w : State) (m m' : gmap Path node) :
  set_fs (set_fs w m) m' = set_fs w m'.
Proof. reflexivity. Qed.

Lemma is_file_lookup (w : State) (p : Path) :
  is_file w p = true <-> exists t d, fs w !! p = Some (File t d).
Proof.
  unfold is_file. destruct (fs w !! p) as [[t d|t]|]; split; intros H;
    try discriminate; eauto; destruct H as (? & ? & H); congruence.
Qed.

Lemma in_rglob (w : State) (root p : Path) :
  In p (rglob w root) <-> is_Some (fs w !! p) /\ is_below root p = true.
Proof.
  unfold rglob. rewrite filter_In, <- list_elem_of_In, list_elem_of_fmap.
  split.
  - intros [((q & n) & -> & Hin) Hb]. apply elem_of_map_to_list in Hin.
    simpl. split; [eauto | exact Hb].
  - intros [[n Hn] Hb]. split; [|exact Hb].
    exists (p, n). split; [reflexivity|]. now apply elem_of_map_to_list.
Qed.

Lemma NoDup_rglob (w : State) (root : Path) : List.NoDup (rglob w root).
Proof.
  unfold rglob. apply List.NoDup_filter, NoDup_ListNoDup, NoDup_fst_map_to_list.
Qed.

(** ** C10: a missing storage root *)


(** ** C7: the retention sweep *)

Lemma cleanup_one_spec (cutoff : datetime) (p : Path) (deleted : list Path) (w : State) :
  cleanup_one cutoff p deleted w =
  if swept w cutoff p
  then (Ret (deleted ++ [p]), set_fs w (delete p (fs w)))
  else (Ret deleted, w).
Proof.
  unfold cleanup_one, swept, expired, os_refuses, is_file, try_except_oserror, mbind,
    stat_mtime, unlink_missing_ok, ret, fromtimestamp.
  destruct (fs w !! p) as [[t d|t]|] eqn:Hp; simpl; try reflexivity.
  destruct (bool_decide (p ∈ stat_err w)); simpl.
  - now rewrite andb_false_r.
  - destruct (t <? cutoff); simpl; [|reflexivity].
    rewrite Hp. destruct (bool_decide (p ∈ unlink_err w)); reflexivity.
Qed.

Lemma swept_after_delete (w : State) (cutoff : datetime) (p q : Path) :
  p <> q -> swept (set_fs w (delete p (fs w))) cutoff q = swept w cutoff q.
Proof.
  intros Hpq. unfold swept, expired, os_refuses. simpl.
  now rewrite lookup_delete_ne.
Qed.

(** The loop removes exactly the swept paths, appends them to [deleted] in
    the order of the walk, and never raises. *)
Lemma cleanup_loop_spec (cutoff : datetime) (paths : list Path) :
  List.NoDup paths ->
  forall (deleted : list Path) (w : State),
  exists m,
    cleanup_loop cutoff paths deleted w
      = (Ret (deleted ++ List.filter (swept w cutoff) paths), set_fs w m) /\
    forall q, m !! q = if existsb (fun p => bool_decide (p = q)) (List.filter (swept w cutoff) paths)
                       then None else fs w !! q.
Proof.
  induction paths as [|p rest IH]; intros Hnd deleted w.
  - exists (fs w). simpl. unfold ret. rewrite app_nil_r, set_fs_same. split; reflexivity.
  - inversion Hnd as [|? ? Hnotin Hnd']; subst.
    cbn [cleanup_loop]. unfold mbind at 1. rewrite cleanup_one_spec.
    cbn [List.filter].
    destruct (swept w cutoff p) eqn:Hsw.
    + destruct (IH Hnd' (deleted ++ [p]) (set_fs w (delete p (fs w)))) as (m & Hrun & Hm).
      assert (Hf : List.filter (swept (set_fs w (delete p (fs w))) cutoff) rest
                   = List.filter (swept w cutoff) rest).
      { apply filter_ext_in. intros q Hq. apply swept_after_delete.
        intros ->. contradiction. }
      rewrite Hf in Hrun, Hm.
      exists m. split.
      * rewrite Hrun, set_fs_twice, <- app_assoc. reflexivity.
      * intros q. rewrite Hm. cbn [existsb]. simpl.
        destruct (bool_decide (p = q)) eqn:Hpq; simpl.
        -- apply bool_decide_eq_true in Hpq. subst q.
           rewrite lookup_delete_eq. now destruct (existsb _ _).
        -- apply bool_decide_eq_false in Hpq.
           rewrite lookup_delete_ne by assumption. reflexivity.
    + destruct (IH Hnd' deleted w) as (m & Hrun & Hm).
      exists m. split; assumption.
Qed.

Lemma in_filter_existsb (l : list Path) (q : Path) :
  existsb (fun p => bool_decide (p = q)) l = true <-> In q l.
Proof.
  rewrite existsb_exists. split.
  - intros (p & Hin & Hp). apply bool_decide_eq_true in Hp. now subst.
  - intros Hin. exists q. split; [assumption|]. now apply bool_decide_eq_true.
Qed.

Lemma swept_iff (w : State) (cutoff : datetime) (p : Path) (t : Z) (d : string) :
  fs w !! p = Some (File t d) ->
  swept w cutoff p = true <-> t < cutoff /\ (p ∉ stat_err w) /\ (p ∉ unlink_err w).
Proof.
  intros Hp. unfold swept, expired, os_refuses, fromtimestamp. rewrite Hp.
  rewrite andb_true_iff, negb_true_iff, orb_false_iff, Z.ltb_lt,
    !bool_decide_eq_false.
  tauto.
Qed.


(** ** Relocation: [process_file] *)

Lemma shutil_move_raises_os (src dst : Path) (w w' : State) (e : exn) :
  shutil_move src dst w = (Raise e, w') -> is_os_error e = true /\ w' = w.
Proof.
  unfold shutil_move.
  destruct (is_dir w dst && exists_ w _); [intros [= <- <-]; now split|].
  destruct (bool_decide _); [intros [= <- <-]; now split|].
  destruct (fs w !! src); [|intros [= <- <-]; now split].
  destruct (is_dir w (parent _)); [discriminate|intros [= <- <-]; now split].
Qed.

(** What [process_file] does on a regular file whose [stat] succeeds. *)
Lemma process_file_run (self : IncomingProcessor) (path : Path) (w : State) (t : Z) (d : string) :
  fs w !! path = Some (File t d) -> path ∉ stat_err w ->
  process_file self path w =
  match ensure_directories [parent (slot self path t)] w with
  | (Raise e, w1) => (Raise e, w1)
  | (Ret _, w1) =>
      match shutil_move path (slot self path t) w1 with
      | (Raise _, w2) => (Ret None, w2)
      | (Ret dst, w2) =>
          match on_processed self with
          | Some callback => (Ret (Some dst), snd (callback (fromtimestamp t) w2))
          | None => (Ret (Some dst), w2)
          end
      end
  end.
Proof.
  intros Hp Hstat. unfold process_file, is_file. rewrite Hp. cbn [negb].
  unfold mbind at 1. unfold stat_mtime.
  rewrite bool_decide_eq_false_2 by assumption. rewrite Hp.
  unfold mbind at 1. fold (slot self path t).
  destruct (ensure_directories [parent (slot self path t)] w) as [[[]|e] w1]; [|reflexivity].
  unfold mbind at 1. unfold try_except_os, mbind at 1.
  destruct (shutil_move path (slot self path t) w1) as [[dst|e] w2] eqn:Hmv.
  - unfold ret at 1. unfold mbind at 1.
    destruct (on_processed self) as [callback|].
    + unfold try_except_pass.
      destruct (callback (fromtimestamp t) w2) as [[[]|e] w3]; reflexivity.
    + reflexivity.
  - apply shutil_move_raises_os in Hmv as [-> ->]. reflexivity.
Qed.

Lemma mkdir_one_ok (d : Path) (w w1 : State) :
  mkdir_one d w = (Ret tt, w1) ->
  (forall q, q <> d -> fs w1 !! q = fs w !! q) /\
  is_dir w1 d = true /\
  (forall q n, fs w !! q = Some n -> fs w1 !! q = Some n).
Proof.
  unfold mkdir_one, is_dir.
  destruct (fs w !! d) as [[t s|t]|] eqn:Hd; [discriminate| |].
  - intros [= <-]. rewrite Hd. repeat split; auto.
  - destruct (bool_decide _); [discriminate|].
    intros [= <-]. simpl. rewrite lookup_insert_eq. repeat split.
    + intros q Hq. now rewrite lookup_insert_ne.
    + intros q n Hq. rewrite lookup_insert_ne; [assumption|]. congruence.
Qed.

Lemma mkdir_all_ok (ds : list Path) (w w1 : State) :
  mkdir_all ds w = (Ret tt, w1) ->
  (forall q, ~ In q ds -> fs w1 !! q = fs w !! q) /\
  (forall q, In q ds -> is_dir w1 q = true) /\
  (forall q n, fs w !! q = Some n -> fs w1 !! q = Some n).
Proof.
  revert w. induction ds as [|d ds IH]; intros w.
  - intros [= <-]. repeat split; auto; intros q [].
  - cbn [mkdir_all]. unfold mbind.
    destruct (mkdir_one d w) as [[[]|e] w0] eqn:H1; [|discriminate].
    intros H2. apply mkdir_one_ok in H1 as (Hother & Hdir & Hkeep).
    apply IH in H2 as (Hother' & Hdir' & Hkeep').
    repeat split.
    + intros q Hq. rewrite Hother', Hother; auto; intros ?; apply Hq; simpl; auto.
    + intros q [<-|Hq]; [|now apply Hdir'].
      unfold is_dir in *. destruct (fs w0 !! d) as [[?|?]|] eqn:Hd; try discriminate.
      now rewrite (Hkeep' _ _ Hd).
    + intros q n Hq. eauto.
Qed.

Lemma ensure_directories_one (dir : Path) (w w1 : State) :
  ensure_directories [dir] w = (Ret tt, w1) ->
  mkdir_all (ancestors_and_self dir) w = (Ret tt, w1).
Proof.
  cbn [ensure_directories]. unfold mbind, mkdir_parents.
  destruct (mkdir_all _ w) as [[[]|e] w0]; [|discriminate].
  now intros [= <-].
Qed.

Lemma in_ancestors_length (dir q : Path) :
  In q (ancestors_and_self dir) -> (List.length q <= List.length dir)%nat.
Proof.
  unfold ancestors_and_self. rewrite in_map_iff.
  intros (n & <- & _). rewrite length_firstn. lia.
Qed.

Lemma self_in_ancestors (dir : Path) : dir <> [] -> In dir (ancestors_and_self dir).
Proof.
  intros Hne. unfold ancestors_and_self. apply in_map_iff.
  exists (List.length dir). split; [apply firstn_all|].
  apply in_seq. destruct dir; [contradiction|simpl; lia].
Qed.

Lemma slot_parts (self : IncomingProcessor) (path : Path) (t : Z) :
  slot self path t =
  (storage_root self ++ [format_Y t; format_m t; format_d t])%list ++ [name path].
Proof.
  unfold slot, archive_path, joinpath, fromtimestamp.
  now rewrite <- !app_assoc.
Qed.

Lemma slot_not_ancestor (self : IncomingProcessor) (path : Path) (t : Z) :
  ~ In (slot self path t) (ancestors_and_self (parent (slot self path t))).
Proof.
  intros Hin. apply in_ancestors_length in Hin.
  rewrite slot_parts, parent_with_last in Hin.
  rewrite length_app in Hin. simpl in Hin. lia.
Qed.

Lemma shutil_move_ok (src dst real : Path) (w w2 : State) :
  shutil_move src dst w = (Ret real, w2) ->
  real = (if is_dir w dst then joinpath dst (name src) else dst) /\
  exists n, fs w !! src = Some n /\ fs w2 = <[real := n]> (delete src (fs w)).
Proof.
  unfold shutil_move.
  destruct (is_dir w dst && exists_ w _); [discriminate|].
  destruct (bool_decide _); [discriminate|].
  destruct (fs w !! src) as [n|]; [|discriminate].
  destruct (is_dir w (parent _)); [|discriminate].
  intros [= <- <-]. split; [reflexivity|]. exists n. split; reflexivity.
Qed.

(** A successful relocation, step by step. *)
Lemma process_file_success (self : IncomingProcessor) (path dst : Path) (w w' : State) :
  process_file self path w = (Ret (Some dst), w') ->
  exists t d w1 w2,
    fs w !! path = Some (File t d) /\
    ensure_directories [parent (slot self path t)] w = (Ret tt, w1) /\
    shutil_move path (slot self path t) w1 = (Ret dst, w2) /\
    (callback_keeps_fs self -> fs w' = fs w2).
Proof.
  intros Hrun.
  destruct (fs w !! path) as [[t d|t]|] eqn:Hp;
    try (unfold process_file, is_file in Hrun; rewrite Hp in Hrun; discriminate).
  destruct (decide (path ∈ stat_err w)) as [Hin|Hnin].
  { unfold process_file, is_file, mbind, stat_mtime in Hrun.
    rewrite Hp in Hrun. cbn [negb] in Hrun.
    rewrite bool_decide_eq_true_2 in Hrun by assumption. discriminate. }
  rewrite (process_file_run self path w t d Hp Hnin) in Hrun.
  destruct (ensure_directories _ w) as [[[]|e] w1] eqn:Hmk; [|discriminate].
  destruct (shutil_move path _ w1) as [[real|e] w2] eqn:Hmv; [|discriminate].
  exists t, d, w1, w2.
  destruct (on_processed self) as [callback|] eqn:Hcb.
  - injection Hrun as <- <-.
    do 3 (split; [first [reflexivity | assumption]|]).
    intros Hkeep. now apply Hkeep.
  - injection Hrun as <- <-.
    do 3 (split; [first [reflexivity | assumption]|]). reflexivity.
Qed.

Lemma process_file_not_a_file (self : IncomingProcessor) (path : Path) (w : State) :
  is_file w path = false -> process_file self path w = (Ret None, w).
Proof. intros H. unfold process_file. now rewrite H. Qed.

(** After a successful relocation the file, with its time and content, is
    at the returned path, and it has left the drop path. *)
Lemma process_file_moved (self : IncomingProcessor) (path dst : Path) (w w' : State) :
  callback_keeps_fs self ->
  process_file self path w = (Ret (Some dst), w') ->
  exists t d,
    fs w !! path = Some (File t d) /\
    dst = (if is_dir w (slot self path t)
           then joinpath (slot self path t) (name path) else slot self path t) /\
    fs w' !! dst = Some (File t d) /\
    (dst <> path -> fs w' !! path = None).
Proof.
  intros Hkeep Hrun.
  apply process_file_success in Hrun as (t & d & w1 & w2 & Hp & Hmk & Hmv & Hfs).
  specialize (Hfs Hkeep).
  apply ensure_directories_one, mkdir_all_ok in Hmk as (Hother & _ & Hpres).
  apply shutil_move_ok in Hmv as (Hdst & n & Hn & Hfs2).
  rewrite (Hpres _ _ Hp) in Hn. injection Hn as <-.
  exists t, d. split; [exact Hp|]. split; [|split].
  - rewrite Hdst. unfold is_dir.
    now rewrite (Hother _ (slot_not_ancestor self path t)).
  - rewrite Hfs, Hfs2. apply lookup_insert_eq.
  - intros Hne. rewrite Hfs, Hfs2.
    rewrite lookup_insert_ne by assumption. apply lookup_delete_eq.
Qed.


(** ** Dates and their rendering *)

Lemma digit_value_digit (d : Z) : digit_value (digit d) = d mod 10.
Proof.
  unfold digit_value, digit.
  assert (H : 0 <= d mod 10 < 10) by (apply Z.mod_pos_bound; lia).
  rewrite nat_ascii_embedding by lia. lia.
Qed.

Lemma pad4_value (n : Z) : 0 <= n <= 9999 -> decimal_value (pad4 n) = n.
Proof.
  intros H. unfold decimal_value, pad4. rewrite chars_str. cbn [fold_left].
  rewrite !digit_value_digit. Z.div_mod_to_equations. lia.
Qed.

Lemma pad2_value (n : Z) : 0 <= n <= 99 -> decimal_value (pad2 n) = n.
Proof.
  intros H. unfold decimal_value, pad2. rewrite chars_str. cbn [fold_left].
  rewrite !digit_value_digit. Z.div_mod_to_equations. lia.
Qed.

Lemma month_day_of_doe_range (doe : Z) :
  0 <= doe < 146097 ->
  let '(_, m, d) := month_day_of_doe doe in 1 <= m <= 12 /\ 1 <= d <= 31.
Proof.
  intros H. unfold month_day_of_doe.
  destruct (_ <? 10) eqn:Hmp; [apply Z.ltb_lt in Hmp | apply Z.ltb_ge in Hmp];
    Z.div_mod_to_equations; lia.
Qed.

Lemma month_day_range (t : datetime) : 1 <= month t <= 12 /\ 1 <= day t <= 31.
Proof.
  unfold month, day, date_of, civil_from_days.
  pose proof (month_day_of_doe_range ((t / us_per_day + 719468) mod 146097)) as H.
  destruct (month_day_of_doe _) as [[yoe m] d]. simpl.
  apply H. apply Z.mod_pos_bound. lia.
Qed.

Example date_of_shot : date_of Samples.shot_time = (2023, 11, 14).
Proof. reflexivity. Qed.

Example date_of_epoch : date_of 0 = (1970, 1, 1).
Proof. reflexivity. Qed.

Example date_of_leap_day : date_of (19782 * us_per_day + 5) = (2024, 2, 29).
Proof. reflexivity. Qed.

Example archive_path_shot :
  archive_path Samples.archive_root Samples.shot_time "shot.jpg"
  = ["storage"; "archive"; "2023"; "11"; "14"; "shot.jpg"]%string.
Proof. reflexivity. Qed.

Example process_file_shot :
  fst (process_file Samples.processor Samples.shot Samples.dropped)
  = Ret (Some ["storage"; "archive"; "2023"; "11"; "14"; "shot.jpg"]%string).
Proof. vm_compute. reflexivity. Qed.

Example process_file_locked :
  fst (process_file Samples.processor Samples.shot Samples.dropped_locked) = Ret None.
Proof. vm_compute. reflexivity. Qed.

Example process_file_slot_is_directory :
  fst (process_file Samples.processor Samples.shot Samples.slot_is_directory)
  = Ret (Some ["storage"; "archive"; "2023"; "11"; "14"; "shot.jpg"; "shot.jpg"]%string).
Proof. vm_compute. reflexivity. Qed.

Example cleanup_aged :
  fst (cleanup_older_than Samples.archive_root 90 Samples.aged) = Ret [Samples.old_frame].
Proof. vm_compute. reflexivity. Qed.

Example list_recent_two_frames :
  fst (list_recent_images Samples.archive_root 2 true Samples.two_frames)
  = Ret [Samples.overlay_frame; Samples.masked_view_frame].
Proof. vm_compute. reflexivity. Qed.



Lemma make_processor_keeps_fs (incoming storage : Path) :
  callback_keeps_fs (make_processor incoming storage).
Proof.
  intros callback Hcb ts w. simpl in Hcb. injection Hcb as <-. reflexivity.
Qed.


(** ** C6: the archive layout *)

Lemma format_Y_spec (t : datetime) :
  valid_year t ->
  String.length (format_Y t) = 4%nat /\ decimal_value (format_Y t) = year t.
Proof.
  intros [Hlo Hhi]. split; [reflexivity|]. apply pad4_value. lia.
Qed.

Lemma format_m_spec (t : datetime) :
  String.length (format_m t) = 2%nat /\ decimal_value (format_m t) = month t.
Proof.
  split; [reflexivity|]. apply pad2_value. pose proof (month_day_range t). lia.
Qed.

Lemma format_d_spec (t : datetime) :
  String.length (format_d t) = 2%nat /\ decimal_value (format_d t) = day t.
Proof.
  split; [reflexivity|]. apply pad2_value. pose proof (month_day_range t). lia.
Qed.




(** ** C8: staleness *)

Lemma mkdir_one_last_image_at (d : Path) (w : State) :
  OS.last_image_at (snd (mkdir_one d w)) = OS.last_image_at w.
Proof.
  unfold mkdir_one.
  destruct (fs w !! d) as [[?|?]|]; try reflexivity.
  destruct (bool_decide _); reflexivity.
Qed.

Lemma mkdir_all_last_image_at (ds : list Path) (w : State) :
  OS.last_image_at (snd (mkdir_all ds w)) = OS.last_image_at w.
Proof.
  revert w. induction ds as [|d ds IH]; intros w; [reflexivity|].
  cbn [mkdir_all]. unfold mbind.
  pose proof (mkdir_one_last_image_at d w) as H1.
  destruct (mkdir_one d w) as [[[]|e] w0]; simpl in H1.
  - now rewrite IH.
  - exact H1.
Qed.

Lemma ensure_directories_last_image_at (dir : Path) (w : State) :
  OS.last_image_at (snd (ensure_directories [dir] w)) = OS.last_image_at w.
Proof.
  cbn [ensure_directories]. unfold mbind, mkdir_parents.
  pose proof (mkdir_all_last_image_at (ancestors_and_self dir) w) as H.
  destruct (mkdir_all _ w) as [[[]|e] w0]; exact H.
Qed.

Lemma shutil_move_last_image_at (src dst : Path) (w : State) :
  OS.last_image_at (snd (shutil_move src dst w)) = OS.last_image_at w.
Proof.
  unfold shutil_move.
  destruct (is_dir w dst && exists_ w _); [reflexivity|].
  destruct (bool_decide _); [reflexivity|].
  destruct (fs w !! src); [|reflexivity].
  destruct (is_dir w (parent _)); reflexivity.
Qed.

(** The recorded time changes exactly when a relocation succeeds, and then
    it is the modification time of the frame. *)
Lemma process_file_last_image_at (incoming storage path : Path) (w : State) :
  let '(r, w') := process_file (make_processor incoming storage) path w in
  if archived r
  then exists T d, fs w !! path = Some (File T d) /\ OS.last_image_at w' = Some (fromtimestamp T)
  else OS.last_image_at w' = OS.last_image_at w.
Proof.
  destruct (fs w !! path) as [[t d|t]|] eqn:Hp;
    try (unfold process_file, is_file; rewrite Hp; reflexivity).
  destruct (decide (path ∈ stat_err w)) as [Hin|Hnin].
  { unfold process_file, is_file, mbind, stat_mtime.
    rewrite Hp. cbn [negb]. rewrite bool_decide_eq_true_2 by assumption. reflexivity. }
  rewrite (process_file_run _ path w t d Hp Hnin).
  pose proof (ensure_directories_last_image_at
                (parent (slot (make_processor incoming storage) path t)) w) as Hmk.
  destruct (ensure_directories _ w) as [[[]|e] w1]; [|exact Hmk].
  pose proof (shutil_move_last_image_at path
                (slot (make_processor incoming storage) path t) w1) as Hmv.
  destruct (shutil_move path _ w1) as [[dst|e] w2]; simpl in *.
  - exists t, d. split; reflexivity.
  - congruence.
Qed.

Lemma run_ingestions_last_image_at (incoming storage : Path) (paths : list Path) (w : State) :
  let '(outcomes, w') := run_ingestions (make_processor incoming storage) paths w in
  if existsb archived outcomes
  then exists T, OS.last_image_at w' = Some T
  else OS.last_image_at w' = OS.last_image_at w.
Proof.
  revert w. induction paths as [|path rest IH]; intros w; [reflexivity|].
  cbn [run_ingestions].
  pose proof (process_file_last_image_at incoming storage path w) as H1.
  destruct (process_file _ path w) as [r w1].
  specialize (IH w1).
  destruct (run_ingestions _ rest w1) as [rs w2].
  cbn [existsb].
  destruct (existsb archived rs).
  - rewrite orb_true_r. exact IH.
  - rewrite orb_false_r. destruct (archived r).
    + destruct H1 as (T & d & _ & HT). exists (fromtimestamp T). congruence.
    + congruence.
Qed.

Lemma delay_warning_true (settings : Settings) (last : option datetime) (now : datetime) :
  delay_warning settings last now = true <->
  delay_monitor_enabled settings = true /\
  exists t, last = Some t /\
            (inject_Z (delay_threshold_seconds settings) < total_seconds now t)%Q.
Proof.
  unfold delay_warning. destruct (delay_monitor_enabled settings).
  - destruct last as [t|].
    + rewrite negb_true_iff, <- not_true_iff_false, Qle_bool_iff. split.
      * intros H. split; [reflexivity|]. exists t. split; [reflexivity|].
        now apply Qnot_le_lt.
      * intros (_ & t' & [= <-] & Hlt). now apply Qlt_not_le.
    + split; [discriminate|]. intros (_ & t & ? & _). discriminate.
  - split; [discriminate|]. intros [? _]. discriminate.
Qed.


Example delay_warning_at_threshold :
  delay_warning default_settings (Some 0) 300000000 = false.
Proof. reflexivity. Qed.

Example delay_warning_past_threshold :
  delay_warning default_settings (Some 0) 300000001 = true.
Proof. reflexivity. Qed.


(** ** C2: the mask *)

Lemma filter_all {A} (f : A -> bool) (l : list A) :
  (forall x, f x = true) -> List.filter f l = l.
Proof.
  intros H. induction l as [|x l IH]; simpl; [reflexivity|]. now rewrite H, IH.
Qed.

Lemma list_sum_map_le {A} (f : A -> nat) (k : nat) (l : list A) :
  (forall x, (f x <= k)%nat) -> (list_sum (List.map f l) <= List.length l * k)%nat.
Proof.
  intros H. induction l as [|x l IH]; simpl; [lia|]. specialize (H x). lia.
Qed.

Lemma list_sum_map_const {A} (f : A -> nat) (k : nat) (l : list A) :
  (forall x, f x = k) -> list_sum (List.map f l) = (List.length l * k)%nat.
Proof.
  intros H. induction l as [|x l IH]; simpl; [reflexivity|]. now rewrite H, IH.
Qed.

Lemma countNonZero_nonneg (m : Mat) : 0 <= countNonZero m.
Proof. unfold countNonZero. lia. Qed.

Lemma countNonZero_le (m : Mat) : countNonZero m <= Z.of_nat (rows m * cols m).
Proof.
  unfold countNonZero. apply inj_le.
  etransitivity; [apply (list_sum_map_le _ (cols m))|now rewrite length_seq].
  intros r. unfold count_row.
  etransitivity; [apply filter_length_le|now rewrite length_seq].
Qed.

Lemma countNonZero_ones (s : nat * nat) :
  countNonZero (ones_255 s) = Z.of_nat (fst s * snd s).
Proof.
  unfold countNonZero. f_equal.
  rewrite (list_sum_map_const _ (snd s)).
  - now rewrite length_seq.
  - intros r. unfold count_row. simpl.
    rewrite filter_all by reflexivity. apply length_seq.
Qed.

(** The three ways to a mask that covers the whole frame. *)
Lemma load_mask_full_frame (cv : Backend) (w : State) (mask_path : Path)
    (target_shape : nat * nat) (inclusive : bool) :
  inclusive = false \/ exists_ w mask_path = false
    \/ imread_grayscale cv w mask_path = None ->
  _load_mask_image cv w mask_path target_shape inclusive = ones_255 target_shape.
Proof.
  unfold _load_mask_image. intros [-> | [-> | ->]].
  - reflexivity.
  - now destruct inclusive.
  - destruct inclusive; [|reflexivity]. now destruct (exists_ w mask_path).
Qed.

Example dim_pixel_is_inactive :
  let mask := _load_mask_image DetectionSamples.backend DetectionSamples.with_dim_mask
                DetectionSamples.mask_file (5, 5)%nat true in
  (px mask 0 0, px mask 0 1, countNonZero mask) = (0, 255, 24).
Proof. vm_compute. reflexivity. Qed.

(** The claim as stated fails on a mask artifact that has a pixel of value
    1: the pixel is positive, and the mask that is loaded has it
    inactive. *)
Lemma positive_mask_pixel_inactive :
  exists artifact,
    imread_grayscale DetectionSamples.backend DetectionSamples.with_dim_mask
      DetectionSamples.mask_file = Some artifact /\
    shape artifact = (5, 5)%nat /\
    0 < px artifact 0 0 /\
    px (_load_mask_image DetectionSamples.backend DetectionSamples.with_dim_mask
          DetectionSamples.mask_file (5, 5)%nat true) 0 0 = 0.
Proof.
  exists DetectionSamples.dim_corner.
  split; [vm_compute; reflexivity|].
  split; [reflexivity|].
  split; [reflexivity|].
  vm_compute. reflexivity.
Qed.

(** C2 (amended). The mask is full-frame-active (the target shape, every
    pixel 255) whenever masking is disabled, the artifact does not exist
    or it fails to decode.  Otherwise it is the artifact, resized to the
    target with nearest-neighbour interpolation when its shape differs,
    and binarized at the threshold 1: a pixel is active (255) exactly when
    its value is greater than 1, and inactive (0) exactly when its value
    is 0 or 1. *)
Theorem load_mask_image_spec (cv : Backend) (w : State) (mask_path : Path)
    (target_shape : nat * nat) (inclusive : bool) :
  (inclusive = false \/ exists_ w mask_path = false
     \/ imread_grayscale cv w mask_path = None ->
   let mask := _load_mask_image cv w mask_path target_shape inclusive in
   shape mask = target_shape /\ (forall r c, px mask r c = 255) /\
   countNonZero mask = Z.of_nat (fst target_shape * snd target_shape)) /\
  (forall artifact,
      inclusive = true -> exists_ w mask_path = true ->
      imread_grayscale cv w mask_path = Some artifact ->
      let sized :=
        if bool_decide (shape artifact = target_shape) then artifact
        else resize cv artifact (snd target_shape, fst target_shape) INTER_NEAREST in
      let mask := _load_mask_image cv w mask_path target_shape inclusive in
      mask = threshold_binary sized 1 255 /\
      forall r c,
        (px mask r c = 255 <-> 1 < px sized r c) /\
        (px mask r c = 0 <-> px sized r c <= 1)).
Proof.
  split.
  - intros H. cbv zeta. rewrite (load_mask_full_frame cv w mask_path target_shape inclusive H).
    split; [now destruct target_shape|]. split; [reflexivity|]. apply countNonZero_ones.
  - intros artifact -> Hex Hread. cbv zeta.
    unfold _load_mask_image. rewrite Hex, Hread. cbn [negb].
    destruct (bool_decide (shape artifact = target_shape)); cbn [negb].
    + split; [reflexivity|]. intros r c. simpl.
      destruct (1 <? px artifact r c) eqn:E;
        [apply Z.ltb_lt in E | apply Z.ltb_ge in E]; split; split; intros; lia.
    + split; [reflexivity|]. intros r c. simpl.
      destruct (1 <? px _ r c) eqn:E;
        [apply Z.ltb_lt in E | apply Z.ltb_ge in E]; split; split; intros; lia.
Qed.

Lemma load_mask_image_spec_witness :
  let mask := _load_mask_image DetectionSamples.backend DetectionSamples.with_ring_mask
                DetectionSamples.mask_file (5, 5)%nat true in
  (px mask 2 2 = 0 <-> px DetectionSamples.ring 2 2 <= 1) /\
  countNonZero (_load_mask_image DetectionSamples.backend DetectionSamples.with_ring_mask
                  DetectionSamples.mask_file (5, 5)%nat false) = 25.
Proof.
  destruct (load_mask_image_spec DetectionSamples.backend DetectionSamples.with_ring_mask
              DetectionSamples.mask_file (5, 5)%nat true) as [_ Hload].
  destruct (load_mask_image_spec DetectionSamples.backend DetectionSamples.with_ring_mask
              DetectionSamples.mask_file (5, 5)%nat false) as [Hfull _].
  split.
  - destruct (Hload DetectionSamples.ring) as [_ Hpx];
      [reflexivity | vm_compute; reflexivity | vm_compute; reflexivity |].
    exact (proj2 (Hpx 2%nat 2%nat)).
  - destruct Hfull as (_ & _ & Hcount); [left; reflexivity|]. exact Hcount.
Defined.

(** ** C1: the detection rate *)

Example analyze_ring_mask :
  fst (analyze_detection DetectionSamples.backend DetectionSamples.latest
         DetectionSamples.previous default_settings DetectionSamples.mask_file
         DetectionSamples.with_ring_mask)
  = Ret (Some {| detection_rate := 25 # 24;
                 changed_pixels := 25;
                 mask_pixels := 24;
                 overlay_path := Some (DetectionSamples.day_dir ++ ["cam_0002_mask.png"%string]);
                 alarm := true |}).
Proof. vm_compute. reflexivity. Qed.


Lemma truediv_positive (a b : Z) :
  0 <= a -> 0 < b ->
  exists q, truediv a b = Ret q /\ (q == a # Z.to_pos b)%Q /\ (0 <= q)%Q /\
            (a <= b -> (q <= 1)%Q).
Proof.
  intros Ha Hb. unfold truediv.
  destruct (b =? 0) eqn:E; [apply Z.eqb_eq in E; lia|].
  eexists. split; [reflexivity|].
  assert (Hq : (inject_Z a / inject_Z b == a # Z.to_pos b)%Q).
  { destruct b as [|p|p]; try lia. simpl Z.to_pos. symmetry. apply Qmake_Qdiv. }
  split; [exact Hq|]. split.
  - rewrite Hq. unfold Qle. simpl. lia.
  - intros Hab. rewrite Hq. unfold Qle. simpl.
    rewrite Z2Pos.id by assumption. lia.
Qed.

(** What [analyze_detection] computes once both frames are decoded: a
    change mask of the shape of the frame, the mask loaded for that shape,
    and the result built from their counts. *)
Lemma analyze_detection_run (cv : Backend) (latest_path previous_path : Path)
    (settings : Settings) (mask_path : Path) (w : State) (img_latest img_prev : Mat3) :
  imread cv w latest_path = Some img_latest ->
  imread cv w previous_path = Some img_prev ->
  exists binary,
    let mask := _load_mask_image cv w mask_path (shape binary) (mask_inclusive settings) in
    analyze_detection cv latest_path previous_path settings mask_path w =
    match (if 0 <? countNonZero mask
           then truediv (countNonZero binary) (countNonZero mask) else Ret 0%Q) with
    | Raise e => (Raise e, w)
    | Ret rate =>
        match _overlay_path latest_path with
        | Raise e => (Raise e, w)
        | Ret overlay =>
            (Ret (Some {| detection_rate := rate;
                          changed_pixels := countNonZero binary;
                          mask_pixels := countNonZero mask;
                          overlay_path := Some overlay;
                          alarm := Qle_bool (threshold settings) rate |}),
             snd (imwrite overlay (overlay_png cv img_latest binary settings) w))
        end
    end.
Proof.
  intros Hl Hp. unfold analyze_detection, _read_image. rewrite Hl, Hp.
  eexists. cbv zeta.
  match goal with
  | |- context [countNonZero (morph_close ?b)] =>
      instantiate (1 := morph_close b)
  end.
  change (shape (morph_close _)) with
    (shape (absdiff
              (GaussianBlur cv (cvtColor_BGR2GRAY cv img_latest)
                 (_ensure_odd (blur_kernel settings)))
              (GaussianBlur cv
                 (cvtColor_BGR2GRAY cv (_resize_if_needed cv img_prev (shape3 img_latest)))
                 (_ensure_odd (blur_kernel settings))))).
  destruct (if 0 <? _ then _ else _) as [rate|e]; [|reflexivity].
  destruct (_overlay_path latest_path) as [overlay|e]; [|reflexivity].
  unfold mbind, imwrite, ret.
  destruct (is_dir w (parent overlay) && negb (is_dir w overlay)); reflexivity.
Qed.

Lemma overlay_path_raises (p : Path) (e : exn) :
  _overlay_path p = Raise e -> e = ValueError.
Proof.
  unfold _overlay_path, with_name.
  destruct (String.eqb _ _); [now intros [= <-]|].
  destruct (valid_name _); [discriminate|now intros [= <-]].
Qed.


Example analyze_without_mask :
  fst (analyze_detection DetectionSamples.backend DetectionSamples.latest
         DetectionSamples.previous default_settings DetectionSamples.absent_mask_file
         DetectionSamples.with_ring_mask)
  = Ret (Some {| detection_rate := 25 # 25;
                 changed_pixels := 25;
                 mask_pixels := 25;
                 overlay_path := Some (DetectionSamples.day_dir ++ ["cam_0002_mask.png"%string]);
                 alarm := true |}).
Proof. vm_compute. reflexivity. Qed.


(** ** C5: the recent frames *)

Lemma overlay_path_never_plain (p q : Path) :
  _overlay_path p = Ret q -> mask_suffix_count (stem q) = 1%nat.
Proof.
  intros Hq. rewrite (overlay_path_stem p q Hq).
  apply mask_suffix_count_one, re_sub_mask_suffix_clean.
Qed.

Lemma insert_desc_perm (x : Z * Path) (l : list (Z * Path)) :
  Permutation (insert_desc x l) (x :: l).
Proof.
  induction l as [|y l IH]; simpl; [reflexivity|].
  destruct (fst x <? fst y); [|reflexivity].
  rewrite IH. apply perm_swap.
Qed.

Lemma sort_desc_perm (l : list (Z * Path)) : Permutation (sort_desc l) l.
Proof.
  induction l as [|x l IH]; simpl; [reflexivity|].
  rewrite insert_desc_perm. now constructor.
Qed.

Lemma insert_desc_sorted (x : Z * Path) (l : list (Z * Path)) :
  StronglySorted key_ge l -> StronglySorted key_ge (insert_desc x l).
Proof.
  induction l as [|y l IH]; intros Hs; simpl.
  - repeat constructor.
  - inversion Hs as [|? ? Hl Hy]; subst.
    destruct (fst x <? fst y) eqn:E.
    + apply Z.ltb_lt in E. constructor; [now apply IH|].
      apply List.Forall_forall. intros z Hz.
      apply (Permutation_in _ (insert_desc_perm x l)) in Hz as [<-|Hz].
      * unfold key_ge. lia.
      * rewrite List.Forall_forall in Hy. now apply Hy.
    + apply Z.ltb_ge in E. constructor; [assumption|].
      constructor; [exact E|].
      rewrite List.Forall_forall in Hy |- *. intros z Hz.
      specialize (Hy z Hz). unfold key_ge in *. lia.
Qed.

Lemma sort_desc_sorted (l : list (Z * Path)) : StronglySorted key_ge (sort_desc l).
Proof.
  induction l as [|x l IH]; simpl; [constructor|]. now apply insert_desc_sorted.
Qed.

(** Without a failing [stat], the keys are the modification times. *)
Lemma sort_keys_ok (w : State) (files : list Path) :
  (forall p, In p files -> is_file w p = true /\ (p ∉ stat_err w)) ->
  sort_keys files w = (Ret (List.map (fun p => (mtime_of w p, p)) files), w).
Proof.
  induction files as [|p files IH]; intros H; [reflexivity|].
  cbn [sort_keys List.map]. unfold mbind at 1.
  destruct (H p (or_introl eq_refl)) as [Hf Hs].
  unfold stat_mtime at 1. rewrite bool_decide_eq_false_2 by assumption.
  apply is_file_lookup in Hf as (t & d & Hp).
  unfold mtime_of at 1. rewrite Hp.
  unfold mbind at 1. rewrite IH by (intros q Hq; apply H; now right).
  reflexivity.
Qed.

Lemma sorted_keys_newest_first (w : State) (l : list (Z * Path)) :
  (forall x, In x l -> fst x = mtime_of w (snd x)) ->
  StronglySorted key_ge l -> newest_first w (List.map snd l).
Proof.
  unfold newest_first.
  induction l as [|x l IH]; intros Hk Hs; simpl; [constructor|].
  inversion Hs as [|? ? Hl Hx]; subst.
  constructor.
  - apply IH; [|assumption]. intros y Hy. apply Hk. now right.
  - rewrite List.Forall_forall in Hx |- *. intros q Hq.
    apply in_map_iff in Hq as (y & <- & Hy).
    specialize (Hx y Hy). unfold key_ge in Hx.
    rewrite <- (Hk y (or_intror Hy)), <- (Hk x (or_introl eq_refl)). exact Hx.
Qed.

Example list_recent_two_frames_raw :
  fst (list_recent_images Samples.archive_root 2 false Samples.two_frames)
  = Ret [Samples.plain_frame].
Proof. vm_compute. reflexivity. Qed.

Lemma contains_chars_app (sub a b : list ascii) :
  contains_chars sub (a ++ sub ++ b) = true.
Proof.
  induction a as [|c a IH].
  - simpl. destruct (sub ++ b) eqn:E; simpl; rewrite <- E, starts_with_app; reflexivity.
  - cbn [app contains_chars]. rewrite IH. apply orb_true_r.
Qed.

Lemma overlay_named_contains_mask (p : Path) :
  overlay_named p = true -> _is_overlay p = true.
Proof.
  unfold overlay_named, _is_overlay, endswith, contains. intros H.
  apply starts_with_inv in H as [t Ht].
  apply (f_equal (@rev ascii)) in Ht. rewrite rev_involutive, rev_app_distr, rev_involutive in Ht.
  rewrite Ht.
  change (chars "_mask.png") with (chars "_mask" ++ chars ".png")%list.
  apply contains_chars_app.
Qed.

(** The claim as stated fails on a raw frame that has [_mask] inside its
    name: [cam_mask_view.jpg] is the newest regular file below the root
    and is no overlay (its name does not end with [_mask.png], its stem
    does not end with [_mask], and [_overlay_path] never yields its path),
    yet a call with limit 2 returns the older frame alone. *)
Lemma raw_frame_with_mask_in_name_excluded :
  fst (list_recent_images Samples.archive_root 2 false Samples.two_frames)
    = Ret [Samples.plain_frame] /\
  fs Samples.two_frames !! Samples.masked_view_frame
    = Some (File (Samples.shot_time + 60000000) "jpeg") /\
  is_below Samples.archive_root Samples.masked_view_frame = true /\
  overlay_named Samples.masked_view_frame = false /\
  mask_suffix_count (stem Samples.masked_view_frame) = 0%nat /\
  (forall p, _overlay_path p <> Ret Samples.masked_view_frame).
Proof.
  split; [vm_compute; reflexivity|].
  split; [vm_compute; reflexivity|].
  split; [vm_compute; reflexivity|].
  split; [vm_compute; reflexivity|].
  split; [vm_compute; reflexivity|].
  intros p Hp. apply overlay_path_never_plain in Hp.
  vm_compute in Hp. discriminate Hp.
Qed.

(** C5 (amended). On an existing storage root, when no [stat] of a
    candidate fails, [list_recent_images] with [include_overlays = False]
    returns the first [limit] entries (for a limit that is not negative) of
    a list without repetition, ordered by modification time descending,
    of exactly the regular files below the root whose name does not
    contain [_mask].  No overlay, whose name ends with [_mask.png], is
    returned; a raw frame is left out exactly when its name contains
    [_mask]. *)
Theorem list_recent_images_spec (w : State) (root : Path) (limit : Z)
    (Hroot : exists_ w root = true)
    (Hstat : forall p, kept w root p = true -> p ∉ stat_err w) :
  exists sorted,
    list_recent_images root limit false w = (Ret (slice_upto sorted limit), w) /\
    (0 <= limit -> slice_upto sorted limit = firstn (Z.to_nat limit) sorted) /\
    (forall p, In p sorted <-> kept w root p = true) /\
    List.NoDup sorted /\
    newest_first w sorted /\
    (forall p, In p sorted -> overlay_named p = false).
Proof.
  unfold list_recent_images. rewrite Hroot. cbn [negb].
  set (files := List.filter (fun p => negb (_is_overlay p))
                  (List.filter (is_file w) (rglob w root))).
  assert (Hin : forall p, In p files <-> kept w root p = true).
  { intros p. unfold files, kept, _is_overlay.
    rewrite !filter_In, in_rglob, !andb_true_iff.
    split; [tauto|]. intros [[Hb Hf] Hn]. repeat split; try assumption.
    apply is_file_lookup in Hf as (t & d & ->). eauto. }
  assert (Hnd : List.NoDup files).
  { unfold files. apply List.NoDup_filter, List.NoDup_filter, NoDup_rglob. }
  unfold mbind. rewrite sort_keys_ok.
  2:{ intros p Hp. apply Hin in Hp. split; [|now apply Hstat].
      unfold kept in Hp. apply andb_true_iff in Hp as [Hp _].
      now apply andb_true_iff in Hp as [_ Hp]. }
  set (keyed := List.map (fun p => (mtime_of w p, p)) files).
  assert (Hperm : Permutation (List.map snd (sort_desc keyed)) files).
  { rewrite (Permutation_map snd (sort_desc_perm keyed)).
    unfold keyed. rewrite List.map_map. simpl. now rewrite List.map_id. }
  exists (List.map snd (sort_desc keyed)).
  split; [reflexivity|]. split; [|split; [|split; [|split]]].
  - intros Hl. unfold slice_upto. apply Z.leb_le in Hl. now rewrite Hl.
  - intros p. rewrite <- Hin. split; apply Permutation_in;
      [exact Hperm | symmetry; exact Hperm].
  - apply (Permutation_NoDup (l := files)); [symmetry; exact Hperm | exact Hnd].
  - apply sorted_keys_newest_first; [|apply sort_desc_sorted].
    intros x Hx. apply (Permutation_in _ (sort_desc_perm keyed)) in Hx.
    unfold keyed in Hx. apply in_map_iff in Hx as (p & <- & _). reflexivity.
  - intros p Hp. apply (Permutation_in _ Hperm), Hin in Hp.
    unfold kept in Hp. apply andb_true_iff in Hp as [_ Hp].
    apply negb_true_iff in Hp.
    destruct (overlay_named p) eqn:E; [|reflexivity].
    apply overlay_named_contains_mask in E. unfold _is_overlay in E. congruence.
Qed.

Lemma list_recent_images_spec_witness :
  exists sorted,
    list_recent_images Samples.archive_root 2 false Samples.two_frames
      = (Ret (slice_upto sorted 2), Samples.two_frames) /\
    In Samples.plain_frame sorted /\
    ~ In Samples.overlay_frame sorted.
Proof.
  destruct (list_recent_images_spec Samples.two_frames Samples.archive_root 2)
    as (sorted & Hrun & _ & Hin & _ & _ & Hov);
    [vm_compute; reflexivity | intros p _; apply not_elem_of_empty |].
  exists sorted. split; [exact Hrun|]. split.
  - apply Hin. vm_compute. reflexivity.
  - intros H. apply Hov in H. vm_compute in H. discriminate H.
Defined.

(* ===================================================================== *)
(** * Part III: further properties of the code                            *)
(* ===================================================================== *)

(** A run is its outcome and the state it leaves. *)
Lemma pair_eta_fst {A B} (x : A * B) (a : A) : fst x = a -> x = (a, snd x).
Proof. destruct x. simpl. now intros ->. Qed.

(** ** storage.py: [ensure_directories] *)

Lemma mkdir_one_raises (d : Path) (w w1 : State) (e : exn) :
  mkdir_one d w = (Raise e, w1) -> e = OSError /\ w1 = w.
Proof.
  unfold mkdir_one.
  destruct (fs w !! d) as [[?|?]|]; try discriminate.
  - now intros [= <- <-].
  - destruct (bool_decide _); [now intros [= <- <-]|discriminate].
Qed.

Lemma mkdir_one_keeps (d : Path) (w : State) :
  forall q n, fs w !! q = Some n -> fs (snd (mkdir_one d w)) !! q = Some n.
Proof.
  intros q n Hq. unfold mkdir_one.
  destruct (fs w !! d) as [[?|?]|] eqn:Hd; try exact Hq.
  destruct (bool_decide _); [exact Hq|].
  simpl. rewrite lookup_insert_ne; [exact Hq|]. congruence.
Qed.

Lemma mkdir_all_raises (ds : list Path) (w w1 : State) (e : exn) :
  mkdir_all ds w = (Raise e, w1) -> e = OSError.
Proof.
  revert w. induction ds as [|d ds IH]; intros w; [discriminate|].
  cbn [mkdir_all]. unfold mbind.
  destruct (mkdir_one d w) as [[[]|e0] w0] eqn:H1.
  - apply IH.
  - intros [= <- <-]. now apply mkdir_one_raises in H1.
Qed.

(** A regular file on the way makes the walk fail. *)
Lemma mkdir_all_blocked (ds : list Path) (w : State) (q : Path) :
  In q ds -> is_file w q = true -> fst (mkdir_all ds w) = Raise OSError.
Proof.
  revert w. induction ds as [|d ds IH]; intros w Hin Hf; [destruct Hin|].
  cbn [mkdir_all]. unfold mbind.
  destruct (mkdir_one d w) as [[[]|e0] w0] eqn:H1.
  - destruct Hin as [->|Hin].
    + unfold mkdir_one in H1. apply is_file_lookup in Hf as (t & s & Hq).
      rewrite Hq in H1. discriminate.
    + apply IH; [exact Hin|].
      apply is_file_lookup in Hf as (t & s & Hq). apply is_file_lookup.
      exists t, s. pose proof (mkdir_one_keeps d w q _ Hq) as Hk.
      now rewrite H1 in Hk.
  - apply mkdir_one_raises in H1 as [-> _]. reflexivity.
Qed.

(** Where every directory of the walk exists, the walk changes nothing. *)
Lemma mkdir_all_present (ds : list Path) (w : State) :
  (forall q, In q ds -> is_dir w q = true) -> mkdir_all ds w = (Ret tt, w).
Proof.
  induction ds as [|d ds IH]; intros H; [reflexivity|].
  cbn [mkdir_all]. unfold mbind.
  assert (H1 : mkdir_one d w = (Ret tt, w)).
  { unfold mkdir_one. specialize (H d (or_introl eq_refl)). unfold is_dir in H.
    destruct (fs w !! d) as [[?|?]|]; try discriminate. reflexivity. }
  rewrite H1. apply IH. intros q Hq. apply H. now right.
Qed.

Lemma in_ancestors_iff (dir q : Path) :
  In q (ancestors_and_self dir) <->
  exists n, (1 <= n <= List.length dir)%nat /\ q = firstn n dir.
Proof.
  unfold ancestors_and_self. rewrite in_map_iff. split.
  - intros (n & <- & Hn). apply in_seq in Hn. exists n. split; [lia|reflexivity].
  - intros (n & Hn & ->). exists n. split; [reflexivity|]. apply in_seq. lia.
Qed.

Lemma mkdir_all_new_entries (ds : list Path) (w w1 : State) :
  mkdir_all ds w = (Ret tt, w1) ->
  forall q, fs w !! q = None -> fs w1 !! q <> None ->
            In q ds /\ fs w1 !! q = Some (Dir (clock w)).
Proof.
  revert w. induction ds as [|d ds IH]; intros w.
  - intros [= <-] q Hq Hne. contradiction.
  - cbn [mkdir_all]. unfold mbind.
    destruct (mkdir_one d w) as [[[]|e0] w0] eqn:H1; [|discriminate].
    intros H2 q Hq Hne.
    assert (Hclock : clock w0 = clock w).
    { unfold mkdir_one in H1. destruct (fs w !! d) as [[?|?]|];
        try destruct (bool_decide _); try discriminate; now injection H1 as <-. }
    destruct (fs w0 !! q) as [n|] eqn:Hq0.
    + (* created by this step *)
      assert (q = d /\ n = Dir (clock w)) as [-> ->].
      { unfold mkdir_one in H1. destruct (fs w !! d) as [[?|?]|] eqn:Hd; try discriminate.
        - injection H1 as <-. congruence.
        - destruct (bool_decide _); [discriminate|]. injection H1 as <-.
          simpl in Hq0. destruct (decide (d = q)) as [->|Hdq].
          + rewrite lookup_insert_eq in Hq0. now injection Hq0 as <-.
          + rewrite lookup_insert_ne in Hq0 by assumption. congruence. }
      split; [now left|].
      apply mkdir_all_ok in H2 as (_ & _ & Hkeep). now apply Hkeep.
    + destruct (IH w0 H2 q Hq0 Hne) as [Hin Hdir].
      split; [now right|]. now rewrite <- Hclock.
Qed.

Lemma mkdir_all_clock (ds : list Path) (w : State) : clock (snd (mkdir_all ds w)) = clock w.
Proof.
  revert w. induction ds as [|d ds IH]; intros w; [reflexivity|].
  cbn [mkdir_all]. unfold mbind.
  assert (H1 : clock (snd (mkdir_one d w)) = clock w).
  { unfold mkdir_one. destruct (fs w !! d) as [[?|?]|]; try reflexivity.
    destruct (bool_decide _); reflexivity. }
  destruct (mkdir_one d w) as [[[]|e0] w0]; simpl in H1; [|exact H1].
  now rewrite IH.
Qed.

Lemma mkdir_all_keeps (ds : list Path) (w : State) :
  forall q n, fs w !! q = Some n -> fs (snd (mkdir_all ds w)) !! q = Some n.
Proof.
  revert w. induction ds as [|d ds IH]; intros w q n Hq; [exact Hq|].
  cbn [mkdir_all]. unfold mbind.
  pose proof (mkdir_one_keeps d w q n Hq) as H1.
  destruct (mkdir_one d w) as [[[]|e0] w0]; simpl in H1; [|exact H1].
  now apply IH.
Qed.

Lemma is_dir_kept (w w1 : State) (q : Path) :
  (forall p n, fs w !! p = Some n -> fs w1 !! p = Some n) ->
  is_dir w q = true -> is_dir w1 q = true.
Proof.
  intros Hkeep. unfold is_dir.
  destruct (fs w !! q) as [[?|?]|] eqn:E; try discriminate.
  now rewrite (Hkeep _ _ E).
Qed.

Lemma is_file_kept (w w1 : State) (q : Path) :
  (forall p n, fs w !! p = Some n -> fs w1 !! p = Some n) ->
  is_file w q = true -> is_file w1 q = true.
Proof.
  intros Hkeep. unfold is_file.
  destruct (fs w !! q) as [[?|?]|] eqn:E; try discriminate.
  now rewrite (Hkeep _ _ E).
Qed.

(** X1. When [ensure_directories] returns, every path it was given and
    every ancestor of it is a directory; no entry that existed has been
    changed and the only new entries are directories on those paths; a
    second call changes nothing.  When a regular file sits on one of the
    paths or on an ancestor, the call raises OSError. *)
Theorem ensure_directories_effect (paths : list Path) (w : State) :
  (forall w1,
      ensure_directories paths w = (Ret tt, w1) ->
      (forall p n, In p paths -> (1 <= n <= List.length p)%nat ->
                   is_dir w1 (firstn n p) = true) /\
      (forall q node, fs w !! q = Some node -> fs w1 !! q = Some node) /\
      (forall q, fs w !! q = None -> fs w1 !! q <> None ->
                 fs w1 !! q = Some (Dir (clock w)) /\
                 exists p n, In p paths /\ q = firstn n p) /\
      ensure_directories paths w1 = (Ret tt, w1)) /\
  (forall p n, In p paths -> (1 <= n <= List.length p)%nat ->
               is_file w (firstn n p) = true ->
               fst (ensure_directories paths w) = Raise OSError).
Proof.
  revert w. induction paths as [|path rest IH]; intros w.
  - split.
    + intros w1 [= <-]. split; [intros p n []|]. split; [auto|].
      split; [intros q Hq Hne; contradiction|reflexivity].
    + intros p n [].
  - cbn [ensure_directories]. unfold mbind, mkdir_parents. split.
    + intros w1.
      pose proof (mkdir_all_clock (ancestors_and_self path) w) as Hclock.
      destruct (mkdir_all (ancestors_and_self path) w) as [[[]|e] w0] eqn:Hmk;
        [|discriminate].
      simpl in Hclock. intros Hrest.
      destruct (mkdir_all_ok _ _ _ Hmk) as (Hother & Hdirs & Hkeep).
      destruct (proj1 (IH w0) w1 Hrest) as (Hd' & Hkeep' & Hnew' & Hagain').
      split; [|split; [|split]].
      * intros p n [<-|Hp] Hn.
        -- apply (is_dir_kept w0 w1 _ Hkeep').
           apply Hdirs, in_ancestors_iff. eauto.
        -- now apply Hd'.
      * intros q node Hq. eauto.
      * intros q Hq Hne.
        destruct (fs w0 !! q) as [node|] eqn:Hq0.
        -- assert (Hne0 : fs w0 !! q <> None) by (rewrite Hq0; discriminate).
           destruct (mkdir_all_new_entries _ _ _ Hmk q Hq Hne0) as [Hin Hdir].
           split.
           ++ apply Hkeep'. exact Hdir.
           ++ apply in_ancestors_iff in Hin as (n & _ & ->).
              exists path, n. split; [now left|reflexivity].
        -- destruct (Hnew' q Hq0 Hne) as (Hdir & p & n & Hp & ->).
           split; [now rewrite <- Hclock|]. exists p, n. split; [now right|reflexivity].
      * rewrite mkdir_all_present; [exact Hagain'|].
        intros q Hq. apply (is_dir_kept w0 w1 _ Hkeep'). now apply Hdirs.
    + intros p n Hp Hn Hf.
      destruct (mkdir_all (ancestors_and_self path) w) as [[[]|e] w0] eqn:Hmk.
      * destruct Hp as [<-|Hp].
        -- pose proof (mkdir_all_blocked (ancestors_and_self path) w (firstn n path)) as Hb.
           rewrite Hmk in Hb. discriminate Hb; [apply in_ancestors_iff; eauto|exact Hf].
        -- apply (proj2 (IH w0) p n Hp Hn).
           apply (is_file_kept w w0); [|exact Hf].
           intros q node Hq.
           pose proof (mkdir_all_keeps (ancestors_and_self path) w _ _ Hq) as Hk.
           now rewrite Hmk in Hk.
      * apply mkdir_all_raises in Hmk. now subst e.
Qed.

Lemma ensure_directories_effect_witness :
  let dir := (Samples.archive_root ++ ["2023"; "11"; "14"]%string)%list in
  let w1 := snd (ensure_directories [dir] Samples.dropped) in
  is_dir w1 dir = true /\
  is_dir w1 (Samples.archive_root ++ ["2023"%string])%list = true /\
  ensure_directories [dir] w1 = (Ret tt, w1) /\
  fst (ensure_directories [(Samples.shot ++ ["sub"%string])%list] Samples.dropped)
    = Raise OSError.
Proof.
  intros dir w1.
  destruct (ensure_directories_effect [dir] Samples.dropped) as [Hok _].
  destruct (Hok w1) as (Hdirs & _ & _ & Hagain).
  { rewrite (surjective_pairing (ensure_directories _ _)). f_equal. }
  split; [exact (Hdirs dir 5%nat (or_introl eq_refl) ltac:(simpl; lia))|].
  split; [exact (Hdirs dir 3%nat (or_introl eq_refl) ltac:(simpl; lia))|].
  split; [exact Hagain|].
  destruct (ensure_directories_effect [(Samples.shot ++ ["sub"%string])%list] Samples.dropped)
    as [_ Hblocked].
  apply (Hblocked (Samples.shot ++ ["sub"%string])%list 3%nat);
    [now left | simpl; lia | vm_compute; reflexivity].
Defined.

(** ** storage.py: more on the retention sweep *)

Lemma cleanup_older_than_run (w : State) (root : Path) (retention_days : Z) :
  exists_ w root = true ->
  let cutoff := clock w - timedelta_days retention_days in
  exists m,
    cleanup_older_than root retention_days w
      = (Ret (List.filter (swept w cutoff) (rglob w root)), set_fs w m) /\
    forall q, m !! q = if existsb (fun p => bool_decide (p = q))
                            (List.filter (swept w cutoff) (rglob w root))
                       then None else fs w !! q.
Proof.
  intros Hroot cutoff. unfold cleanup_older_than. rewrite Hroot. cbn [negb].
  destruct (cleanup_loop_spec cutoff (rglob w root) (NoDup_rglob w root) [] w)
    as (m & Hrun & Hm).
  exists m. split; [exact Hrun|exact Hm].
Qed.

Lemma swept_is_file (w : State) (cutoff : datetime) (p : Path) :
  swept w cutoff p = true -> is_file w p = true.
Proof.
  unfold swept, expired, is_file. intros H. apply andb_true_iff in H as [H _].
  destruct (fs w !! p) as [[?|?]|]; try discriminate. reflexivity.
Qed.

Lemma filter_none {A} (f : A -> bool) (l : list A) :
  (forall x, In x l -> f x = false) -> List.filter f l = [].
Proof.
  induction l as [|x l IH]; intros H; simpl; [reflexivity|].
  rewrite (H x (or_introl eq_refl)). apply IH. intros y Hy. apply H. now right.
Qed.

Lemma not_below_itself (root : Path) : is_below root root = false.
Proof.
  unfold is_below. rewrite (bool_decide_eq_true_2 (root = root)) by reflexivity.
  apply andb_false_r.
Qed.

(** X2. The sweep is idempotent: a second sweep of the same root, with the
    same retention and at the same clock, deletes nothing, returns the
    empty list and leaves the state as the first one left it. *)
Theorem cleanup_twice (w w' : State) (root : Path) (retention_days : Z)
    (deleted : list Path)
    (Hroot : exists_ w root = true)
    (Hrun : cleanup_older_than root retention_days w = (Ret deleted, w')) :
  cleanup_older_than root retention_days w' = (Ret [], w').
Proof.
  destruct (cleanup_older_than_run w root retention_days Hroot) as (m & Hrun1 & Hm).
  cbv zeta in Hrun1, Hm. rewrite Hrun1 in Hrun. injection Hrun as Hdel Hw'.
  set (cutoff := clock w - timedelta_days retention_days) in *.
  set (gone := List.filter (swept w cutoff) (rglob w root)) in *.
  assert (Hlook : forall q, fs w' !! q = if existsb (fun p => bool_decide (p = q)) gone
                                         then None else fs w !! q).
  { intros q. subst w'. simpl. apply Hm. }
  assert (Hroot' : exists_ w' root = true).
  { unfold exists_ in *. rewrite Hlook.
    destruct (existsb _ gone) eqn:E; [|exact Hroot].
    apply in_filter_existsb in E. unfold gone in E.
    apply filter_In in E as [E _]. apply in_rglob in E as [_ E].
    rewrite not_below_itself in E. discriminate. }
  destruct (cleanup_older_than_run w' root retention_days Hroot') as (m' & Hrun2 & Hm').
  cbv zeta in Hrun2, Hm'.
  assert (Hclock : clock w' = clock w) by (now subst w').
  rewrite Hclock in Hrun2, Hm'. fold cutoff in Hrun2, Hm'.
  assert (Hnone : List.filter (swept w' cutoff) (rglob w' root) = []).
  { apply filter_none. intros p Hp. apply in_rglob in Hp as [[n Hn] Hb].
    rewrite Hlook in Hn.
    destruct (existsb _ gone) eqn:E; [discriminate|].
    assert (Hsame : swept w' cutoff p = swept w cutoff p).
    { unfold swept, expired, os_refuses. rewrite Hlook, E. now subst w'. }
    rewrite Hsame. destruct (swept w cutoff p) eqn:Hs; [|reflexivity].
    exfalso. apply not_true_iff_false in E. apply E, in_filter_existsb.
    unfold gone. apply filter_In. split; [|exact Hs].
    apply in_rglob. split; [eauto|exact Hb]. }
  rewrite Hnone in Hrun2, Hm'. simpl in Hm'.
  rewrite Hrun2. f_equal.
  assert (Hmm : m' = fs w') by (apply map_eq; intros q; apply Hm').
  rewrite Hmm. apply set_fs_same.
Qed.

Lemma cleanup_twice_witness :
  let w' := snd (cleanup_older_than Samples.archive_root 90 Samples.aged) in
  exists_ Samples.aged Samples.archive_root = true /\
  cleanup_older_than Samples.archive_root 90 w' = (Ret [], w').
Proof.
  intros w'.
  assert (Hroot : exists_ Samples.aged Samples.archive_root = true)
    by (vm_compute; reflexivity).
  split; [exact Hroot|].
  apply (cleanup_twice Samples.aged w' Samples.archive_root 90 [Samples.old_frame] Hroot).
  rewrite (surjective_pairing (cleanup_older_than _ _ _)).
  f_equal; vm_compute; reflexivity.
Defined.

(** ** storage.py: more on the listing *)

Lemma sort_keys_state (files : list Path) (w : State) : snd (sort_keys files w) = w.
Proof.
  induction files as [|p files IH]; [reflexivity|].
  cbn [sort_keys]. unfold mbind at 1. unfold stat_mtime at 1.
  destruct (bool_decide (p ∈ stat_err w)); [reflexivity|].
  destruct (fs w !! p) as [[?|?]|]; try reflexivity;
    unfold mbind at 1; destruct (sort_keys files w) as [[ks|e] w0]; simpl in *; congruence.
Qed.

Lemma sort_keys_raises (files : list Path) (w : State) (e : exn) :
  fst (sort_keys files w) = Raise e -> e = OSError.
Proof.
  induction files as [|p files IH]; [discriminate|].
  cbn [sort_keys]. unfold mbind at 1. unfold stat_mtime at 1.
  destruct (bool_decide (p ∈ stat_err w)); [now intros [= <-]|].
  destruct (fs w !! p) as [[?|?]|]; try (now intros [= <-]);
    unfold mbind at 1; destruct (sort_keys files w) as [[ks|e0] w0]; simpl in *;
    try discriminate; intros [= <-]; now apply IH.
Qed.

(** One failing [stat] makes the whole key computation fail. *)
Lemma sort_keys_fails (files : list Path) (w : State) (p : Path) :
  In p files -> p ∈ stat_err w -> sort_keys files w = (Raise OSError, w).
Proof.
  intros Hin Hp.
  destruct (sort_keys files w) as [[ks|e] w0] eqn:Hrun.
  - exfalso. revert ks w0 Hrun. induction files as [|q files IH]; [destruct Hin|].
    intros ks w0. cbn [sort_keys]. unfold mbind at 1. unfold stat_mtime at 1.
    destruct (decide (q ∈ stat_err w)) as [Hq|Hq].
    + rewrite bool_decide_eq_true_2 by assumption. discriminate.
    + rewrite bool_decide_eq_false_2 by assumption.
      destruct Hin as [->|Hin]; [contradiction|].
      destruct (fs w !! q) as [[?|?]|]; try discriminate;
        unfold mbind at 1; destruct (sort_keys files w) as [[ks'|e'] w1] eqn:E;
        try discriminate; intros _; exact (IH Hin ks' w1 eq_refl).
  - pose proof (sort_keys_state files w) as Hs. rewrite Hrun in Hs. simpl in Hs.
    pose proof (sort_keys_raises files w e) as He. rewrite Hrun in He.
    rewrite (He eq_refl), Hs. reflexivity.
Qed.

Lemma in_listed (w : State) (root : Path) (include_overlays : bool) (p : Path) :
  In p (if negb include_overlays
        then List.filter (fun p => negb (_is_overlay p))
               (List.filter (is_file w) (rglob w root))
        else List.filter (is_file w) (rglob w root))
  <-> listed w root include_overlays p = true.
Proof.
  unfold listed. destruct include_overlays; cbn [negb orb].
  - rewrite filter_In, in_rglob, andb_true_r, andb_true_iff.
    split; [tauto|]. intros [Hb Hf]. repeat split; try assumption.
    apply is_file_lookup in Hf as (t & d & ->). eauto.
  - rewrite !filter_In, in_rglob, !andb_true_iff.
    split; [tauto|]. intros [[Hb Hf] Hn]. repeat split; try assumption.
    apply is_file_lookup in Hf as (t & d & ->). eauto.
Qed.

(** X3. [list_recent_images] has no tolerance for a failing [stat]: when
    the modification time of one of the files it has to sort cannot be
    read, the call raises OSError and returns no list, whatever the limit.
    The state is not changed. *)
Theorem list_recent_images_stat_failure (w : State) (root : Path) (limit : Z)
    (include_overlays : bool) (p : Path)
    (Hroot : exists_ w root = true)
    (Hp : listed w root include_overlays p = true)
    (Hfail : p ∈ stat_err w) :
  list_recent_images root limit include_overlays w = (Raise OSError, w).
Proof.
  unfold list_recent_images. rewrite Hroot. cbn [negb].
  unfold mbind. rewrite (sort_keys_fails _ w p); [reflexivity| |exact Hfail].
  now apply in_listed.
Qed.

Lemma list_recent_images_stat_failure_witness :
  exists_ MoreSamples.two_frames_unreadable Samples.archive_root = true /\
  list_recent_images Samples.archive_root 2 false MoreSamples.two_frames_unreadable
    = (Raise OSError, MoreSamples.two_frames_unreadable).
Proof.
  assert (Hroot : exists_ MoreSamples.two_frames_unreadable Samples.archive_root = true)
    by (vm_compute; reflexivity).
  split; [exact Hroot|].
  apply (list_recent_images_stat_failure _ _ _ _ Samples.plain_frame Hroot).
  - vm_compute. reflexivity.
  - change (stat_err MoreSamples.two_frames_unreadable)
      with ({[ Samples.plain_frame ]} : gset Path).
    apply elem_of_singleton. reflexivity.
Defined.

Lemma slice_upto_prefix {A} (l : list A) (limit : Z) :
  exists rest, l = (slice_upto l limit ++ rest)%list.
Proof.
  unfold slice_upto. destruct (0 <=? limit).
  - exists (skipn (Z.to_nat limit) l). symmetry. apply firstn_skipn.
  - exists (skipn (List.length l - Z.to_nat (- limit)) l). symmetry. apply firstn_skipn.
Qed.

Lemma slice_upto_length {A} (l : list A) (limit : Z) :
  List.length (slice_upto l limit) = slice_length (List.length l) limit.
Proof.
  unfold slice_upto, slice_length. destruct (0 <=? limit); rewrite length_firstn; lia.
Qed.

(** X4. On an existing root and with readable modification times,
    [list_recent_images] returns a prefix of the list, newest first and
    without repetition, of the regular files below the root: all of them
    when [include_overlays] is true, those without [_mask] in the name
    otherwise.  The prefix has [min limit n] entries for a limit that is
    not negative (none for 0); for a negative limit it leaves out the
    [-limit] oldest entries.  The state is not changed. *)
Theorem list_recent_images_general (w : State) (root : Path) (limit : Z)
    (include_overlays : bool)
    (Hroot : exists_ w root = true)
    (Hstat : forall p, listed w root include_overlays p = true -> p ∉ stat_err w) :
  exists sorted,
    list_recent_images root limit include_overlays w = (Ret (slice_upto sorted limit), w) /\
    (forall p, In p sorted <->
               is_below root p = true /\ is_file w p = true /\
               (include_overlays = true \/ _is_overlay p = false)) /\
    List.NoDup sorted /\
    newest_first w sorted /\
    (exists older, sorted = (slice_upto sorted limit ++ older)%list) /\
    List.length (slice_upto sorted limit)
      = (if 0 <=? limit then Nat.min (Z.to_nat limit) (List.length sorted)
         else (List.length sorted - Z.to_nat (- limit))%nat).
Proof.
  unfold list_recent_images. rewrite Hroot. cbn [negb].
  set (files := if negb include_overlays
                then List.filter (fun p => negb (_is_overlay p))
                       (List.filter (is_file w) (rglob w root))
                else List.filter (is_file w) (rglob w root)).
  assert (Hin : forall p, In p files <-> listed w root include_overlays p = true)
    by (intros p; apply in_listed).
  assert (Hnd : List.NoDup files).
  { unfold files. destruct (negb include_overlays); [apply List.NoDup_filter|];
      apply List.NoDup_filter, NoDup_rglob. }
  unfold mbind. rewrite sort_keys_ok.
  2:{ intros p Hp. apply Hin in Hp. split; [|now apply Hstat].
      unfold listed in Hp. apply andb_true_iff in Hp as [Hp _].
      now apply andb_true_iff in Hp as [_ Hp]. }
  set (keyed := List.map (fun p => (mtime_of w p, p)) files).
  assert (Hperm : Permutation (List.map snd (sort_desc keyed)) files).
  { rewrite (Permutation_map snd (sort_desc_perm keyed)).
    unfold keyed. rewrite List.map_map. simpl. now rewrite List.map_id. }
  exists (List.map snd (sort_desc keyed)).
  split; [reflexivity|]. split; [|split; [|split; [|split]]].
  - intros p. transitivity (In p files).
    + split; apply Permutation_in; [exact Hperm | symmetry; exact Hperm].
    + rewrite Hin. unfold listed.
      rewrite !andb_true_iff, orb_true_iff, negb_true_iff. tauto.
  - apply (Permutation_NoDup (l := files)); [symmetry; exact Hperm | exact Hnd].
  - apply sorted_keys_newest_first; [|apply sort_desc_sorted].
    intros x Hx. apply (Permutation_in _ (sort_desc_perm keyed)) in Hx.
    unfold keyed in Hx. apply in_map_iff in Hx as (p & <- & _). reflexivity.
  - apply slice_upto_prefix.
  - apply slice_upto_length.
Qed.

Lemma list_recent_images_general_witness :
  exists sorted,
    list_recent_images Samples.archive_root (-1) true Samples.two_frames
      = (Ret (slice_upto sorted (-1)), Samples.two_frames) /\
    In Samples.overlay_frame sorted /\
    List.length (slice_upto sorted (-1)) = (List.length sorted - 1)%nat.
Proof.
  destruct (list_recent_images_general Samples.two_frames Samples.archive_root (-1) true)
    as (sorted & Hrun & Hin & _ & _ & _ & Hlen);
    [vm_compute; reflexivity | intros p _; apply not_elem_of_empty |].
  exists sorted. split; [exact Hrun|]. split; [|exact Hlen].
  apply Hin. split; [vm_compute; reflexivity|]. split; [vm_compute; reflexivity|].
  now left.
Defined.

Example list_recent_negative_limit :
  fst (list_recent_images Samples.archive_root (-1) true Samples.two_frames)
  = Ret [Samples.overlay_frame; Samples.masked_view_frame].
Proof. vm_compute. reflexivity. Qed.

(** ** storage.py: when two frames share a slot *)



(** ** incoming.py: what a relocation leaves in place *)

Lemma ensure_directories_one_keeps (dir : Path) (w : State) :
  forall q n, fs w !! q = Some n -> fs (snd (ensure_directories [dir] w)) !! q = Some n.
Proof.
  intros q n Hq. cbn [ensure_directories]. unfold mbind, mkdir_parents.
  pose proof (mkdir_all_keeps (ancestors_and_self dir) w q n Hq) as H.
  destruct (mkdir_all _ w) as [[[]|e] w0]; exact H.
Qed.

(** The outcomes of [process_file], with the state that each leaves. *)
Lemma process_file_cases (self : IncomingProcessor) (path : Path) (w w' : State)
    (r : result (option Path)) :
  process_file self path w = (r, w') ->
  (archived r = false /\ forall q n, fs w !! q = Some n -> fs w' !! q = Some n) \/
  (exists t d w1 w2 dst,
      fs w !! path = Some (File t d) /\
      ensure_directories [parent (slot self path t)] w = (Ret tt, w1) /\
      shutil_move path (slot self path t) w1 = (Ret dst, w2) /\
      r = Ret (Some dst) /\
      (callback_keeps_fs self -> fs w' = fs w2)).
Proof.
  destruct (fs w !! path) as [[t d|t]|] eqn:Hp;
    try (unfold process_file, is_file; rewrite Hp; intros [= <- <-];
         left; split; [reflexivity|auto]).
  destruct (decide (path ∈ stat_err w)) as [Hin|Hnin].
  { unfold process_file, is_file, mbind, stat_mtime.
    rewrite Hp. cbn [negb]. rewrite bool_decide_eq_true_2 by assumption.
    intros [= <- <-]. left. split; [reflexivity|auto]. }
  rewrite (process_file_run self path w t d Hp Hnin).
  pose proof (ensure_directories_one_keeps (parent (slot self path t)) w) as Hk.
  destruct (ensure_directories _ w) as [[[]|e] w1] eqn:Hmk; simpl in Hk.
  2:{ intros [= <- <-]. left. split; [reflexivity|exact Hk]. }
  destruct (shutil_move path _ w1) as [[dst|e] w2] eqn:Hmv.
  - intros Hrun. right.
    destruct (on_processed self) as [callback|] eqn:Hcb; injection Hrun as <- <-.
    + exists t, d, w1, w2, dst. repeat split; try reflexivity; try assumption.
      intros Hkeep. now apply Hkeep.
    + exists t, d, w1, w2, dst. repeat split; try reflexivity; assumption.
  - intros [= <- <-]. left. apply shutil_move_raises_os in Hmv as [_ ->].
    split; [reflexivity|exact Hk].
Qed.



(** X7. A frame that arrives with the name and the UTC day of a frame
    already archived takes its place: when the slot holds a regular file,
    the day directory exists and the operating system refuses nothing,
    [process_file] returns the slot, and the slot then holds the new file;
    the file that was there is overwritten. *)
Theorem process_file_replaces_archived (self : IncomingProcessor) (path : Path) (w : State)
    (t t0 : Z) (d d0 : string)
    (Hkeep : callback_keeps_fs self)
    (Hsrc : fs w !! path = Some (File t d))
    (Hslot : fs w !! slot self path t = Some (File t0 d0))
    (Hstat : path ∉ stat_err w)
    (Hrename : path ∉ rename_err w)
    (Hdirs : forall n, (1 <= n <= List.length (parent (slot self path t)))%nat ->
                       is_dir w (firstn n (parent (slot self path t))) = true) :
  exists w',
    process_file self path w = (Ret (Some (slot self path t)), w') /\
    fs w' !! slot self path t = Some (File t d) /\
    (path <> slot self path t -> fs w' !! path = None).
Proof.
  rewrite (process_file_run self path w t d Hsrc Hstat).
  assert (Hmk : ensure_directories [parent (slot self path t)] w = (Ret tt, w)).
  { cbn [ensure_directories]. unfold mbind, mkdir_parents.
    rewrite mkdir_all_present; [reflexivity|].
    intros q Hq. apply in_ancestors_iff in Hq as (n & Hn & ->). now apply Hdirs. }
  rewrite Hmk.
  assert (Hparent : is_dir w (parent (slot self path t)) = true).
  { rewrite <- (firstn_all (parent (slot self path t))). apply Hdirs.
    rewrite slot_parts, parent_with_last, length_app. simpl. lia. }
  assert (Hmv : shutil_move path (slot self path t) w
                = (Ret (slot self path t),
                   set_fs w (<[slot self path t := File t d]> (delete path (fs w))))).
  { assert (Hfile : is_dir w (slot self path t) = false)
      by (unfold is_dir; now rewrite Hslot).
    unfold shutil_move. cbv zeta. rewrite !Hfile. cbn [andb].
    rewrite bool_decide_eq_false_2 by assumption. rewrite Hsrc, Hparent. reflexivity. }
  rewrite Hmv.
  destruct (on_processed self) as [callback|] eqn:Hcb.
  - eexists. split; [reflexivity|].
    rewrite (Hkeep callback Hcb). simpl. split.
    + apply lookup_insert_eq.
    + intros Hne. rewrite lookup_insert_ne by congruence. apply lookup_delete_eq.
  - eexists. split; [reflexivity|]. simpl. split.
    + apply lookup_insert_eq.
    + intros Hne. rewrite lookup_insert_ne by congruence. apply lookup_delete_eq.
Qed.

Lemma process_file_replaces_archived_witness :
  exists w',
    process_file Samples.processor Samples.shot MoreSamples.slot_taken
      = (Ret (Some (slot Samples.processor Samples.shot Samples.shot_time)), w') /\
    fs MoreSamples.slot_taken !! slot Samples.processor Samples.shot Samples.shot_time
      = Some (File (Samples.shot_time - 3600 * us_per_second) "earlier") /\
    fs w' !! slot Samples.processor Samples.shot Samples.shot_time
      = Some (File Samples.shot_time "jpeg").
Proof.
  assert (Hold : fs MoreSamples.slot_taken !! slot Samples.processor Samples.shot Samples.shot_time
                 = Some (File (Samples.shot_time - 3600 * us_per_second) "earlier"))
    by (vm_compute; reflexivity).
  destruct (process_file_replaces_archived Samples.processor Samples.shot
              MoreSamples.slot_taken Samples.shot_time
              (Samples.shot_time - 3600 * us_per_second) "jpeg" "earlier")
    as (w' & Hrun & Hnew & _).
  - apply make_processor_keeps_fs.
  - vm_compute. reflexivity.
  - exact Hold.
  - apply not_elem_of_empty.
  - apply not_elem_of_empty.
  - intros n Hn.
    assert (Hlen : List.length (parent (slot Samples.processor Samples.shot Samples.shot_time))
                   = 5%nat) by (vm_compute; reflexivity).
    rewrite Hlen in Hn.
    do 6 (try destruct n as [|n]); try lia; vm_compute; reflexivity.
  - exists w'. split; [exact Hrun|]. split; [exact Hold|exact Hnew].
Defined.

(** ** main.py: what the recorded time is *)

Lemma process_file_clock (incoming storage path : Path) (w : State) :
  clock (snd (process_file (make_processor incoming storage) path w)) = clock w.
Proof.
  destruct (fs w !! path) as [[t d|t]|] eqn:Hp;
    try (unfold process_file, is_file; rewrite Hp; reflexivity).
  destruct (decide (path ∈ stat_err w)) as [Hin|Hnin].
  { unfold process_file, is_file, mbind, stat_mtime.
    rewrite Hp. cbn [negb]. rewrite bool_decide_eq_true_2 by assumption. reflexivity. }
  rewrite (process_file_run _ path w t d Hp Hnin).
  assert (Hmk : clock (snd (ensure_directories
                              [parent (slot (make_processor incoming storage) path t)] w))
                = clock w).
  { cbn [ensure_directories]. unfold mbind, mkdir_parents.
    pose proof (mkdir_all_clock
                  (ancestors_and_self (parent (slot (make_processor incoming storage) path t)))
                  w) as H.
    destruct (mkdir_all _ w) as [[[]|e] w0]; exact H. }
  destruct (ensure_directories _ w) as [[[]|e] w1]; simpl in Hmk; [|exact Hmk].
  assert (Hmv : clock (snd (shutil_move path
                              (slot (make_processor incoming storage) path t) w1))
                = clock w1).
  { unfold shutil_move.
    destruct (is_dir w1 _ && exists_ w1 _); [reflexivity|].
    destruct (bool_decide _); [reflexivity|].
    destruct (fs w1 !! path); [|reflexivity].
    destruct (is_dir w1 (parent _)); reflexivity. }
  destruct (shutil_move path _ w1) as [[dst|e] w2]; simpl in *; congruence.
Qed.

(** X8. The time recorded by a successful relocation is the modification
    time of the frame, not the time of the relocation.  So a frame that is
    already older than the delay threshold when it is archived leaves the
    staleness warning on: the dashboard, asked at that same instant,
    reports the delay. *)
Theorem stale_frame_keeps_warning (incoming storage path dst : Path) (w w' : State)
    (settings : Settings)
    (Hrun : process_file (make_processor incoming storage) path w = (Ret (Some dst), w'))
    (Hon : delay_monitor_enabled settings = true) :
  exists T d,
    fs w !! path = Some (File T d) /\
    OS.last_image_at w' = Some T /\
    (delay_threshold_seconds settings * us_per_second < clock w - T ->
     dashboard_delay_warning settings w' = true).
Proof.
  pose proof (process_file_last_image_at incoming storage path w) as Hlast.
  pose proof (process_file_clock incoming storage path w) as Hclock.
  rewrite Hrun in Hlast, Hclock. simpl in Hlast, Hclock.
  destruct Hlast as (T & d & Hp & HT).
  exists T, d. split; [exact Hp|]. split; [exact HT|].
  intros Hold. unfold dashboard_delay_warning. rewrite HT, Hclock.
  apply delay_warning_true. split; [exact Hon|].
  exists T. split; [reflexivity|].
  unfold total_seconds, fromtimestamp, Qlt, us_per_second in *. simpl. lia.
Qed.

Lemma stale_frame_keeps_warning_witness :
  let w' := snd (process_file Samples.processor Samples.shot MoreSamples.late_drop) in
  OS.last_image_at w' = Some Samples.shot_time /\
  dashboard_delay_warning default_settings w' = true.
Proof.
  intros w'.
  destruct (stale_frame_keeps_warning Samples.drop_root Samples.archive_root Samples.shot
              (slot Samples.processor Samples.shot Samples.shot_time)
              MoreSamples.late_drop w' default_settings)
    as (T & d & Hsrc & Hlast & Hwarn).
  - change (make_processor Samples.drop_root Samples.archive_root) with Samples.processor.
    rewrite (surjective_pairing (process_file _ _ _)). f_equal; vm_compute; reflexivity.
  - reflexivity.
  - assert (HT : Some (File T d) = Some (File Samples.shot_time "jpeg"))
      by (rewrite <- Hsrc; vm_compute; reflexivity).
    injection HT as -> ->.
    split; [exact Hlast|]. apply Hwarn. vm_compute. reflexivity.
Defined.

(** ** detection.py: the analysis, stage by stage *)

Lemma analyze_detection_steps (cv : Backend) (latest_path previous_path : Path)
    (settings : Settings) (mask_path : Path) (w : State) (img_latest img_prev : Mat3) :
  imread cv w latest_path = Some img_latest ->
  imread cv w previous_path = Some img_prev ->
  let diff := frame_diff cv settings img_latest img_prev in
  let mask := _load_mask_image cv w mask_path (shape diff) (mask_inclusive settings) in
  let binary := change_mask settings diff mask in
  analyze_detection cv latest_path previous_path settings mask_path w =
  match (if 0 <? countNonZero mask
         then truediv (countNonZero binary) (countNonZero mask) else Ret 0%Q) with
  | Raise e => (Raise e, w)
  | Ret rate =>
      match _overlay_path latest_path with
      | Raise e => (Raise e, w)
      | Ret overlay =>
          (Ret (Some {| detection_rate := rate;
                        changed_pixels := countNonZero binary;
                        mask_pixels := countNonZero mask;
                        overlay_path := Some overlay;
                        alarm := Qle_bool (threshold settings) rate |}),
           snd (imwrite overlay (overlay_png cv img_latest binary settings) w))
      end
  end.
Proof.
  intros Hl Hp. cbv zeta. unfold analyze_detection, _read_image. rewrite Hl, Hp.
  fold (smoothed cv settings img_latest).
  fold (smoothed cv settings (_resize_if_needed cv img_prev (shape3 img_latest))).
  fold (frame_diff cv settings img_latest img_prev).
  set (diff := frame_diff cv settings img_latest img_prev).
  set (mask := _load_mask_image cv w mask_path (shape diff) (mask_inclusive settings)).
  fold (change_mask settings diff mask).
  destruct (if 0 <? _ then _ else _) as [rate|e]; [|reflexivity].
  destruct (_overlay_path latest_path) as [overlay|e]; [|reflexivity].
  unfold mbind, imwrite, ret.
  destruct (is_dir w (parent overlay) && negb (is_dir w overlay)); reflexivity.
Qed.

(** The rate that a pair of counts gives: never an exception, never
    negative. *)
Lemma rate_of_counts (changed mask_pixels : Z) :
  0 <= changed ->
  exists rate,
    (if 0 <? mask_pixels then truediv changed mask_pixels else Ret 0%Q) = Ret rate /\
    (0 <= rate)%Q /\ (changed = 0 -> (rate == 0)%Q).
Proof.
  intros Hc. destruct (0 <? mask_pixels) eqn:Hpos.
  - apply Z.ltb_lt in Hpos.
    destruct (truediv_positive _ _ Hc Hpos) as (q & Hq & Heq & Hq0 & _).
    exists q. split; [exact Hq|]. split; [exact Hq0|].
    intros ->. rewrite Heq. reflexivity.
  - exists 0%Q. split; [reflexivity|]. split; [apply Qle_refl|reflexivity].
Qed.

(** What a returned result is made of. *)
Lemma analyze_detection_result (cv : Backend) (latest_path previous_path : Path)
    (settings : Settings) (mask_path : Path) (w w' : State) (r : DetectionResult) :
  analyze_detection cv latest_path previous_path settings mask_path w = (Ret (Some r), w') ->
  exists img_latest img_prev overlay,
    imread cv w latest_path = Some img_latest /\
    imread cv w previous_path = Some img_prev /\
    _overlay_path latest_path = Ret overlay /\
    let diff := frame_diff cv settings img_latest img_prev in
    let mask := _load_mask_image cv w mask_path (shape diff) (mask_inclusive settings) in
    let binary := change_mask settings diff mask in
    changed_pixels r = countNonZero binary /\
    mask_pixels r = countNonZero mask /\
    overlay_path r = Some overlay /\
    alarm r = Qle_bool (threshold settings) (detection_rate r) /\
    (0 <= detection_rate r)%Q /\
    (changed_pixels r = 0 -> (detection_rate r == 0)%Q) /\
    w' = snd (imwrite overlay (overlay_png cv img_latest binary settings) w).
Proof.
  intros Hrun.
  destruct (imread cv w latest_path) as [img_latest|] eqn:Hl;
    [|unfold analyze_detection, _read_image in Hrun; rewrite Hl in Hrun; discriminate].
  destruct (imread cv w previous_path) as [img_prev|] eqn:Hp;
    [|unfold analyze_detection, _read_image in Hrun; rewrite Hl, Hp in Hrun; discriminate].
  rewrite (analyze_detection_steps cv latest_path previous_path settings mask_path w
             img_latest img_prev Hl Hp) in Hrun.
  cbv zeta in Hrun.
  set (diff := frame_diff cv settings img_latest img_prev) in *.
  set (mask := _load_mask_image cv w mask_path (shape diff) (mask_inclusive settings)) in *.
  set (binary := change_mask settings diff mask) in *.
  destruct (rate_of_counts (countNonZero binary) (countNonZero mask)
              (countNonZero_nonneg binary)) as (rate & Hrate & Hr0 & Hzero).
  rewrite Hrate in Hrun.
  destruct (_overlay_path latest_path) as [overlay|e] eqn:Ho; [|discriminate].
  injection Hrun as <- <-.
  exists img_latest, img_prev, overlay. repeat split; try reflexivity; assumption.
Qed.

(** X9. The alarm flag of a result is set exactly when the rate is at
    least the threshold: a rate equal to the threshold alarms.  As the
    rate is never negative, a threshold of 0 (which the settings allow)
    makes every evaluation of two decodable frames an alarm. *)
Theorem alarm_is_inclusive (cv : Backend) (latest_path previous_path : Path)
    (settings : Settings) (mask_path : Path) (w w' : State) (r : DetectionResult)
    (Hrun : analyze_detection cv latest_path previous_path settings mask_path w
            = (Ret (Some r), w')) :
  (alarm r = true <-> (threshold settings <= detection_rate r)%Q) /\
  ((threshold settings == detection_rate r)%Q -> alarm r = true) /\
  ((threshold settings <= 0)%Q -> alarm r = true).
Proof.
  destruct (analyze_detection_result _ _ _ _ _ _ _ _ Hrun)
    as (a & b & overlay & _ & _ & _ & H).
  cbv zeta in H. destruct H as (_ & _ & _ & Halarm & Hr0 & _).
  rewrite Halarm, Qle_bool_iff.
  split; [reflexivity|]. split.
  - intros Heq. rewrite Heq. apply Qle_refl.
  - intros Hth. eapply Qle_trans; eassumption.
Qed.

Lemma alarm_is_inclusive_witness :
  (threshold default_settings <= 25 # 24)%Q.
Proof.
  destruct (alarm_is_inclusive DetectionSamples.backend DetectionSamples.latest
              DetectionSamples.previous default_settings DetectionSamples.mask_file
              DetectionSamples.with_ring_mask
              (snd (analyze_detection DetectionSamples.backend DetectionSamples.latest
                      DetectionSamples.previous default_settings DetectionSamples.mask_file
                      DetectionSamples.with_ring_mask))
              {| detection_rate := 25 # 24;
                 changed_pixels := 25;
                 mask_pixels := 24;
                 overlay_path := Some (DetectionSamples.day_dir ++ ["cam_0002_mask.png"%string]);
                 alarm := true |}) as [Hiff _].
  - apply pair_eta_fst. exact analyze_ring_mask.
  - apply Hiff. reflexivity.
Defined.

(** ** detection.py: two identical frames *)

Lemma near_in_range (n i j : nat) : In j (near n i) -> (j < n)%nat.
Proof. unfold near. rewrite filter_In. intros [_ H]. now apply Nat.ltb_lt. Qed.

Lemma near_self (n i : nat) : (i < n)%nat -> In i (near n i).
Proof.
  intros H. unfold near. apply filter_In. split; [|now apply Nat.ltb_lt].
  destruct i; simpl; auto.
Qed.

Lemma window_in_range (m : Mat) (r c : nat) (v : Z) :
  In v (window m r c) ->
  exists r' c', (r' < rows m)%nat /\ (c' < cols m)%nat /\ v = px m r' c'.
Proof.
  unfold window. rewrite in_flat_map. intros (r' & Hr & Hv).
  apply in_map_iff in Hv as (c' & <- & Hc).
  exists r', c'. split; [now apply near_in_range in Hr|].
  split; [now apply near_in_range in Hc|reflexivity].
Qed.

Lemma window_self (m : Mat) (r c : nat) :
  (r < rows m)%nat -> (c < cols m)%nat -> In (px m r c) (window m r c).
Proof.
  intros Hr Hc. unfold window. apply in_flat_map. exists r.
  split; [now apply near_self|]. apply in_map_iff. exists c.
  split; [reflexivity|now apply near_self].
Qed.

Lemma fold_min_zeros (l : list Z) :
  l <> [] -> (forall v, In v l -> v = 0) -> fold_right Z.min 255 l = 0.
Proof.
  induction l as [|x l IH]; intros Hne H; [contradiction|].
  simpl. rewrite (H x (or_introl eq_refl)).
  destruct l as [|y l]; [reflexivity|].
  rewrite IH; [reflexivity|discriminate|]. intros v Hv. apply H. now right.
Qed.

Lemma fold_max_zeros (l : list Z) :
  (forall v, In v l -> v = 0) -> fold_right Z.max 0 l = 0.
Proof.
  induction l as [|x l IH]; intros H; [reflexivity|].
  simpl. rewrite (H x (or_introl eq_refl)), IH; [reflexivity|].
  intros v Hv. apply H. now right.
Qed.

Lemma window_blank (m : Mat) (r c : nat) :
  blank m -> forall v, In v (window m r c) -> v = 0.
Proof.
  intros Hb v Hv. apply window_in_range in Hv as (r' & c' & Hr & Hc & ->).
  now apply Hb.
Qed.

Lemma erode3_blank (m : Mat) : blank m -> blank (erode3 m).
Proof.
  intros Hb r c Hr Hc. simpl in *. apply fold_min_zeros.
  - intros Hnil. pose proof (window_self m r c Hr Hc) as Hin. rewrite Hnil in Hin.
    destruct Hin.
  - now apply window_blank.
Qed.

Lemma dilate3_blank (m : Mat) : blank m -> blank (dilate3 m).
Proof.
  intros Hb r c Hr Hc. simpl in *. apply fold_max_zeros. now apply window_blank.
Qed.

Lemma countNonZero_blank (m : Mat) : blank m -> countNonZero m = 0.
Proof.
  intros Hb. unfold countNonZero.
  assert (H : list_sum (List.map (count_row m) (seq 0 (rows m))) = 0%nat); [|now rewrite H].
  assert (Hrows : forall r, In r (seq 0 (rows m)) -> count_row m r = 0%nat).
  { intros r Hr. apply in_seq in Hr. unfold count_row.
    rewrite filter_none; [reflexivity|].
    intros c Hc. apply in_seq in Hc. rewrite Hb by lia. reflexivity. }
  induction (seq 0 (rows m)) as [|r l IH]; [reflexivity|].
  simpl. rewrite Hrows by now left. apply IH. intros r' Hr'. apply Hrows. now right.
Qed.

Lemma change_mask_blank (settings : Settings) (diff mask : Mat) :
  0 <= binary_threshold settings ->
  (forall r c, px diff r c = 0) ->
  countNonZero (change_mask settings diff mask) = 0.
Proof.
  intros Hth Hdiff. apply countNonZero_blank. unfold change_mask, morph_close, morph_open.
  apply erode3_blank, dilate3_blank, dilate3_blank, erode3_blank.
  intros r c _ _. simpl. rewrite !Hdiff. change (Z.land 0 0) with 0.
  assert (E : (binary_threshold settings <? 0) = false) by (apply Z.ltb_ge; lia).
  destruct (px mask r c =? 0); now rewrite E.
Qed.

(** X10. Two frames that decode to the same image show no change: with a
    binary threshold that is not negative, the result has no changed pixel
    and a rate of 0, whatever the mask, and it alarms only under a
    threshold of 0. *)
Theorem identical_frames_no_change (cv : Backend) (latest_path previous_path : Path)
    (settings : Settings) (mask_path : Path) (w w' : State) (img : Mat3)
    (r : DetectionResult)
    (Hlatest : imread cv w latest_path = Some img)
    (Hprev : imread cv w previous_path = Some img)
    (Hth : 0 <= binary_threshold settings)
    (Hrun : analyze_detection cv latest_path previous_path settings mask_path w
            = (Ret (Some r), w')) :
  changed_pixels r = 0 /\
  (detection_rate r == 0)%Q /\
  (alarm r = true <-> (threshold settings <= 0)%Q).
Proof.
  destruct (analyze_detection_result _ _ _ _ _ _ _ _ Hrun)
    as (a & b & overlay & Ha & Hb & _ & H).
  rewrite Hlatest in Ha. rewrite Hprev in Hb. injection Ha as <-. injection Hb as <-.
  cbv zeta in H. destruct H as (Hchanged & _ & _ & Halarm & _ & Hzero & _).
  assert (Hc : changed_pixels r = 0).
  { rewrite Hchanged. apply change_mask_blank; [exact Hth|].
    intros row col. unfold frame_diff, _resize_if_needed.
    rewrite bool_decide_eq_true_2 by reflexivity. simpl.
    now rewrite Z.sub_diag. }
  split; [exact Hc|]. split; [now apply Hzero|].
  rewrite Halarm, Qle_bool_iff, (Hzero Hc). reflexivity.
Qed.

Lemma identical_frames_no_change_witness :
  exists r w',
    analyze_detection DetectionSamples.backend DetectionSamples.latest
      DetectionSamples.latest default_settings DetectionSamples.mask_file
      DetectionSamples.with_ring_mask = (Ret (Some r), w') /\
    changed_pixels r = 0 /\ alarm r = false.
Proof.
  set (run := analyze_detection DetectionSamples.backend DetectionSamples.latest
                DetectionSamples.latest default_settings DetectionSamples.mask_file
                DetectionSamples.with_ring_mask).
  set (r := {| detection_rate := 0 # 24;
               changed_pixels := 0;
               mask_pixels := 24;
               overlay_path := Some (DetectionSamples.day_dir ++ ["cam_0002_mask.png"%string]);
               alarm := false |}).
  assert (Hrun : run = (Ret (Some r), snd run)).
  { apply pair_eta_fst. vm_compute. reflexivity. }
  exists r, (snd run). split; [exact Hrun|].
  destruct (identical_frames_no_change DetectionSamples.backend DetectionSamples.latest
              DetectionSamples.latest default_settings DetectionSamples.mask_file
              DetectionSamples.with_ring_mask (snd run) (DetectionSamples.uniform3 5 255) r)
    as (Hc & _ & _).
  - vm_compute. reflexivity.
  - vm_compute. reflexivity.
  - vm_compute. discriminate.
  - exact Hrun.
  - split; [exact Hc|reflexivity].
Defined.

(** ** detection.py: what the analysis writes *)

Lemma overlay_path_is_overlay (p q : Path) : _overlay_path p = Ret q -> _is_overlay q = true.
Proof.
  unfold _overlay_path, with_name.
  destruct (String.eqb (name p) EmptyString); [discriminate|].
  destruct (valid_name _); [|discriminate].
  intros [= <-]. unfold _is_overlay, contains. rewrite name_with_last, chars_app.
  change (chars "_mask.png") with (chars "_mask" ++ chars ".png")%list.
  apply contains_chars_app.
Qed.

Lemma imwrite_frame (p : Path) (data : string) (w : State) :
  forall q, q <> p -> fs (snd (imwrite p data w)) !! q = fs w !! q.
Proof.
  intros q Hq. unfold imwrite.
  destruct (is_dir w (parent p) && negb (is_dir w p)); [|reflexivity].
  simpl. now rewrite lookup_insert_ne by congruence.
Qed.

Lemma analyze_detection_no_result (cv : Backend) (latest_path previous_path : Path)
    (settings : Settings) (mask_path : Path) (w w' : State)
    (r : result (option DetectionResult)) :
  analyze_detection cv latest_path previous_path settings mask_path w = (r, w') ->
  (forall res, r <> Ret (Some res)) -> w' = w.
Proof.
  intros Hrun Hnot.
  destruct (imread cv w latest_path) as [img_latest|] eqn:Hl;
    [|unfold analyze_detection, _read_image in Hrun; rewrite Hl in Hrun; congruence].
  destruct (imread cv w previous_path) as [img_prev|] eqn:Hp;
    [|unfold analyze_detection, _read_image in Hrun; rewrite Hl, Hp in Hrun; congruence].
  rewrite (analyze_detection_steps cv latest_path previous_path settings mask_path w
             img_latest img_prev Hl Hp) in Hrun.
  cbv zeta in Hrun.
  destruct (if 0 <? _ then _ else _) as [rate|e]; [|congruence].
  destruct (_overlay_path latest_path) as [overlay|e]; [|congruence].
  injection Hrun as <- _. exfalso. eapply Hnot. reflexivity.
Qed.

(** X11. The only entry that [analyze_detection] can write is the overlay
    of the latest frame, and it writes nothing when it returns no result.
    The overlay has [_mask] in its name, so it is never among the files
    that [list_recent_images] offers as inputs: after an analysis the
    candidates of the next evaluation, and their modification times, are
    what they were before. *)
Theorem analyze_detection_effect (cv : Backend) (latest_path previous_path : Path)
    (settings : Settings) (mask_path : Path) (w w' : State)
    (r : result (option DetectionResult))
    (Hrun : analyze_detection cv latest_path previous_path settings mask_path w = (r, w')) :
  ((forall res, r <> Ret (Some res)) -> w' = w) /\
  (forall res, r = Ret (Some res) ->
     exists overlay,
       overlay_path res = Some overlay /\
       _overlay_path latest_path = Ret overlay /\
       _is_overlay overlay = true /\
       (forall q, q <> overlay -> fs w' !! q = fs w !! q)) /\
  (forall root p, listed w' root false p = listed w root false p) /\
  (forall root p, listed w root false p = true -> mtime_of w' p = mtime_of w p).
Proof.
  assert (Hcases : w' = w \/
                   exists overlay res,
                     r = Ret (Some res) /\ overlay_path res = Some overlay /\
                     _overlay_path latest_path = Ret overlay /\
                     forall q, q <> overlay -> fs w' !! q = fs w !! q).
  { destruct r as [[res|]|e].
    - right.
      destruct (analyze_detection_result _ _ _ _ _ _ _ _ Hrun)
        as (a & b & overlay & _ & _ & Ho & H).
      cbv zeta in H. destruct H as (_ & _ & Hov & _ & _ & _ & ->).
      exists overlay, res. split; [reflexivity|]. split; [exact Hov|]. split; [exact Ho|].
      apply imwrite_frame.
    - left. eapply analyze_detection_no_result; [exact Hrun|]. discriminate.
    - left. eapply analyze_detection_no_result; [exact Hrun|]. discriminate. }
  assert (Hlisted : forall root p,
             listed w' root false p = listed w root false p /\
             (listed w root false p = true -> mtime_of w' p = mtime_of w p)).
  { intros root p.
    destruct Hcases as [->|(overlay & res & _ & _ & Ho & Hother)]; [split; reflexivity|].
    destruct (decide (p = overlay)) as [->|Hne].
    - unfold listed. rewrite (overlay_path_is_overlay _ _ Ho). cbn [negb orb].
      rewrite !andb_false_r. split; [reflexivity|discriminate].
    - unfold listed, is_file, mtime_of. rewrite (Hother p Hne). split; reflexivity. }
  split; [|split; [|split]].
  - apply (analyze_detection_no_result _ _ _ _ _ _ _ _ Hrun).
  - intros res ->.
    destruct Hcases as [->|(overlay & res' & [= <-] & Hov & Ho & Hother)].
    + destruct (analyze_detection_result _ _ _ _ _ _ _ _ Hrun)
        as (a & b & overlay & _ & _ & Ho & H).
      cbv zeta in H. destruct H as (_ & _ & Hov & _).
      exists overlay. split; [exact Hov|]. split; [exact Ho|].
      split; [now apply (overlay_path_is_overlay latest_path)|]. reflexivity.
    + exists overlay. split; [exact Hov|]. split; [exact Ho|].
      split; [now apply (overlay_path_is_overlay latest_path)|exact Hother].
  - intros root p. apply Hlisted.
  - intros root p. apply Hlisted.
Qed.

Lemma analyze_detection_effect_witness :
  let w := DetectionSamples.with_ring_mask in
  let w' := snd (analyze_detection DetectionSamples.backend DetectionSamples.latest
                   DetectionSamples.previous default_settings DetectionSamples.mask_file w) in
  listed w' Samples.archive_root false DetectionSamples.latest
  = listed w Samples.archive_root false DetectionSamples.latest.
Proof.
  intros w w'.
  destruct (analyze_detection_effect DetectionSamples.backend DetectionSamples.latest
              DetectionSamples.previous default_settings DetectionSamples.mask_file w w'
              (fst (analyze_detection DetectionSamples.backend DetectionSamples.latest
                      DetectionSamples.previous default_settings
                      DetectionSamples.mask_file w)))
    as (_ & _ & Hlisted & _).
  - apply surjective_pairing.
  - apply Hlisted.
Defined.

(** ** detection.py: [_parse_overlay_color] *)

Example parse_default_color : _parse_overlay_color "#ff69b4" (0, 0, 0) = default_color.
Proof. reflexivity. Qed.

Example parse_upper_case : _parse_overlay_color "#FF69B4" (0, 0, 0) = (255, 105, 180).
Proof. reflexivity. Qed.

Example parse_not_hex : _parse_overlay_color "#gg0000" default_color = default_color.
Proof. reflexivity. Qed.

Example parse_short : _parse_overlay_color "#fff" default_color = default_color.
Proof. reflexivity. Qed.

Example parse_signed : _parse_overlay_color "#-f+a 1" default_color = (-15, 10, 1).
Proof. reflexivity. Qed.

Lemma hex_digit_range (c : ascii) (v : Z) : hex_digit c = Some v -> 0 <= v <= 15.
Proof.
  unfold hex_digit.
  destruct ((48 <=? code c) && (code c <=? 57)) eqn:E1.
  - intros [= <-]. apply andb_true_iff in E1 as [H1 H2]. lia.
  - destruct ((97 <=? code c) && (code c <=? 102)) eqn:E2.
    + intros [= <-]. apply andb_true_iff in E2 as [H1 H2]. lia.
    + destruct ((65 <=? code c) && (code c <=? 70)) eqn:E3; [|discriminate].
      intros [= <-]. apply andb_true_iff in E3 as [H1 H2]. lia.
Qed.

Lemma int16_pair_range (a b : ascii) (v : Z) : int16_pair a b = Some v -> -15 <= v <= 255.
Proof.
  unfold int16_pair.
  destruct (is_space a).
  - destruct (is_space b); [discriminate|]. intros H. apply hex_digit_range in H. lia.
  - destruct (is_space b); [intros H; apply hex_digit_range in H; lia|].
    destruct (sign a) as [s|] eqn:Hs.
    + destruct (hex_digit b) as [y|] eqn:Hy; [|discriminate].
      intros [= <-]. apply hex_digit_range in Hy.
      unfold sign in Hs. destruct (Ascii.eqb a "+"); [injection Hs as <-; lia|].
      destruct (Ascii.eqb a "-"); [injection Hs as <-; lia|discriminate].
    + destruct (hex_digit a) as [x|] eqn:Hx; [|discriminate].
      destruct (hex_digit b) as [y|] eqn:Hy; [|discriminate].
      intros [= <-]. apply hex_digit_range in Hx, Hy. lia.
Qed.

Lemma hex_digit_code (c : ascii) (v : Z) :
  hex_digit c = Some v ->
  48 <= code c <= 57 \/ 65 <= code c <= 70 \/ 97 <= code c <= 102.
Proof.
  unfold hex_digit.
  destruct ((48 <=? code c) && (code c <=? 57)) eqn:E1.
  - intros _. apply andb_true_iff in E1 as [H1 H2]. lia.
  - destruct ((97 <=? code c) && (code c <=? 102)) eqn:E2.
    + intros _. apply andb_true_iff in E2 as [H1 H2]. lia.
    + destruct ((65 <=? code c) && (code c <=? 70)) eqn:E3; [|discriminate].
      intros _. apply andb_true_iff in E3 as [H1 H2]. lia.
Qed.

Lemma hex_digit_not_special (c : ascii) (v : Z) :
  hex_digit c = Some v -> is_space c = false /\ sign c = None.
Proof.
  intros H. apply hex_digit_code in H. split.
  - destruct (is_space c) eqn:E; [exfalso|reflexivity].
    unfold is_space in E.
    rewrite !orb_true_iff, andb_true_iff, !Z.leb_le, !Z.eqb_eq in E. lia.
  - unfold sign.
    destruct (Ascii.eqb c "+") eqn:Ep.
    { apply Ascii.eqb_eq in Ep. subst c. change (code "+") with 43 in H. lia. }
    destruct (Ascii.eqb c "-") eqn:Em; [|reflexivity].
    apply Ascii.eqb_eq in Em. subst c. change (code "-") with 45 in H. lia.
Qed.

Lemma int16_pair_digits (a b : ascii) (x y : Z) :
  hex_digit a = Some x -> hex_digit b = Some y -> int16_pair a b = Some (16 * x + y).
Proof.
  intros Ha Hb. unfold int16_pair.
  destruct (hex_digit_not_special a x Ha) as [-> ->].
  destruct (hex_digit_not_special b y Hb) as [-> _].
  now rewrite Ha, Hb.
Qed.

(** X12. [_parse_overlay_color] never raises.  A string that has not
    exactly seven characters, or does not start with [#], gives the
    fallback.  A [#] followed by six hexadecimal digits, in either case,
    gives the three channel values they spell, each a byte.  Whatever the
    string, the result is the fallback or three values between -15 and
    255: a negative channel is possible, because the two characters of a
    channel are read by [int], which accepts a sign. *)
Theorem parse_overlay_color_spec (color_str : string) (fallback : Z * Z * Z) :
  (len color_str <> 7 \/ startswith color_str "#" = false ->
   _parse_overlay_color color_str fallback = fallback) /\
  (forall c1 c2 c3 c4 c5 c6 h1 h2 h3 h4 h5 h6,
      color_str = str ["#"%char; c1; c2; c3; c4; c5; c6] ->
      hex_digit c1 = Some h1 -> hex_digit c2 = Some h2 ->
      hex_digit c3 = Some h3 -> hex_digit c4 = Some h4 ->
      hex_digit c5 = Some h5 -> hex_digit c6 = Some h6 ->
      _parse_overlay_color color_str fallback
        = (16 * h1 + h2, 16 * h3 + h4, 16 * h5 + h6) /\
      is_byte (16 * h1 + h2) /\ is_byte (16 * h3 + h4) /\ is_byte (16 * h5 + h6)) /\
  (_parse_overlay_color color_str fallback = fallback \/
   let '(r, g, b) := _parse_overlay_color color_str fallback in
   -15 <= r <= 255 /\ -15 <= g <= 255 /\ -15 <= b <= 255).
Proof.
  split; [|split].
  - unfold _parse_overlay_color. intros [Hlen | ->].
    + apply Z.eqb_neq in Hlen. now rewrite Hlen.
    + now rewrite andb_false_r.
  - intros c1 c2 c3 c4 c5 c6 h1 h2 h3 h4 h5 h6 -> H1 H2 H3 H4 H5 H6.
    split.
    + unfold _parse_overlay_color, len, startswith. rewrite chars_str.
      cbn [List.length Z.of_nat Pos.of_succ_nat Pos.succ Z.eqb Pos.eqb andb].
      change (starts_with (chars "#") ("#"%char :: [c1; c2; c3; c4; c5; c6])) with true.
      cbv iota.
      now rewrite (int16_pair_digits _ _ _ _ H1 H2), (int16_pair_digits _ _ _ _ H3 H4),
        (int16_pair_digits _ _ _ _ H5 H6).
    + apply hex_digit_range in H1, H2, H3, H4, H5, H6. unfold is_byte. lia.
  - unfold _parse_overlay_color.
    destruct ((len color_str =? 7) && startswith color_str "#"); [|now left].
    destruct (chars color_str) as [|c0 [|r1 [|r2 [|g1 [|g2 [|b1 [|b2 [|x l]]]]]]]];
      try (now left).
    destruct (int16_pair r1 r2) as [r|] eqn:Hr; [|now left].
    destruct (int16_pair g1 g2) as [g|] eqn:Hg; [|now left].
    destruct (int16_pair b1 b2) as [b|] eqn:Hb; [|now left].
    right. apply int16_pair_range in Hr, Hg, Hb. tauto.
Qed.

Lemma parse_overlay_color_spec_witness :
  _parse_overlay_color "#ff69b4" (0, 0, 0) = (255, 105, 180) /\
  _parse_overlay_color "ff69b4" default_color = default_color.
Proof.
  split.
  - destruct (parse_overlay_color_spec "#ff69b4" (0, 0, 0)) as (_ & Hhex & _).
    exact (proj1 (Hhex "f" "f" "6" "9" "b" "4" 15 15 6 9 11 4
                    eq_refl eq_refl eq_refl eq_refl eq_refl eq_refl eq_refl)%char).
  - destruct (parse_overlay_color_spec "ff69b4" default_color) as (Hbad & _).
    apply Hbad. left. vm_compute. discriminate.
Defined.
(** ** alert.py: how an alert leaves the program *)

Lemma post_webhook_calls (world : World) (url message : string) (a : action) :
  In a (post_webhook world url message) ->
  truthy url = true /\ (a = WebhookPost url message \/ a = LogError "Slack webhook failed").
Proof.
  unfold post_webhook. destruct (truthy url); [|intros []].
  destruct (requests_post world url message); simpl; intuition.
Qed.

Lemma post_webhook_empty (world : World) (message : string) :
  post_webhook world EmptyString message = [].
Proof. reflexivity. Qed.

Lemma post_webhook_deliveries (world : World) (url message : string) :
  List.filter is_delivery (post_webhook world url message)
  = if truthy url then [WebhookPost url message] else [].
Proof.
  unfold post_webhook. destruct (truthy url); [|reflexivity].
  destruct (requests_post world url message); reflexivity.
Qed.

(** X13. [send_slack_alert] uploads the image only when it has an image,
    a bot token and a channel, none of them empty.  A successful upload is
    the only delivery: the webhook is then not used.  The webhook is used
    when there is no upload or when Slack refuses it (SlackApiError), and
    only if its URL is not empty; its failure is logged, never raised.
    The function raises only when the upload fails with another
    exception, and then nothing else is tried.  With no webhook URL and
    an incomplete upload configuration the alert is dropped without a
    call and without an error. *)
Theorem send_slack_alert_delivery (world : World) (bot_token webhook_url : string)
    (channel : option string) (message : string) (image_path : option Path) :
  let attach :=
    match image_path, channel with
    | Some image, Some ch => if truthy bot_token && truthy ch then Some (image, ch) else None
    | _, _ => None
    end in
  let outcome := send_slack_alert world bot_token webhook_url channel message image_path in
  let deliveries := List.filter is_delivery (snd outcome) in
  match attach with
  | Some (image, ch) =>
      match files_upload_v2 world bot_token ch message image with
      | Uploaded =>
          fst outcome = Ret tt /\ deliveries = [FilesUpload bot_token ch message image]
      | SlackApiError =>
          fst outcome = Ret tt /\
          deliveries = FilesUpload bot_token ch message image
                         :: (if truthy webhook_url then [WebhookPost webhook_url message] else [])
      | UploadRaises e =>
          fst outcome = Raise e /\ deliveries = [FilesUpload bot_token ch message image]
      end
  | None =>
      fst outcome = Ret tt /\
      deliveries = (if truthy webhook_url then [WebhookPost webhook_url message] else []) /\
      (webhook_url = EmptyString -> snd outcome = [])
  end.
Proof.
  cbv zeta. unfold send_slack_alert.
  destruct image_path as [image|], channel as [ch|], (truthy bot_token) eqn:Htok;
    cbn [andb fst snd];
    try (split; [reflexivity|split; [apply post_webhook_deliveries|now intros ->]]).
  destruct (truthy ch) eqn:Hch; cbn [fst snd].
  - destruct (files_upload_v2 world bot_token ch message image); cbn [fst snd];
      (split; [reflexivity|]); try reflexivity.
    cbn [List.filter is_delivery]. now rewrite post_webhook_deliveries.
  - split; [reflexivity|split; [apply post_webhook_deliveries|now intros ->]].
Qed.

(** ** storage.py: what a returned listing tells *)

Lemma sort_keys_ret (files : list Path) (w w' : State) (ks : list (Z * Path)) :
  sort_keys files w = (Ret ks, w') ->
  w' = w /\ ks = List.map (fun p => (mtime_of w p, p)) files /\
  forall p, In p files -> stat_mtime p w = (Ret (mtime_of w p), w).
Proof.
  revert ks w'. induction files as [|p files IH]; intros ks w'.
  - intros [= <- <-]. repeat split. intros p [].
  - cbn [sort_keys]. unfold mbind at 1.
    destruct (stat_mtime p w) as [[t|e] w1] eqn:Hst; [|discriminate].
    assert (Hp : w1 = w /\ t = mtime_of w p).
    { unfold stat_mtime in Hst. unfold mtime_of.
      destruct (bool_decide (p ∈ stat_err w)); [discriminate|].
      destruct (fs w !! p) as [[?|?]|]; try discriminate;
        injection Hst as <- <-; now split. }
    destruct Hp as [-> ->].
    unfold mbind at 1.
    destruct (sort_keys files w) as [[ks'|e] w2] eqn:Hrest; [|discriminate].
    destruct (IH ks' w2 eq_refl) as (-> & -> & Hall).
    intros [= <- <-]. repeat split.
    intros q [<-|Hq]; [exact Hst|now apply Hall].
Qed.

Lemma slice_upto_nil {A} (limit : Z) : slice_upto (@nil A) limit = [].
Proof. unfold slice_upto. destruct (0 <=? limit); now rewrite firstn_nil. Qed.

Lemma slice_upto_in {A} (l : list A) (limit : Z) (x : A) :
  In x (slice_upto l limit) -> In x l.
Proof.
  intros H. destruct (slice_upto_prefix l limit) as [rest Hl]. rewrite Hl.
  apply in_or_app. now left.
Qed.

Lemma listed_in_rglob (w : State) (root : Path) (include_overlays : bool) (p : Path) :
  listed w root include_overlays p = true -> In p (rglob w root).
Proof.
  unfold listed. rewrite !andb_true_iff. intros [[Hb Hf] _].
  apply in_rglob. split; [|exact Hb].
  apply is_file_lookup in Hf as (t & d & ->). eauto.
Qed.

(** A call of [list_recent_images] raises OSError, or returns a slice of
    the sorted candidates; every candidate's [stat] has then succeeded. *)
Lemma list_recent_images_cases (root : Path) (limit : Z) (include_overlays : bool) (w : State) :
  list_recent_images root limit include_overlays w = (Raise OSError, w) \/
  exists sorted,
    list_recent_images root limit include_overlays w = (Ret (slice_upto sorted limit), w) /\
    (forall p, In p sorted ->
               listed w root include_overlays p = true /\
               stat_mtime p w = (Ret (mtime_of w p), w)) /\
    (exists_ w root = true ->
     forall p, listed w root include_overlays p = true -> In p sorted) /\
    List.NoDup sorted /\
    newest_first w sorted.
Proof.
  unfold list_recent_images.
  destruct (exists_ w root) eqn:Hroot; cbn [negb].
  2:{ right. exists []. rewrite slice_upto_nil. split; [reflexivity|].
      split; [intros p []|]. split; [discriminate|]. split; constructor. }
  set (files := if negb include_overlays
                then List.filter (fun p => negb (_is_overlay p))
                       (List.filter (is_file w) (rglob w root))
                else List.filter (is_file w) (rglob w root)).
  assert (Hin : forall p, In p files <-> listed w root include_overlays p = true)
    by (intros p; apply in_listed).
  assert (Hnd : List.NoDup files).
  { unfold files. destruct (negb include_overlays); [apply List.NoDup_filter|];
      apply List.NoDup_filter, NoDup_rglob. }
  unfold mbind.
  destruct (sort_keys files w) as [[ks|e] w1] eqn:Hkeys.
  - right. apply sort_keys_ret in Hkeys as (-> & -> & Hstat).
    set (keyed := List.map (fun p => (mtime_of w p, p)) files).
    assert (Hperm : Permutation (List.map snd (sort_desc keyed)) files).
    { rewrite (Permutation_map snd (sort_desc_perm keyed)).
      unfold keyed. rewrite List.map_map. simpl. now rewrite List.map_id. }
    exists (List.map snd (sort_desc keyed)).
    split; [reflexivity|]. split; [|split; [|split]].
    + intros p Hp. apply (Permutation_in _ Hperm) in Hp.
      split; [now apply Hin|now apply Hstat].
    + intros _ p Hp. apply Hin in Hp. apply (Permutation_in p (Permutation_sym Hperm) Hp).
    + apply (Permutation_NoDup (l := files)); [symmetry; exact Hperm | exact Hnd].
    + apply sorted_keys_newest_first; [|apply sort_desc_sorted].
      intros x Hx. apply (Permutation_in _ (sort_desc_perm keyed)) in Hx.
      unfold keyed in Hx. apply in_map_iff in Hx as (p & <- & _). reflexivity.
  - left. pose proof (sort_keys_state files w) as Hw. rewrite Hkeys in Hw. simpl in Hw.
    pose proof (sort_keys_raises files w e) as He. rewrite Hkeys in He.
    rewrite (He eq_refl), Hw. reflexivity.
Qed.

(** ** main.py: the dashboard *)

Lemma timestamp_of_readable (p : Path) (w : State) (t : Z) :
  stat_mtime p w = (Ret t, w) ->
  MainApp.timestamp_of (Some p) w = (Ret (Some (fromtimestamp t)), w).
Proof.
  intros H. unfold MainApp.timestamp_of, try_except_oserror, mbind. now rewrite H.
Qed.

Lemma send_slack_alert_no_gpio (world : World) (bot_token webhook_url : string)
    (channel : option string) (message : string) (image_path : option Path) (a : action) :
  In a (snd (send_slack_alert world bot_token webhook_url channel message image_path)) ->
  is_gpio a = false.
Proof.
  assert (Hw : In a (post_webhook world webhook_url message) -> is_gpio a = false).
  { intros H. apply post_webhook_calls in H as [_ [->| ->]]; reflexivity. }
  unfold send_slack_alert.
  destruct image_path as [image|], (truthy bot_token), channel as [ch|]; cbn [snd];
    try exact Hw.
  destruct (truthy ch); cbn [snd]; [|exact Hw].
  destruct (files_upload_v2 world bot_token ch message image); cbn [snd].
  - intros [<-|[]]. reflexivity.
  - intros [<-|[<-|H]]; try reflexivity. now apply Hw.
  - intros [<-|[]]. reflexivity.
Qed.

Lemma notify_calls (world : World) (settings : Settings) (result : DetectionResult) :
  let raised := alarm_enabled settings && alarm result in
  (raised = false -> MainApp.notify world settings result = (Ret tt, [])) /\
  (forall pin value,
      In (GpioOutput pin value) (snd (MainApp.notify world settings result)) <->
      value = HIGH /\ raised = true /\ GPIO world = true /\
      gpio_pin settings = Some pin /\ pin <> 0).
Proof.
  cbv zeta. unfold MainApp.notify.
  destruct (alarm_enabled settings && alarm result) eqn:Hraised; cbn [andb].
  - split; [discriminate|]. intros pin value. cbn [snd]. rewrite in_app_iff.
    split.
    + intros [H|H].
      * destruct (gpio_pin settings) as [n|]; cbn [pin_truthy] in H; [|destruct H].
        destruct (n =? 0) eqn:Hn; cbn [negb] in H; [destruct H|].
        unfold gpio_high in H. destruct (GPIO world); cbn [negb] in H; [|destruct H].
        destruct H as [[= <- <-]|[]]. apply Z.eqb_neq in Hn. now repeat split.
      * apply send_slack_alert_no_gpio in H. discriminate.
    + intros (-> & _ & Hg & Hpin & Hn). left. rewrite Hpin. cbn [pin_truthy].
      apply Z.eqb_neq in Hn. rewrite Hn. cbn [negb]. unfold gpio_high. rewrite Hg.
      now left.
  - split; [reflexivity|]. intros pin value. cbn [snd]. split; [intros []|].
    intros (_ & H & _). discriminate.
Qed.


Example dashboard_ring_mask :
  fst (MainApp.dashboard_with DetectionSamples.backend AppSamples.world default_settings
         Samples.archive_root DetectionSamples.mask_file DetectionSamples.with_ring_mask)
  = (Ret {| MainApp.latest_image := Some DetectionSamples.latest;
            MainApp.previous_image := Some DetectionSamples.previous;
            MainApp.mask_overlay :=
              Some (DetectionSamples.day_dir ++ ["cam_0002_mask.png"%string])%list;
            MainApp.detection_rate := 25 # 24;
            MainApp.threshold := 15 # 100;
            MainApp.alarm_state := "Alarm";
            MainApp.delay_warning := false;
            MainApp.logs := [];
            MainApp.latest_timestamp := Some 1700000060000000;
            MainApp.previous_timestamp := Some 1700000000000000 |},
     [GpioOutput 17 HIGH]).
Proof. vm_compute. reflexivity. Qed.


Lemma nth_error_single {A} (l : list A) :
  (forall x y, In x l -> In y l -> x = y) -> List.NoDup l -> nth_error l 1 = None.
Proof.
  intros Hsame Hnd. destruct l as [|a [|b l]]; try reflexivity.
  exfalso. inversion Hnd as [|? ? Hnotin _]; subst. apply Hnotin.
  rewrite (Hsame a b); [now left|now left|right; now left].
Qed.

(** X15. The dashboard evaluates nothing until the archive holds two raw
    frames: with at most one regular file below the storage root whose
    name has no [_mask], overlays not counting, a request either fails on
    a modification time that cannot be read or is answered Normal, with a
    rate of 0, no overlay and no previous image, whatever the threshold;
    no call leaves the program and the state is unchanged. *)
Theorem dashboard_needs_two_frames (cv : Backend) (world : World) (settings : Settings)
    (storage_root mask_path : Path) (w : State)
    (Hfew : forall p q, listed w storage_root false p = true ->
                        listed w storage_root false q = true -> p = q) :
  exists r,
    MainApp.dashboard_with cv world settings storage_root mask_path w = (r, [], w) /\
    (r = Raise OSError \/
     exists resp, r = Ret resp /\
       MainApp.alarm_state resp = "Normal"%string /\
       MainApp.detection_rate resp = 0%Q /\
       MainApp.mask_overlay resp = None /\
       MainApp.previous_image resp = None).
Proof.
  unfold MainApp.dashboard_with.
  destruct (list_recent_images_cases storage_root 2 false w)
    as [Hl | (sorted & Hl & Hin & _ & Hnd & _)]; rewrite Hl.
  { exists (Raise OSError). split; [reflexivity|now left]. }
  assert (Hone : nth_error (slice_upto sorted 2) 1 = None).
  { assert (Hsingle : nth_error sorted 1 = None).
    { apply nth_error_single; [|exact Hnd].
      intros x y Hx Hy. apply Hfew; [now apply Hin|now apply Hin]. }
    unfold slice_upto. cbn [Z.leb Z.compare Z.to_nat Pos.to_nat Pos.iter_op Init.Nat.add].
    destruct sorted as [|a [|b l]]; try reflexivity. discriminate. }
  rewrite Hone. cbn [MainApp.timestamp_of].
  destruct (nth_error (slice_upto sorted 2) 0) as [p|] eqn:Hp.
  - assert (Hst : stat_mtime p w = (Ret (mtime_of w p), w))
      by (apply nth_error_In, slice_upto_in, Hin in Hp; apply Hp).
    rewrite (timestamp_of_readable p w _ Hst). unfold ret.
    eexists. split; [reflexivity|]. right. eexists. split; [reflexivity|].
    repeat split.
  - unfold ret. eexists. split; [reflexivity|]. right. eexists. split; [reflexivity|].
    repeat split.
Qed.

Lemma dashboard_needs_two_frames_witness :
  exists r,
    MainApp.dashboard_with DetectionSamples.backend AppSamples.world default_settings
      Samples.archive_root DetectionSamples.mask_file Samples.dropped
    = (r, [], Samples.dropped).
Proof.
  destruct (dashboard_needs_two_frames DetectionSamples.backend AppSamples.world
              default_settings Samples.archive_root DetectionSamples.mask_file
              Samples.dropped) as (r & Hrun & _).
  - intros p q Hp _. apply listed_in_rglob in Hp. vm_compute in Hp. destruct Hp.
  - exists r. exact Hrun.
Defined.

(** ** api.py: the history *)

Lemma StronglySorted_sublist {A} (R : A -> A -> Prop) (l1 l2 : list A) :
  sublist l1 l2 -> StronglySorted R l2 -> StronglySorted R l1.
Proof.
  induction 1 as [|x l1 l2 Hsub IH|x l1 l2 Hsub IH]; intros Hs.
  - constructor.
  - inversion Hs as [|? ? Hl Hx]; subst. constructor; [now apply IH|].
    rewrite List.Forall_forall in Hx |- *. intros y Hy. apply Hx.
    apply list_elem_of_In. apply list_elem_of_In in Hy. eapply elem_of_sublist; eassumption.
  - inversion Hs; subst. now apply IH.
Qed.

Lemma sublist_ListNoDup {A} (l1 l2 : list A) :
  sublist l1 l2 -> List.NoDup l2 -> List.NoDup l1.
Proof.
  intros Hsub Hnd. apply NoDup_ListNoDup. apply NoDup_ListNoDup in Hnd.
  eapply sublist_NoDup; eassumption.
Qed.

Lemma slice_upto_sublist {A} (l : list A) (limit : Z) : sublist (slice_upto l limit) l.
Proof. unfold slice_upto. destruct (0 <=? limit); apply sublist_take. Qed.

Lemma history_loop_spec (limit : Z) (exclude_overlay : bool) (w : State) (files : list Path) :
  (forall p, In p files -> stat_mtime p w = (Ret (mtime_of w p), w)) ->
  forall items,
  exists shown,
    Api.history_loop limit exclude_overlay files items w
      = (Ret (items ++ List.map (history_item w) shown)%list, w) /\
    sublist shown files /\
    (forall p, In p shown ->
               exclude_overlay = true -> Api.is_overlay (history_item w p) = false) /\
    (shown = [] \/
     Z.of_nat (List.length items + List.length shown)
       <= Z.max limit (Z.of_nat (List.length items) + 1)).
Proof.
  induction files as [|p files IH]; intros Hstat items.
  - exists []. cbn. unfold ret. rewrite app_nil_r. repeat split.
    + constructor.
    + intros p [].
    + now left.
  - assert (Hrest : forall q, In q files -> stat_mtime q w = (Ret (mtime_of w q), w))
      by (intros q Hq; apply Hstat; now right).
    cbn [Api.history_loop].
    destruct (exclude_overlay && (contains "mask" (name p) && endswith (name p) ".png"))
      eqn:Hskip.
    + destruct (IH Hrest items) as (shown & Hrun & Hsub & Hov & Hlen).
      exists shown. split; [exact Hrun|]. split; [now constructor|]. split; assumption.
    + unfold mbind at 1.
      rewrite (timestamp_of_readable p w _ (Hstat p (or_introl eq_refl))).
      fold (history_item w p).
      destruct (limit <=? Z.of_nat (List.length (items ++ [history_item w p]))) eqn:Hfull.
      * exists [p]. unfold ret. split; [reflexivity|]. split; [|split].
        -- constructor. apply sublist_nil_l.
        -- intros q [<-|[]] ->. exact Hskip.
        -- right. cbn [List.length]. lia.
      * destruct (IH Hrest (items ++ [history_item w p])%list)
          as (shown & Hrun & Hsub & Hov & Hlen).
        exists (p :: shown). cbn [List.map].
        rewrite Hrun, <- app_assoc. split; [reflexivity|]. split; [|split].
        -- now constructor.
        -- intros q [<-|Hq] He; [subst; exact Hskip|now apply Hov].
        -- right. apply Z.leb_gt in Hfull. rewrite length_app in Hfull, Hlen.
           cbn [List.length] in *. destruct Hlen as [->|Hlen]; cbn [List.length]; lia.
Qed.


Example history_two_frames :
  fst (Api.history Samples.archive_root 5 true Samples.two_frames)
  = Ret [history_item Samples.two_frames Samples.plain_frame].
Proof. vm_compute. reflexivity. Qed.

(** ** api.py: the settings endpoints *)

Lemma load_settings_state (codec : Codec) (path : Path) (w : State) :
  snd (load_settings codec path w) = w.
Proof.
  unfold load_settings, mbind, read_text.
  destruct (fs w !! path) as [[t data|t]|]; try reflexivity.
  destruct (json_loads codec data) as [r|]; [|reflexivity].
  destruct (model_validate codec r); reflexivity.
Qed.

Lemma load_settings_eta (codec : Codec) (path : Path) (w : State) (settings : Settings) :
  fst (load_settings codec path w) = Ret settings ->
  load_settings codec path w = (Ret settings, w).
Proof.
  intros H. rewrite (surjective_pairing (load_settings codec path w)).
  now rewrite H, load_settings_state.
Qed.

Lemma load_settings_ret (codec : Codec) (path : Path) (w w' : State) (settings : Settings) :
  load_settings codec path w = (Ret settings, w') ->
  w' = w /\
  exists t data r,
    fs w !! path = Some (File t data) /\ json_loads codec data = Some r /\
    model_validate codec r = Some settings.
Proof.
  intros H. pose proof (load_settings_state codec path w) as Hw. rewrite H in Hw.
  split; [exact Hw|].
  unfold load_settings, mbind, read_text in H.
  destruct (fs w !! path) as [[t data|t]|]; try discriminate.
  destruct (json_loads codec data) as [r|] eqn:Hr; [|discriminate].
  destruct (model_validate codec r) as [s|] eqn:Hs; [|discriminate].
  injection H as <- _. now exists t, data, r.
Qed.

Lemma load_settings_written (codec : Codec) (path : Path) (w : State) (t : Z)
    (settings : Settings) (r : raw codec) :
  json_loads codec (model_dump_json codec settings) = Some r ->
  model_validate codec r = Some settings ->
  let w' := set_fs w (<[path := File t (model_dump_json codec settings)]> (fs w)) in
  load_settings codec path w' = (Ret settings, w').
Proof.
  intros Hr Hs. cbv zeta. unfold load_settings, mbind, read_text.
  cbn [fs set_fs]. rewrite lookup_insert_eq, Hr, Hs. reflexivity.
Qed.

Lemma save_settings_run (codec : Codec) (path : Path) (settings : Settings) (w : State) :
  is_file w path = true -> is_dir w (parent path) = true ->
  save_settings codec path settings w
  = (Ret tt, set_fs w (<[path := File (clock w) (model_dump_json codec settings)]> (fs w))).
Proof.
  intros Hf Hd. unfold save_settings, write_text. rewrite Hd.
  unfold is_file in Hf. unfold is_dir at 1.
  destruct (fs w !! path) as [[?|?]|]; try discriminate. reflexivity.
Qed.

Lemma given_twice {A} (new : option A) (old : A) : Api.given new (Api.given new old) = Api.given new old.
Proof. now destruct new. Qed.

Lemma model_copy_validated (settings : Settings) (payload : Api.ConfigRequest) :
  validated settings -> Api.accepted payload -> validated (Api.model_copy settings payload).
Proof.
  unfold validated, Api.accepted, Api.model_copy, Api.given, Api.in_range.
  intros (H1 & H2 & H3 & H4 & H5 & H6) (A1 & A2 & A3 & A4 & A5 & A6).
  cbn [threshold consecutive_hits binary_threshold blur_kernel overlay_alpha
       delay_threshold_seconds].
  destruct (Api.threshold payload), (Api.consecutive_hits payload),
    (Api.binary_threshold payload), (Api.blur_kernel payload),
    (Api.overlay_alpha payload), (Api.delay_threshold_seconds payload);
    repeat split; tauto.
Qed.

(** X17. [update_config] on a readable settings file merges the payload
    into the stored settings, writes the result back to the same file and
    returns it; no other entry is touched.  A field that the payload
    leaves out keeps its value, so the GPIO pin cannot be cleared through
    this endpoint, only replaced.  A payload that passed the checks of the
    request model keeps valid settings valid, sending it twice changes
    nothing more, and when the written text reads back as the settings it
    was made from, [get_config] then returns them. *)
Theorem update_config_merge (codec : Codec) (path : Path) (payload : Api.ConfigRequest)
    (w : State) (settings : Settings)
    (Hload : load_settings codec path w = (Ret settings, w))
    (Hdir : is_dir w (parent path) = true)
    (Hvalid : validated settings)
    (Haccepted : Api.accepted payload) :
  let new_settings := Api.model_copy settings payload in
  let w' := set_fs w (<[path := File (clock w) (model_dump_json codec new_settings)]> (fs w)) in
  Api.update_config codec path payload w = (Ret new_settings, w') /\
  (forall q, q <> path -> fs w' !! q = fs w !! q) /\
  validated new_settings /\
  Api.model_copy new_settings payload = new_settings /\
  (Api.gpio_pin payload = None -> gpio_pin new_settings = gpio_pin settings) /\
  (gpio_pin settings <> None -> gpio_pin new_settings <> None) /\
  (forall r, json_loads codec (model_dump_json codec new_settings) = Some r ->
             model_validate codec r = Some new_settings ->
             Api.get_config codec path w' = (Ret new_settings, w')).
Proof.
  cbv zeta.
  destruct (load_settings_ret _ _ _ _ _ Hload) as (_ & t & data & r & Hfile & _).
  assert (Hf : is_file w path = true) by (unfold is_file; now rewrite Hfile).
  split; [|split; [|split; [|split; [|split; [|split]]]]].
  - unfold Api.update_config, mbind. rewrite Hload.
    rewrite (save_settings_run codec path _ w Hf Hdir). reflexivity.
  - intros q Hq. cbn [fs set_fs]. now rewrite lookup_insert_ne by congruence.
  - now apply model_copy_validated.
  - unfold Api.model_copy.
    cbn [threshold consecutive_hits binary_threshold blur_kernel overlay_color overlay_alpha
         delay_monitor_enabled delay_threshold_seconds alarm_enabled slack_webhook_url
         slack_bot_token slack_channel mask_inclusive gpio_pin].
    rewrite !given_twice. now destruct (Api.gpio_pin payload).
  - intros Hnone. unfold Api.model_copy. cbn [gpio_pin]. now rewrite Hnone.
  - unfold Api.model_copy. cbn [gpio_pin]. now destruct (Api.gpio_pin payload).
  - intros r' Hr Hs. unfold Api.get_config. now apply (load_settings_written codec path w _ _ r').
Qed.

Lemma update_config_merge_witness :
  fst (Api.update_config AppSamples.codec AppSamples.settings_file AppSamples.alarm_off
         AppSamples.configured)
  = Ret (AppSamples.with_alarm_enabled false).
Proof.
  destruct (update_config_merge AppSamples.codec AppSamples.settings_file AppSamples.alarm_off
              AppSamples.configured (AppSamples.with_alarm_enabled true)) as [Hrun _].
  - apply load_settings_eta. vm_compute. reflexivity.
  - vm_compute. reflexivity.
  - unfold validated. cbn. unfold Qle. cbn. lia.
  - unfold Api.accepted. cbn. tauto.
  - rewrite Hrun. reflexivity.
Defined.

(** X18. [control] on a readable settings file changes the two switches
    that the payload gives, and nothing else in the settings; it writes
    them back and touches no other entry.  It writes LOW to the
    configured pin exactly when [reset_alarm] is set, the GPIO library is
    there and the pin is not 0, and it never writes HIGH: an alarm on pin
    0 is neither raised nor reset. *)
Theorem control_reset (world : World) (codec : Codec) (path : Path)
    (payload : Api.ControlRequest) (w : State) (settings : Settings)
    (Hload : load_settings codec path w = (Ret settings, w))
    (Hdir : is_dir w (parent path) = true) :
  let new_settings := Api.model_copy settings (Api.control_update payload) in
  exists calls w',
    Api.control world codec path payload w = (Ret new_settings, calls, w') /\
    (forall q, q <> path -> fs w' !! q = fs w !! q) /\
    alarm_enabled new_settings
      = Api.given (Api.control_alarm_enabled payload) (alarm_enabled settings) /\
    delay_monitor_enabled new_settings
      = Api.given (Api.control_delay_monitor_enabled payload) (delay_monitor_enabled settings) /\
    (forall payload', Api.control_alarm_enabled payload' = Api.control_alarm_enabled payload ->
       Api.control_delay_monitor_enabled payload' = Api.control_delay_monitor_enabled payload ->
       Api.model_copy settings (Api.control_update payload') = new_settings) /\
    gpio_pin new_settings = gpio_pin settings /\
    (forall pin value,
        In (GpioOutput pin value) calls <->
        value = LOW /\ Api.reset_alarm payload = true /\ GPIO world = true /\
        gpio_pin settings = Some pin /\ pin <> 0) /\
    (forall a, In a calls -> is_gpio a = true).
Proof.
  cbv zeta.
  destruct (load_settings_ret _ _ _ _ _ Hload) as (_ & t & data & r & Hfile & _).
  assert (Hf : is_file w path = true) by (unfold is_file; now rewrite Hfile).
  unfold Api.control. rewrite Hload, (save_settings_run codec path _ w Hf Hdir).
  eexists. eexists. split; [reflexivity|].
  split; [|split; [|split; [|split; [|split; [|split]]]]]; try reflexivity.
  - intros q Hq. cbn [fs set_fs]. now rewrite lookup_insert_ne by congruence.
  - intros payload' H1 H2. unfold Api.control_update. now rewrite H1, H2.
  - intros pin value. split.
    + destruct (Api.reset_alarm payload); cbn [andb]; [|intros []].
      destruct (gpio_pin settings) as [n|]; cbn [pin_truthy]; [|intros []].
      destruct (n =? 0) eqn:Hn; cbn [negb]; [intros []|].
      unfold gpio_low. destruct (GPIO world); cbn [negb]; [|intros []].
      intros [[= <- <-]|[]]. apply Z.eqb_neq in Hn. now repeat split.
    + intros (-> & -> & Hg & -> & Hn). cbn [andb pin_truthy].
      apply Z.eqb_neq in Hn. rewrite Hn. cbn [negb]. unfold gpio_low. rewrite Hg. now left.
  - intros a.
    destruct (Api.reset_alarm payload && pin_truthy (gpio_pin settings)); [|intros []].
    destruct (gpio_pin settings) as [n|]; [|intros []].
    unfold gpio_low. destruct (GPIO world); cbn [negb]; [|intros []].
    intros [<-|[]]. reflexivity.
Qed.

Lemma control_reset_witness :
  exists calls w',
    Api.control AppSamples.world AppSamples.codec AppSamples.settings_file
      AppSamples.reset_only AppSamples.configured
    = (Ret (Api.model_copy (AppSamples.with_alarm_enabled true)
              (Api.control_update AppSamples.reset_only)), calls, w') /\
    In (GpioOutput 17 LOW) calls.
Proof.
  destruct (control_reset AppSamples.world AppSamples.codec AppSamples.settings_file
              AppSamples.reset_only AppSamples.configured (AppSamples.with_alarm_enabled true))
    as (calls & w' & Hrun & _ & _ & _ & _ & _ & Hcalls & _).
  - apply load_settings_eta. vm_compute. reflexivity.
  - vm_compute. reflexivity.
  - exists calls, w'. split; [exact Hrun|].
    apply Hcalls. repeat split; try reflexivity. discriminate.
Defined.

(** ** api.py: the mask endpoints *)

Lemma load_mask_absent (cv : Backend) (w : State) (mask_path : Path) (target_shape : nat * nat)
    (inclusive : bool) :
  imread_grayscale cv w mask_path = None ->
  _load_mask_image cv w mask_path target_shape inclusive = ones_255 target_shape.
Proof.
  intros H. unfold _load_mask_image.
  destruct (negb inclusive); [reflexivity|].
  destruct (negb (exists_ w mask_path)); [reflexivity|]. now rewrite H.
Qed.


(** X20. [upload_mask_image] stores whatever it is sent: when it answers,
    the mask file holds the uploaded content and a request for the mask
    image is served, and no other entry is touched; the content is not
    checked.  If it does not decode as an image the detector's mask
    is the whole frame, as if there were no mask; if it decodes to the
    frame's shape, the detector's mask is the upload, binarised at 1. *)
Theorem upload_mask_effect (cv : Backend) (mask_path : Path) (content : string)
    (w w' : State)
    (Hrun : Api.upload_mask_image mask_path content w = (Api.Ok tt, w')) :
  Api.get_mask_image mask_path w' = Api.Ok mask_path /\
  file_data w' mask_path = Some content /\
  (forall q, q <> mask_path -> fs w' !! q = fs w !! q) /\
  (decode_grayscale cv content = None ->
   forall target_shape inclusive,
     _load_mask_image cv w' mask_path target_shape inclusive = ones_255 target_shape) /\
  (forall mask, decode_grayscale cv content = Some mask ->
     _load_mask_image cv w' mask_path (shape mask) true = threshold_binary mask 1 255).
Proof.
  unfold Api.upload_mask_image, write_text in Hrun.
  destruct (is_dir w mask_path); [discriminate|].
  destruct (is_dir w (parent mask_path)); [|discriminate].
  injection Hrun as <-.
  assert (Hdata : file_data
            (set_fs w (<[mask_path := File (clock w) content]> (fs w))) mask_path
          = Some content)
    by (unfold file_data; cbn [fs set_fs]; now rewrite lookup_insert_eq).
  split; [|split; [|split; [|split]]].
  - unfold Api.get_mask_image, exists_. cbn [fs set_fs]. now rewrite lookup_insert_eq.
  - exact Hdata.
  - intros q Hq. cbn [fs set_fs]. now rewrite lookup_insert_ne by congruence.
  - intros Hbad s i. apply load_mask_absent. unfold imread_grayscale. now rewrite Hdata.
  - intros mask Hmask. unfold _load_mask_image, exists_, imread_grayscale.
    cbn [negb fs set_fs]. rewrite lookup_insert_eq. cbn [negb].
    fold (set_fs w (<[mask_path := File (clock w) content]> (fs w))).
    rewrite Hdata, Hmask. now rewrite bool_decide_eq_true_2 by reflexivity.
Qed.

Lemma upload_mask_effect_witness :
  file_data
    (snd (Api.upload_mask_image DetectionSamples.mask_file "dim5x5"
            DetectionSamples.with_ring_mask))
    DetectionSamples.mask_file
  = Some "dim5x5"%string.
Proof.
  destruct (Api.upload_mask_image DetectionSamples.mask_file "dim5x5"
              DetectionSamples.with_ring_mask) as [[[]| |] w'] eqn:Hrun.
  - exact (proj1 (proj2 (upload_mask_effect DetectionSamples.backend _ _ _ _ Hrun))).
  - exfalso. apply (f_equal fst) in Hrun. vm_compute in Hrun. discriminate.
  - exfalso. apply (f_equal fst) in Hrun. vm_compute in Hrun. discriminate.
Defined.

(** ** incoming.py and lifecycle.py: from the drop directory to the sweep *)

Lemma root_is_ancestor (root : Path) (rest : list string) :
  root <> [] -> In root (ancestors_and_self (root ++ rest)%list).
Proof.
  intros Hne. apply in_ancestors_iff. exists (List.length root). split.
  - rewrite length_app. destruct root; [contradiction|simpl; lia].
  - rewrite firstn_app, firstn_all, Nat.sub_diag. simpl. now rewrite app_nil_r.
Qed.

Lemma below_extension (root : Path) (rest : list string) :
  rest <> [] -> is_below root (root ++ rest)%list = true.
Proof.
  intros Hne. unfold is_below. apply andb_true_iff. split.
  - apply bool_decide_eq_true. now exists rest.
  - apply negb_true_iff, bool_decide_eq_false. intros H.
    apply Hne. apply (app_inv_head root). now rewrite app_nil_r.
Qed.

(** Where an archived file is, and what it is. *)
Lemma process_file_archived (self : IncomingProcessor) (path dst : Path) (w w1 : State) :
  callback_keeps_fs self ->
  process_file self path w = (Ret (Some dst), w1) ->
  exists t d,
    fs w !! path = Some (File t d) /\
    fs w1 !! dst = Some (File t d) /\
    name dst = name path /\
    is_below (storage_root self) dst = true /\
    (storage_root self <> [] -> exists_ w1 (storage_root self) = true) /\
    (forall q n, fs w !! q = Some n -> q <> path -> q <> dst -> fs w1 !! q = Some n) /\
    (forall q t' d', fs w1 !! q = Some (File t' d') -> q <> dst ->
                     fs w !! q = Some (File t' d')).
Proof.
  intros Hkeep Hrun.
  destruct (process_file_success _ _ _ _ _ Hrun) as (t & d & wa & wb & Hp & Hmk & Hmv & Hfs).
  specialize (Hfs Hkeep).
  apply ensure_directories_one in Hmk.
  pose proof (mkdir_all_new_entries _ _ _ Hmk) as Hnew.
  apply mkdir_all_ok in Hmk as (Hother & Hdirs & Hpres).
  apply shutil_move_ok in Hmv as (Hdst & n & Hn & Hfs2).
  rewrite (Hpres _ _ Hp) in Hn. injection Hn as <-.
  exists t, d. split; [exact Hp|].
  assert (Hshape : exists rest, rest <> [] /\ dst = (storage_root self ++ rest)%list /\
                                name dst = name path).
  { rewrite Hdst. destruct (is_dir wa (slot self path t)).
    - exists [format_Y t; format_m t; format_d t; name path; name path].
      split; [discriminate|]. unfold joinpath. rewrite name_with_last, slot_parts.
      rewrite <- !app_assoc. split; reflexivity.
    - exists [format_Y t; format_m t; format_d t; name path].
      split; [discriminate|]. rewrite slot_parts, name_with_last.
      rewrite <- !app_assoc. split; reflexivity. }
  destruct Hshape as (rest & Hrest & Hdst' & Hname).
  rewrite Hfs, Hfs2.
  split; [apply lookup_insert_eq|]. split; [exact Hname|].
  split; [rewrite Hdst'; now apply below_extension|].
  split; [|split].
  - intros Hroot. unfold exists_. rewrite Hfs, Hfs2.
    assert (Hrd : is_dir wa (storage_root self) = true).
    { apply Hdirs. rewrite slot_parts, parent_with_last. now apply root_is_ancestor. }
    unfold is_dir in Hrd.
    destruct (fs wa !! storage_root self) as [[?|?]|] eqn:Hr; try discriminate.
    assert (Hne1 : dst <> storage_root self).
    { rewrite Hdst'. intros H. apply Hrest. apply (app_inv_head (storage_root self)).
      now rewrite app_nil_r. }
    assert (Hne2 : path <> storage_root self).
    { intros ->. rewrite (Hpres _ _ Hp) in Hr. discriminate. }
    rewrite lookup_insert_ne by exact Hne1. rewrite lookup_delete_ne by exact Hne2.
    now rewrite Hr.
  - intros q m Hq Hq1 Hq2.
    rewrite lookup_insert_ne by congruence. rewrite lookup_delete_ne by congruence.
    now apply Hpres.
  - intros q t' d' Hq Hne.
    rewrite lookup_insert_ne in Hq by congruence.
    destruct (decide (path = q)) as [->|Hpq]; [now rewrite lookup_delete_eq in Hq|].
    rewrite lookup_delete_ne in Hq by exact Hpq.
    destruct (fs w !! q) as [m|] eqn:Hwq.
    + rewrite (Hpres _ _ Hwq) in Hq. exact Hq.
    + destruct (Hnew q Hwq) as [_ Hdir]; [congruence|]. rewrite Hdir in Hq. discriminate.
Qed.



(** ** incoming.py: a pass over the drop directory *)

Lemma process_file_skipped (self : IncomingProcessor) (path : Path) (w w1 : State) :
  process_file self path w = (Ret None, w1) ->
  (forall q n, fs w !! q = Some n -> fs w1 !! q = Some n) /\
  (forall q t d, fs w1 !! q = Some (File t d) -> fs w !! q = Some (File t d)).
Proof.
  destruct (fs w !! path) as [[t d|t]|] eqn:Hp;
    try (unfold process_file, is_file; rewrite Hp; intros [= <-]; split; auto).
  destruct (decide (path ∈ stat_err w)) as [Hin|Hnin].
  { unfold process_file, is_file, mbind, stat_mtime.
    rewrite Hp. cbn [negb]. rewrite bool_decide_eq_true_2 by assumption. discriminate. }
  rewrite (process_file_run self path w t d Hp Hnin).
  destruct (ensure_directories _ w) as [[[]|e] wa] eqn:Hmk; [|discriminate].
  apply ensure_directories_one in Hmk.
  pose proof (mkdir_all_new_entries _ _ _ Hmk) as Hnew.
  apply mkdir_all_ok in Hmk as (_ & _ & Hpres).
  destruct (shutil_move path _ wa) as [[dst|e] wb] eqn:Hmv.
  { destruct (on_processed self); discriminate. }
  apply shutil_move_raises_os in Hmv as [_ ->]. intros [= <-].
  split; [exact Hpres|].
  intros q t' d' Hq. destruct (fs w !! q) as [m|] eqn:Hwq.
  - rewrite (Hpres _ _ Hwq) in Hq. exact Hq.
  - destruct (Hnew q Hwq) as [_ Hdir]; [congruence|]. rewrite Hdir in Hq. discriminate.
Qed.

Lemma NoDup_map_on {A B} (f : A -> B) (l : list A) :
  (forall x y, In x l -> In y l -> f x = f y -> x = y) ->
  List.NoDup l -> List.NoDup (List.map f l).
Proof.
  induction l as [|a l IH]; intros Hinj Hnd; [constructor|].
  inversion Hnd as [|? ? Hnotin Hnd']; subst. cbn [List.map]. constructor.
  - intros Hin. apply in_map_iff in Hin as (b & Hb & Hbl).
    apply Hnotin. rewrite <- (Hinj b a); [exact Hbl|now right|now left|exact Hb].
  - apply IH; [|exact Hnd']. intros x y Hx Hy. apply Hinj; now right.
Qed.

Lemma NoDup_of_map {A B} (f : A -> B) (l : list A) :
  List.NoDup (List.map f l) -> List.NoDup l.
Proof.
  induction l as [|a l IH]; intros Hnd; [constructor|].
  cbn [List.map] in Hnd. inversion Hnd as [|? ? Hnotin Hnd']; subst. constructor.
  - intros Hin. apply Hnotin. now apply in_map.
  - now apply IH.
Qed.

Lemma in_list_files (w : State) (root p : Path) :
  In p (_list_files w root) -> is_file w p = true /\ parent p = root /\ p <> [].
Proof.
  unfold _list_files, iterdir. rewrite !filter_In, andb_true_iff, negb_true_iff.
  intros [[_ [Hpar Hne]] Hf].
  apply bool_decide_eq_true in Hpar. apply bool_decide_eq_false in Hne. tauto.
Qed.

(** The candidates of a pass have different names. *)
Lemma list_files_names (w : State) (root : Path) :
  List.NoDup (List.map name (_list_files w root)).
Proof.
  apply NoDup_map_on.
  - intros p q Hp Hq Hname.
    apply in_list_files in Hp as (_ & Hp & Hpne), Hq as (_ & Hq & Hqne).
    rewrite (app_removelast_last EmptyString Hpne), (app_removelast_last EmptyString Hqne).
    unfold parent in Hp, Hq. unfold name in Hname. now rewrite Hp, Hq, Hname.
  - unfold _list_files, iterdir. apply List.NoDup_filter, List.NoDup_filter.
    apply NoDup_ListNoDup, NoDup_fst_map_to_list.
Qed.

Lemma process_each_spec (self : IncomingProcessor) (candidates : list Path) :
  callback_keeps_fs self ->
  List.NoDup (List.map name candidates) ->
  forall (moved : list Path) (w w' : State) (out : list Path),
  process_each self candidates moved w = (Ret out, w') ->
  exists added,
    out = (moved ++ added)%list /\
    (forall dst, In dst added ->
       exists c t d,
         In c candidates /\ fs w !! c = Some (File t d) /\ name dst = name c /\
         is_below (storage_root self) dst = true /\ fs w' !! dst = Some (File t d)) /\
    (forall q n, fs w !! q = Some n -> ~ In q candidates -> ~ In q added ->
                 fs w' !! q = Some n) /\
    (forall q t d, fs w' !! q = Some (File t d) -> ~ In q added ->
                   fs w !! q = Some (File t d)) /\
    List.NoDup (List.map name added) /\
    (List.length added <= List.length candidates)%nat.
Proof.
  intros Hkeep. induction candidates as [|c rest IH]; intros Hnd moved w w' out.
  - intros [= <- <-]. exists []. rewrite app_nil_r.
    split; [reflexivity|]. split; [intros dst []|]. split; [auto|]. split; [auto|].
    split; [constructor|reflexivity].
  - cbn [List.map] in Hnd. inversion Hnd as [|? ? Hfresh Hnd']; subst.
    cbn [process_each]. unfold mbind at 1.
    destruct (process_file self c w) as [[[dst|]|e] w1] eqn:Hc; [| |discriminate].
    + intros Hrest.
      destruct (IH Hnd' _ _ _ _ Hrest) as (added & -> & HA & HK & HF & HN & HL).
      destruct (process_file_archived self c dst w w1 Hkeep Hc)
        as (t & d & Hp & Hdst & Hname & Hbelow & _ & Hkept & Hfiles).
      assert (Hnames : forall q, In q added -> name q <> name c).
      { intros q Hq Heq. destruct (HA q Hq) as (c' & _ & _ & Hc' & _ & Hn' & _).
        apply Hfresh. rewrite <- Heq, Hn'. now apply in_map. }
      assert (Hdst_rest : ~ In dst rest).
      { intros Hin. apply Hfresh. rewrite <- Hname. now apply in_map. }
      assert (Hdst_added : ~ In dst added).
      { intros Hin. now apply (Hnames dst Hin). }
      exists (dst :: added). rewrite <- app_assoc. split; [reflexivity|].
      split; [|split; [|split; [|split]]].
      * intros q [<-|Hq].
        -- exists c, t, d. split; [now left|]. split; [exact Hp|]. split; [exact Hname|].
           split; [exact Hbelow|]. now apply HK.
        -- destruct (HA q Hq) as (c' & t' & d' & Hc' & Hp' & Hn' & Hb' & Hq').
           exists c', t', d'. split; [now right|]. split; [|now repeat split].
           apply Hfiles; [exact Hp'|]. intros ->.
           apply Hfresh. rewrite <- Hname. now apply in_map.
      * intros q n Hq Hnc Hna. apply HK.
        -- apply Hkept; [exact Hq| |]; intros ->; [apply Hnc|apply Hna]; now left.
        -- intros Hin. apply Hnc. now right.
        -- intros Hin. apply Hna. now right.
      * intros q t' d' Hq Hna. apply Hfiles.
        -- apply HF; [exact Hq|]. intros Hin. apply Hna. now right.
        -- intros ->. apply Hna. now left.
      * cbn [List.map]. constructor; [|exact HN].
        intros Hin. apply in_map_iff in Hin as (q & Hq & Hqa). apply (Hnames q Hqa).
        now rewrite Hq.
      * cbn [List.length]. lia.
    + intros Hrest.
      destruct (IH Hnd' _ _ _ _ Hrest) as (added & -> & HA & HK & HF & HN & HL).
      destruct (process_file_skipped self c w w1 Hc) as [Hkept Hfiles].
      exists added. split; [reflexivity|]. split; [|split; [|split; [|split]]].
      * intros q Hq. destruct (HA q Hq) as (c' & t' & d' & Hc' & Hp' & Hrest').
        exists c', t', d'. split; [now right|]. split; [now apply Hfiles|exact Hrest'].
      * intros q n Hq Hnc Hna. apply HK; [now apply Hkept| |exact Hna].
        intros Hin. apply Hnc. now right.
      * intros q t' d' Hq Hna. apply Hfiles. now apply HF.
      * exact HN.
      * cbn [List.length]. lia.
Qed.



(** ** detection.py: the shapes of the arrays *)

(** X23. The arrays that [analyze_detection] combines have one shape.
    With an image library that keeps shapes under colour conversion and
    smoothing and resizes to the size it is given, the previous frame is
    brought to the shape of the latest one, whatever its own size, so the
    two smoothed frames, their difference, the mask (the stored one, of
    any size, or the full frame) and the change mask all have the shape
    of the latest frame: the rows and columns of a shape are passed to
    [resize] in the order it expects. *)
Theorem analysis_shapes_agree (cv : Backend) (settings : Settings)
    (img_latest img_prev : Mat3) (w : State) (mask_path : Path)
    (Hcv : well_shaped cv) :
  let resized := _resize_if_needed cv img_prev (shape3 img_latest) in
  let diff := frame_diff cv settings img_latest img_prev in
  let mask := _load_mask_image cv w mask_path (shape diff) (mask_inclusive settings) in
  shape3 resized = shape3 img_latest /\
  shape (smoothed cv settings resized) = shape (smoothed cv settings img_latest) /\
  shape diff = shape3 img_latest /\
  shape mask = shape3 img_latest /\
  shape (change_mask settings diff mask) = shape3 img_latest.
Proof.
  destruct Hcv as (Hgray & Hblur & Hresize & Hresize3). cbv zeta.
  assert (Hsm : forall img, shape (smoothed cv settings img) = shape3 img).
  { intros img. unfold smoothed. now rewrite Hblur, Hgray. }
  assert (Hres : shape3 (_resize_if_needed cv img_prev (shape3 img_latest))
                 = shape3 img_latest).
  { unfold _resize_if_needed.
    destruct (decide (shape3 img_prev = shape3 img_latest)) as [Heq|Hne].
    - now rewrite bool_decide_eq_true_2 by assumption.
    - rewrite bool_decide_eq_false_2 by assumption. rewrite Hresize3.
      now destruct (shape3 img_latest). }
  assert (Hdiff : shape (frame_diff cv settings img_latest img_prev) = shape3 img_latest).
  { unfold frame_diff.
    change (shape (absdiff ?a ?b)) with (shape a). apply Hsm. }
  assert (Hmask : forall target inclusive,
            shape (_load_mask_image cv w mask_path target inclusive) = target).
  { intros target inclusive. unfold _load_mask_image.
    destruct (negb inclusive); [now destruct target|].
    destruct (negb (exists_ w mask_path)); [now destruct target|].
    destruct (imread_grayscale cv w mask_path) as [m|]; [|now destruct target].
    change (shape (threshold_binary ?a _ _)) with (shape a).
    destruct (decide (shape m = target)) as [Heq|Hne].
    - now rewrite bool_decide_eq_true_2 by assumption.
    - rewrite bool_decide_eq_false_2 by assumption. cbn [negb]. rewrite Hresize.
      now destruct target. }
  split; [exact Hres|]. split; [now rewrite !Hsm|]. split; [exact Hdiff|].
  split; [now rewrite Hmask|].
  change (shape (change_mask settings ?d ?m)) with (shape d). exact Hdiff.
Qed.

Lemma analysis_shapes_agree_witness :
  shape (frame_diff DetectionSamples.backend default_settings
           (DetectionSamples.uniform3 5 255) (DetectionSamples.uniform3 3 0))
  = (5%nat, 5%nat).
Proof.
  refine (proj1 (proj2 (proj2 (analysis_shapes_agree DetectionSamples.backend default_settings
            (DetectionSamples.uniform3 5 255) (DetectionSamples.uniform3 3 0)
            DetectionSamples.with_ring_mask DetectionSamples.mask_file _)))).
  repeat split.
Defined.
